(** * AviaxMusic.platforms.Youtube: a shallow embedding of [YouTubeAPI]

    The Python class [YouTubeAPI] of [AviaxMusic/platforms/Youtube.py]
    orchestrates three external services (a search index, the [yt_dlp]
    extractor and a list of Invidious mirrors), the local file system and a
    wall clock.  The embedding keeps the code's own structure:

    - Python values that cross the module's boundary (JSON documents, the
      extractor's info dictionaries, option dictionaries, flags) are terms
      of the inductive type [value]; a dictionary is an association list in
      insertion order;
    - a Python exception is a record of its class and of [str(e)];
      expressions that can raise return an [outcome];
    - the methods run in a state-and-exception monad [M] over a [world]
      (the two mutable fields of [self], the clock, the files on disk and a
      trace of every call made to a collaborator);
    - the collaborators themselves are the fields of an environment [env].

    Characters: a Python [str] is modelled as a Rocq [string], one [ascii]
    per code point (so the alphabet is the code points below 256).
    Numbers inside [value] are integers.  Only exceptions deriving from
    [Exception] are modelled. *)

From Stdlib Require Import ZArith QArith Lqa List String Ascii Bool Lia.
From Stdlib Require Import DecimalString.
Import ListNotations.
Local Close Scope Q_scope.
Local Open Scope string_scope.

(* ================================================================== *)
(** ** Python strings *)

Module PyString.

(** [needle in hay] *)
Fixpoint contains (needle hay : string) : bool :=
    if String.prefix needle hay then true
    else match hay with
         | EmptyString => false
         | String _ rest => contains needle rest
         end.

(** [s.split(sep)[0]] for a one-character separator: the text before the
      first occurrence of [sep] (all of [s] when there is none). *)
Fixpoint split_head (sep : ascii) (s : string) : string :=
    match s with
    | EmptyString => EmptyString
    | String c rest =>
        if Ascii.eqb c sep then EmptyString else String c (split_head sep rest)
    end.

Fixpoint join (sep : string) (l : list string) : string :=
    match l with
    | [] => EmptyString
    | [x] => x
    | x :: rest => x ++ sep ++ join sep rest
    end.

Definition of_Z (z : Z) : string := NilZero.string_of_int (Z.to_int z).

Definition hex_digit (upper : bool) (n : N) : ascii :=
    if (n <? 10)%N then ascii_of_N (48 + n)
    else ascii_of_N ((if upper then 55 else 87) + n).

Definition hex2 (upper : bool) (n : N) : string :=
    String (hex_digit upper (n / 16)) (String (hex_digit upper (n mod 16)) EmptyString).

Definition mem_ascii (c : ascii) (s : string) : bool :=
    existsb (Ascii.eqb c) (list_ascii_of_string s).

(** Code points below 256 that [str.isprintable] accepts. *)
Definition printable (c : ascii) : bool :=
    let n := N_of_ascii c in
    ((32 <=? n) && (n <? 127) || (161 <=? n) && negb (n =? 173))%N.

(** [repr(s)] for a [str]. *)
Definition repr_char (q : ascii) (c : ascii) : string :=
    if Ascii.eqb c q || Ascii.eqb c "092"%char
    then String "092"%char (String c EmptyString)
    else if Ascii.eqb c "009"%char then "\t"
    else if Ascii.eqb c "010"%char then "\n"
    else if Ascii.eqb c "013"%char then "\r"
    else if printable c then String c EmptyString
    else "\x" ++ hex2 false (N_of_ascii c).

Definition repr (s : string) : string :=
    let q := if mem_ascii "'"%char s && negb (mem_ascii "034"%char s)
             then "034"%char else "'"%char in
    String q (concat EmptyString (map (repr_char q) (list_ascii_of_string s)))
      ++ String q EmptyString.

(** [urllib.parse.quote(s)] with its default [safe='/']: the UTF-8 bytes
      of every character outside [A-Za-z0-9_.-~/] are percent-encoded. *)
Definition quote_safe (c : ascii) : bool :=
    let n := N_of_ascii c in
    ((65 <=? n) && (n <=? 90) || (97 <=? n) && (n <=? 122)
     || (48 <=? n) && (n <=? 57))%N
    || mem_ascii c "_.-~/".

Definition pct (n : N) : string := String "%"%char (hex2 true n).

Definition quote_char (c : ascii) : string :=
    let n := N_of_ascii c in
    if quote_safe c then String c EmptyString
    else if (n <? 128)%N then pct n
    else pct (192 + n / 64) ++ pct (128 + n mod 64).

Definition quote (s : string) : string :=
    concat EmptyString (map quote_char (list_ascii_of_string s)).

(** [os.path.splitext(p)[0]] on a POSIX path: the extension starts at the
      last dot of the last component, unless only dots precede it there. *)
Fixpoint rindex (c : ascii) (l : list ascii) (i : nat) (acc : option nat)
    : option nat :=
    match l with
    | [] => acc
    | x :: rest => rindex c rest (S i) (if Ascii.eqb x c then Some i else acc)
    end.

Definition substring_list (from to : nat) (l : list ascii) : list ascii :=
    firstn (to - from) (skipn from l).

Definition splitext_root (p : string) : string :=
    let l := list_ascii_of_string p in
    match rindex "."%char l 0 None with
    | None => p
    | Some dot =>
        let name_start :=
          match rindex "/"%char l 0 None with
          | None => 0
          | Some sep => S sep
          end in
        if (name_start <=? dot)%nat
           && existsb (fun c => negb (Ascii.eqb c "."%char))
                      (substring_list name_start dot l)
        then string_of_list_ascii (firstn dot l)
        else p
    end.

(** [s.endswith(suffix)] *)
Definition endswith (s suffix : string) : bool :=
    let n := String.length s in
    let k := String.length suffix in
    (k <=? n)%nat && String.eqb (String.substring (n - k) k s) suffix.

End PyString.

(* ================================================================== *)
(** ** Python values, exceptions and the expressions the module uses *)

(** JSON documents, info dictionaries, option dictionaries and flags. *)
#[warnings="-register-all"]
Inductive value : Type :=
| VNone
| VBool (b : bool)
| VInt (z : Z)
| VStr (s : string)
| VList (l : list value)
| VDict (d : list (string * value)).

Definition dict := list (string * value).

(** The exception classes that occur; every one derives from [Exception].
    [ExtractorError] stands for [yt_dlp.utils.ExtractorError] and its
    subclasses, [PlainException] for [Exception] itself, [OtherError] for
    any class not listed (network, file system and library errors). *)
Inductive exn_class : Type :=
| ExtractorError | NameError | KeyError | TypeError | AttributeError
| IndexError | PlainException | OtherError.

(** An exception; [exn_msg] is [str(e)]. *)
Record exn : Type := mkExn { exn_cls : exn_class; exn_msg : string }.

Inductive outcome (A : Type) : Type :=
| Ret (a : A)
| Raise (e : exn).
Arguments Ret {A} a.
Arguments Raise {A} e.

Definition obind {A B} (o : outcome A) (k : A -> outcome B) : outcome B :=
  match o with
  | Ret a => k a
  | Raise e => Raise e
  end.

Module Py.

Definition type_name (v : value) : string :=
  match v with
  | VNone => "NoneType"
  | VBool _ => "bool"
  | VInt _ => "int"
  | VStr _ => "str"
  | VList _ => "list"
  | VDict _ => "dict"
  end.

(** [bool(v)] *)
Definition truthy (v : value) : bool :=
  match v with
  | VNone => false
  | VBool b => b
  | VInt z => negb (z =? 0)%Z
  | VStr s => negb (String.eqb s EmptyString)
  | VList l => match l with [] => false | _ => true end
  | VDict d => match d with [] => false | _ => true end
  end.

(** [repr(v)] and [str(v)] (the latter is what an f-string inserts). *)
Fixpoint repr (v : value) : string :=
  match v with
  | VNone => "None"
  | VBool true => "True"
  | VBool false => "False"
  | VInt z => PyString.of_Z z
  | VStr s => PyString.repr s
  | VList l => "[" ++ PyString.join ", " (map repr l) ++ "]"
  | VDict d =>
      "{" ++ PyString.join ", "
               (map (fun kv => match kv with
                               | (k, x) => PyString.repr k ++ ": " ++ repr x
                               end) d) ++ "}"
  end.

Definition str (v : value) : string :=
  match v with
  | VStr s => s
  | _ => repr v
  end.

(** Dictionaries keep insertion order; a repeated key is not stored. *)
Fixpoint lookup (k : string) (d : dict) : option value :=
  match d with
  | [] => None
  | (k', x) :: rest => if String.eqb k k' then Some x else lookup k rest
  end.

(** [d[k] = x] *)
Fixpoint store (k : string) (x : value) (d : dict) : dict :=
  match d with
  | [] => [(k, x)]
  | (k', y) :: rest =>
      if String.eqb k k' then (k, x) :: rest else (k', y) :: store k x rest
  end.

Definition not_subscriptable (v : value) : exn :=
  mkExn TypeError ("'" ++ type_name v ++ "' object is not subscriptable").

Definition no_attribute (v : value) (attr : string) : exn :=
  mkExn AttributeError
        ("'" ++ type_name v ++ "' object has no attribute '" ++ attr ++ "'").

(** [v[k]] for a string key [k] *)
Definition item (v : value) (k : string) : outcome value :=
  match v with
  | VDict d =>
      match lookup k d with
      | Some x => Ret x
      | None => Raise (mkExn KeyError (PyString.repr k))
      end
  | VList _ =>
      Raise (mkExn TypeError "list indices must be integers or slices, not str")
  | VStr _ =>
      Raise (mkExn TypeError "string indices must be integers, not 'str'")
  | _ => Raise (not_subscriptable v)
  end.

(** [v[0]] *)
Definition item0 (v : value) : outcome value :=
  match v with
  | VList (x :: _) => Ret x
  | VList [] => Raise (mkExn IndexError "list index out of range")
  | VStr (String c _) => Ret (VStr (String c EmptyString))
  | VStr EmptyString => Raise (mkExn IndexError "string index out of range")
  | VDict _ => Raise (mkExn KeyError "0")
  | _ => Raise (not_subscriptable v)
  end.

(** [v.get(k, default)]; only dictionaries have the method. *)
Definition get (v : value) (k : string) (default : value) : outcome value :=
  match v with
  | VDict d =>
      match lookup k d with
      | Some x => Ret x
      | None => Ret default
      end
  | _ => Raise (no_attribute v "get")
  end.

(** [v.split(sep)[0]] for a one-character separator *)
Definition split_head (v : value) (sep : ascii) : outcome value :=
  match v with
  | VStr s => Ret (VStr (PyString.split_head sep s))
  | _ => Raise (no_attribute v "split")
  end.

(** The elements [for x in v] ranges over. *)
Definition iterate (v : value) : outcome (list value) :=
  match v with
  | VList l => Ret l
  | VDict d => Ret (map (fun kv => VStr (fst kv)) d)
  | VStr s =>
      Ret (map (fun c => VStr (String c EmptyString)) (list_ascii_of_string s))
  | _ => Raise (mkExn TypeError
                      ("'" ++ type_name v ++ "' object is not iterable"))
  end.

(** [v == s] for a string literal [s] *)
Definition eq_str (v : value) (s : string) : bool :=
  match v with
  | VStr s' => String.eqb s' s
  | _ => false
  end.

(** [k in v] for a string literal [k] *)
Definition contains (k : string) (v : value) : outcome bool :=
  match v with
  | VDict d => Ret (match lookup k d with Some _ => true | None => false end)
  | VList l => Ret (existsb (fun x => eq_str x k) l)
  | VStr s => Ret (PyString.contains k s)
  | _ => Raise (mkExn TypeError
                      ("argument of type '" ++ type_name v
                       ++ "' is not iterable"))
  end.

Definition is_list (v : value) : bool :=
  match v with
  | VList _ => true
  | _ => false
  end.

End Py.

(* ================================================================== *)
(** ** Collaborators, the world and the monad of the methods *)

(** A call that leaves the module. *)
Inductive call : Type :=
| CSleep (seconds : Q)                    (* asyncio.sleep(seconds) *)
| CSearch (query : string)                (* VideosSearch(query, limit=1).next() *)
| CExtract (opts : dict) (link : string)  (* ydl.extract_info(link, download=False) *)
| CDownload (opts : dict) (link : string) (* ydl.download([link]) *)
| CPrepare (opts : dict) (info : value)   (* ydl.prepare_filename(info) *)
| CHttpGet (url : string)                 (* session.get(url, timeout=10) *)
| CJson (url : string)                    (* resp.json() *)
| CMakedirs (path : string)               (* os.makedirs(path, exist_ok=True) *)
| CRename (src dst : string).             (* os.rename(src, dst) *)

Inductive level : Type := Warning | Error.

(** What the trace records: a call with the exception it raised, if any,
    and the lines handed to [logger].  The trace of a [world] is kept
    newest event first. *)
Inductive event : Type :=
| Called (c : call) (failure : option exn)
| Logged (lv : level) (msg : string).

(** The collaborators.  Each answers with a value or raises.  The integer
    [ydl.download] returns is discarded by the source, so [download_media]
    only reports the files it wrote.  [random53] is the 53-bit integer
    behind one call of [random.random()], [choice_index] the one behind
    [random.choice]; [lag] is the time, in microseconds, by which a clock
    reading or the end of a sleep is late.  The index of these three is the
    count of such steps taken so far. *)
Record env : Type := mkEnv {
  search_next : string -> outcome value;
  extract_info : dict -> string -> outcome value;
  download_media : dict -> string -> outcome (list string);
  prepare_filename : dict -> value -> outcome string;
  http_get : string -> outcome (Z * outcome value);
  makedirs : string -> outcome unit;
  rename_error : string -> string -> option exn;
  random53 : nat -> N;
  choice_index : nat -> nat;
  lag : nat -> N
}.

(** [last_request] and [request_delay] are the two fields of [self] that
    change after [__init__]; the rest is the outside world. *)
Record world : Type := mkWorld {
  last_request : Q;
  request_delay : Q;
  clock : Q;
  steps : nat;
  files : list string;
  trace : list event
}.

Definition M (A : Type) : Type := world -> outcome A * world.

Definition ret {A} (a : A) : M A := fun w => (Ret a, w).

Definition raise {A} (e : exn) : M A := fun w => (Raise e, w).

Definition bind {A B} (m : M A) (k : A -> M B) : M B :=
  fun w =>
    match m w with
    | (Ret a, w') => k a w'
    | (Raise e, w') => (Raise e, w')
    end.

Notation "x <- m ;; k" := (bind m (fun x => k))
  (at level 61, m at next level, right associativity).
Notation "m ;;; k" := (bind m (fun _ => k))
  (at level 61, right associativity).

(** [try: m  except Exception as e: h e] *)
Definition try_except {A} (m : M A) (h : exn -> M A) : M A :=
  fun w =>
    match m w with
    | (Ret a, w') => (Ret a, w')
    | (Raise e, w') => h e w'
    end.

Definition lift {A} (o : outcome A) : M A := fun w => (o, w).

Definition failure_of {A} (o : outcome A) : option exn :=
  match o with
  | Ret _ => None
  | Raise e => Some e
  end.

Definition record (ev : event) : M unit :=
  fun w => (Ret tt,
            mkWorld (last_request w) (request_delay w) (clock w) (steps w)
                    (files w) (ev :: trace w)).

(** A call to a collaborator: traced, then its answer. *)
Definition invoke {A} (c : call) (answer : outcome A) : M A :=
  record (Called c (failure_of answer)) ;;; lift answer.

Definition log (lv : level) (msg : string) : M unit := record (Logged lv msg).

Definition microseconds (n : N) : Q := Qmake (Z.of_N n) 1000000.

(** Moves the clock by [d] and by the lag of this step. *)
Definition advance (E : env) (d : Q) : M unit :=
  fun w => (Ret tt,
            mkWorld (last_request w) (request_delay w)
                    (clock w + d + microseconds (lag E (steps w)))%Q
                    (S (steps w)) (files w) (trace w)).

(** [time.time()] *)
Definition time_time (E : env) : M Q :=
  advance E 0%Q ;;; (fun w => (Ret (clock w), w)).

(** [await asyncio.sleep(d)] *)
Definition sleep (E : env) (d : Q) : M unit :=
  record (Called (CSleep d) None) ;;; advance E d.

Definition fraction53 (k : N) : Q :=
  Qmake (Z.of_N (k mod 2 ^ 53)%N) (2 ^ 53)%positive.

(** [random.random()]: a multiple of 2^-53 in [0, 1). *)
Definition random_random (E : env) : M Q :=
  fun w => (Ret (fraction53 (random53 E (steps w))),
            mkWorld (last_request w) (request_delay w) (clock w) (S (steps w))
                    (files w) (trace w)).

(** [random.uniform(a, b)] is [a + (b - a) * random()]. *)
Definition random_uniform (E : env) (a b : Q) : M Q :=
  u <- random_random E ;; ret (a + (b - a) * u)%Q.

(** [random.choice(seq)] for a non-empty [seq]. *)
Definition random_choice (E : env) (seq : list string) : M string :=
  fun w => (Ret (nth (choice_index E (steps w) mod List.length seq) seq
                     EmptyString),
            mkWorld (last_request w) (request_delay w) (clock w) (S (steps w))
                    (files w) (trace w)).

Definition get_last_request : M Q := fun w => (Ret (last_request w), w).
Definition get_request_delay : M Q := fun w => (Ret (request_delay w), w).

Definition set_last_request (t : Q) : M unit :=
  fun w => (Ret tt, mkWorld t (request_delay w) (clock w) (steps w) (files w)
                            (trace w)).

Definition set_request_delay (d : Q) : M unit :=
  fun w => (Ret tt, mkWorld (last_request w) d (clock w) (steps w) (files w)
                            (trace w)).

(** [os.path.exists(path)] *)
Definition path_exists (path : string) : M bool :=
  fun w => (Ret (existsb (String.eqb path) (files w)), w).

Definition set_files (fs : list string) : M unit :=
  fun w => (Ret tt, mkWorld (last_request w) (request_delay w) (clock w)
                            (steps w) fs (trace w)).

Definition get_files : M (list string) := fun w => (Ret (files w), w).

(** [await asyncio.to_thread(ydl.download, [link])] *)
Definition ydl_download (E : env) (opts : dict) (link : string) : M unit :=
  written <- invoke (CDownload opts link) (download_media E opts link) ;;
  fs <- get_files ;;
  set_files (written ++ fs)%list.

(** [os.rename(src, dst)] *)
Definition os_rename (E : env) (src dst : string) : M unit :=
  match rename_error E src dst with
  | Some e => invoke (CRename src dst) (Raise e)
  | None =>
      invoke (CRename src dst) (Ret tt) ;;;
      fs <- get_files ;;
      set_files (dst :: filter (fun p => negb (String.eqb p src)) fs)
  end.

(** The state of a freshly constructed [YouTubeAPI], at time [now], with
    the files [fs] on disk. *)
Definition initial_world (now : Q) (fs : list string) : world :=
  mkWorld 0%Q 2%Q now 0 fs [].

(* ================================================================== *)
(** ** class YouTubeAPI *)

(** The fields [__init__] sets and no method changes. *)
Definition base_url : string := "https://www.youtube.com/watch?v=".
Definition playlist_base : string := "https://youtube.com/playlist?list=".

Definition user_agents : list string :=
  [ "Mozilla/5.0 (Windows NT 10.0; Win64; x64) AppleWebKit/537.36 (KHTML, like Gecko) Chrome/120.0.0.0 Safari/537.36";
    "Mozilla/5.0 (Macintosh; Intel Mac OS X 10_15_7) AppleWebKit/605.1.15 (KHTML, like Gecko) Version/16.3 Safari/605.1.15";
    "Mozilla/5.0 (iPhone; CPU iPhone OS 16_3 like Mac OS X) AppleWebKit/605.1.15 (KHTML, like Gecko) Version/16.3 Mobile/15E148 Safari/604.1" ].

Definition invidious_instances : list string :=
  [ "https://yewtu.be";
    "https://inv.odyssey346.dev";
    "https://invidious.flokinet.to";
    "https://vid.puffyan.us";
    "https://inv.tux.pizza" ].

(** The names the module binds at top level: its imports, [logger] and the
    class itself. *)
Definition module_globals : list string :=
  [ "asyncio"; "logging"; "os"; "random"; "re"; "sys"; "time";
    "Optional"; "Tuple"; "Dict"; "List"; "Union"; "aiohttp"; "quote";
    "yt_dlp"; "MessageEntityType"; "Message"; "VideosSearch"; "logger";
    "YouTubeAPI" ].

(** [_rate_limit] *)
Definition _rate_limit (E : env) : M unit :=
  now <- time_time E ;;
  last <- get_last_request ;;
  let elapsed := (now - last)%Q in
  delay <- get_request_delay ;;
  (if Qlt_le_dec elapsed delay
   then sleep E (delay - elapsed)%Q
   else ret tt) ;;;
  t <- time_time E ;;
  set_last_request t ;;;
  d <- random_uniform E (3 # 2)%Q (5 # 2)%Q ;;
  set_request_delay d.

(** [_get_ydl_opts].  The ['logger'] entry holds the module's logger
    object, which has no counterpart in [value]; it is left out. *)
Definition _get_ydl_opts (E : env) (audio_only : bool) (format_id : value)
  : M dict :=
  agent <- random_choice E user_agents ;;
  let opts : dict :=
    [ ("quiet", VBool true);
      ("no_warnings", VBool true);
      ("geo_bypass", VBool true);
      ("force_ipv4", VBool true);
      ("socket_timeout", VInt 30);
      ("retries", VInt 3);
      ("user_agent", VStr agent);
      ("referer", VStr "https://www.youtube.com/");
      ("noplaylist", VBool true);
      ("extract_flat", VBool false);
      ("nocheckcertificate", VBool true);
      ("ignoreerrors", VBool true);
      ("ratelimit", VInt 1048576) ] in
  if Py.truthy format_id then
    ret (Py.store "format" format_id opts)
  else if audio_only then
    ret (Py.store "postprocessors"
           (VList [VDict [ ("key", VStr "FFmpegExtractAudio");
                           ("preferredcodec", VStr "mp3");
                           ("preferredquality", VStr "192") ]])
           (Py.store "format" (VStr "bestaudio/best") opts))
  else
    ret (Py.store "format"
           (VStr "bestvideo[height<=720]+bestaudio/best[height<=720]") opts).

(** [next((v for v in results if v.get('type') == 'video'), None)] *)
Fixpoint first_video (results : list value) : outcome value :=
  match results with
  | [] => Ret VNone
  | v :: rest =>
      obind (Py.get v "type" VNone) (fun t =>
        if Py.eq_str t "video" then Ret v else first_video rest)
  end.

Definition search_url (base query : string) : string :=
  base ++ "/api/v1/search?q=" ++ PyString.quote query.

(** The dictionary [_get_from_invidious] builds from a search entry. *)
Definition invidious_entry (video : value) : outcome value :=
  obind (Py.get video "videoId" VNone) (fun id =>
  obind (Py.get video "title" (VStr "Unknown Title")) (fun title =>
  obind (Py.get video "lengthSeconds" (VInt 0)) (fun duration =>
  obind (Py.get video "videoId" VNone) (fun id_t =>
  obind (Py.get video "videoId" VNone) (fun id_u =>
    Ret (VDict [ ("id", id);
                 ("title", title);
                 ("duration", duration);
                 ("thumbnail",
                  VStr ("https://i.ytimg.com/vi/" ++ Py.str id_t
                        ++ "/hqdefault.jpg"));
                 ("url", VStr (base_url ++ Py.str id_u)) ])))))).

(** The body of the [try] for one mirror: [Some d] when it reaches
    [return d], [None] when it falls through to the next mirror. *)
Definition invidious_attempt (E : env) (base query : string)
  : M (option value) :=
  let url := search_url base query in
  resp <- invoke (CHttpGet url) (http_get E url) ;;
  if (fst resp =? 200)%Z then
    results <- invoke (CJson url) (snd resp) ;;
    if Py.truthy results && Py.is_list results then
      items <- lift (Py.iterate results) ;;
      video <- lift (first_video items) ;;
      if Py.truthy video then
        d <- lift (invidious_entry video) ;;
        ret (Some d)
      else ret None
    else ret None
  else ret None.

Fixpoint invidious_loop (E : env) (bases : list string) (query : string)
  : M value :=
  match bases with
  | [] => ret VNone
  | base :: rest =>
      r <- try_except (invidious_attempt E base query)
             (fun e =>
                log Warning ("Invidious request failed on " ++ base ++ ": "
                             ++ exn_msg e) ;;;
                ret None) ;;
      match r with
      | Some d => ret d
      | None => invidious_loop E rest query
      end
  end.

(** [_get_from_invidious] *)
Definition _get_from_invidious (E : env) (query : string) : M value :=
  invidious_loop E invidious_instances query.

(** The first two statements after the throttle, in every method that
    takes a link: [if videoid: link = prefix + link] and
    [if "&" in link: link = link.split("&")[0]]. *)
Definition normalize (prefix link : string) (videoid : value) : string :=
  let link := if Py.truthy videoid then prefix ++ link else link in
  if PyString.contains "&" link
  then PyString.split_head "&"%char link
  else link.

(** [int(time_to_seconds(duration_min))].  The name [time_to_seconds] is
    looked up when the expression is evaluated.  The module neither
    defines nor imports it (it is not among [module_globals], and it is no
    builtin), so the lookup raises [NameError] before anything is called.
    The other branch is never taken: it stands for calling whatever the
    name would be bound to. *)
Definition int_time_to_seconds (duration_min : value) : outcome value :=
  if existsb (String.eqb "time_to_seconds") module_globals
  then Ret duration_min
  else Raise (mkExn NameError "name 'time_to_seconds' is not defined").

(** The loop of the first [try] of [details], run on what the search
    answered: [Some r] when it returns [r] at the first result, [None]
    when there is no result to loop over. *)
Definition details_search_return (answer : value)
  : outcome (option (value * string)) :=
  obind (Py.item answer "result") (fun results =>
  obind (Py.iterate results) (fun items =>
  match items with
  | [] => Ret None
  | result :: _ =>
      obind (Py.item result "duration") (fun duration_min =>
      obind (Py.item result "title") (fun title =>
      obind (if String.eqb (Py.str duration_min) "None"
             then Ret (VInt 0)
             else int_time_to_seconds duration_min) (fun duration_sec =>
      obind (Py.item result "thumbnails") (fun thumbnails =>
      obind (Py.item0 thumbnails) (fun thumbnail0 =>
      obind (Py.item thumbnail0 "url") (fun thumbnail_url =>
      obind (Py.split_head thumbnail_url "?"%char) (fun thumbnail =>
      obind (Py.item result "id") (fun id =>
      obind (Py.item result "link") (fun url =>
        Ret (Some (VDict [ ("title", title);
                           ("duration", duration_min);
                           ("duration_sec", duration_sec);
                           ("thumbnail", thumbnail);
                           ("id", id);
                           ("url", url) ],
                   EmptyString)))))))))))
  end)).

(** The body of the first [try] of [details]. *)
Definition details_search (E : env) (link : string)
  : M (option (value * string)) :=
  answer <- invoke (CSearch link) (search_next E link) ;;
  lift (details_search_return answer).

(** The statements of the second [try] of [details] that follow
    [extract_info]. *)
Definition details_extract_return (info : value) : outcome (value * string) :=
  obind (if negb (Py.truthy info)
         then Raise (mkExn PlainException "No info returned")
         else Ret tt) (fun _ =>
  obind (Py.contains "entries" info) (fun has_entries =>
  obind (if has_entries then
           obind (Py.item info "entries") (fun entries =>
             if Py.is_list entries && Py.truthy entries
             then Py.item0 entries
             else Raise (mkExn PlainException "No entries found"))
         else Ret info) (fun info =>
  obind (Py.get info "duration" (VInt 0)) (fun duration =>
  obind (Py.get info "title" (VStr "Unknown Title")) (fun title =>
  obind (Py.get info "thumbnail" VNone) (fun thumb =>
  obind (if Py.truthy thumb then Ret thumb
         else obind (Py.item info "id") (fun id =>
                Ret (VStr ("https://i.ytimg.com/vi/" ++ Py.str id
                           ++ "/hqdefault.jpg")))) (fun thumbnail =>
  obind (Py.item info "id") (fun id =>
  obind (Py.item info "id") (fun id_u =>
    Ret (VDict [ ("title", title);
                 ("duration", duration);
                 ("duration_sec", duration);
                 ("thumbnail", thumbnail);
                 ("id", id);
                 ("url", VStr (base_url ++ Py.str id_u)) ],
         EmptyString)))))))))).

(** The body of the second [try] of [details]. *)
Definition details_extract (E : env) (link : string) : M (value * string) :=
  ydl_opts <- _get_ydl_opts E true VNone ;;
  info <- invoke (CExtract ydl_opts link) (extract_info E ydl_opts link) ;;
  lift (details_extract_return info).

Definition is_extractor_error (e : exn) : bool :=
  match exn_cls e with
  | ExtractorError => true
  | _ => false
  end.

(** The [except] clauses of the second [try] of [details]. *)
Definition details_extract_failed (E : env) (link : string) (e : exn)
  : M (value * string) :=
  if is_extractor_error e then
    found <- (if PyString.contains "Sign in" (exn_msg e) then
                fallback <- _get_from_invidious E link ;;
                if Py.truthy fallback then
                  title <- lift (Py.item fallback "title") ;;
                  duration <- lift (Py.item fallback "duration") ;;
                  duration_sec <- lift (Py.item fallback "duration") ;;
                  thumbnail <- lift (Py.item fallback "thumbnail") ;;
                  id <- lift (Py.item fallback "id") ;;
                  url <- lift (Py.item fallback "url") ;;
                  ret (Some (VDict [ ("title", title);
                                     ("duration", duration);
                                     ("duration_sec", duration_sec);
                                     ("thumbnail", thumbnail);
                                     ("id", id);
                                     ("url", url) ],
                             EmptyString))
                else ret None
              else ret None) ;;
    match found with
    | Some r => ret r
    | None =>
        log Error ("Extractor error: " ++ exn_msg e) ;;;
        ret (VNone, "Extraction failed: " ++ exn_msg e)
    end
  else
    log Error ("Error getting details: " ++ exn_msg e) ;;;
    ret (VNone, "Error: " ++ exn_msg e).

(** [details] *)
Definition details (E : env) (link : string) (videoid : value)
  : M (value * string) :=
  try_except
    (_rate_limit E ;;;
     let link := normalize base_url link videoid in
     first <- try_except (details_search E link)
                (fun e =>
                   log Warning ("VideosSearch failed: " ++ exn_msg e) ;;;
                   ret None) ;;
     match first with
     | Some r => ret r
     | None =>
         try_except (details_extract E link) (details_extract_failed E link)
     end)
    (fun e =>
       log Error ("Failed to get details: " ++ exn_msg e) ;;;
       ret (VNone, "Failed to process query: " ++ exn_msg e)).

(** The statements of [video] that follow [extract_info]. *)
Definition video_return (info : value) : outcome (value * string) :=
  if negb (Py.truthy info) then Ret (VNone, "No stream URL available")
  else
    obind (Py.get info "url" VNone) (fun stream =>
      if negb (Py.truthy stream) then Ret (VNone, "No stream URL available")
      else obind (Py.item info "url") (fun url => Ret (url, EmptyString))).

(** [video] *)
Definition video (E : env) (link : string) (videoid : value)
  : M (value * string) :=
  try_except
    (_rate_limit E ;;;
     let link := normalize base_url link videoid in
     ydl_opts <- _get_ydl_opts E false VNone ;;
     info <- invoke (CExtract ydl_opts link) (extract_info E ydl_opts link) ;;
     lift (video_return info))
    (fun e =>
       log Error ("Stream URL error: " ++ exn_msg e) ;;;
       ret (VNone, "Error getting stream URL: " ++ exn_msg e)).

(** [[entry['id'] for entry in entries if entry.get('id')]] *)
Fixpoint entry_ids (entries : list value) : outcome (list value) :=
  match entries with
  | [] => Ret []
  | entry :: rest =>
      obind (Py.get entry "id" VNone) (fun id =>
        if Py.truthy id then
          obind (Py.item entry "id") (fun x =>
          obind (entry_ids rest) (fun xs => Ret (x :: xs)))
        else entry_ids rest)
  end.

Definition playlist_opts (limit : Z) : dict :=
  [ ("extract_flat", VBool true);
    ("playlistend", VInt limit);
    ("quiet", VBool true);
    ("no_warnings", VBool true) ].

(** The statements of [playlist] that follow [extract_info]. *)
Definition playlist_return (info : value) : outcome (list value) :=
  if negb (Py.truthy info) then Ret []
  else
    obind (Py.get info "entries" VNone) (fun got =>
      if negb (Py.truthy got) then Ret []
      else
        obind (Py.item info "entries") (fun entries =>
        obind (Py.iterate entries) entry_ids)).

(** [playlist] *)
Definition playlist (E : env) (link : string) (limit user_id : Z)
  (videoid : value) : M (list value) :=
  try_except
    (_rate_limit E ;;;
     let link := normalize playlist_base link videoid in
     let ydl_opts := playlist_opts limit in
     info <- invoke (CExtract ydl_opts link) (extract_info E ydl_opts link) ;;
     lift (playlist_return info))
    (fun e =>
       log Error ("Playlist error: " ++ exn_msg e) ;;;
       ret []).

(** What [download] returns: a path, or a pair of a path and [True]. *)
Inductive download_result : Type :=
| Path (path : string)
| PathFlag (path : string) (flag : bool).

Definition result_path (r : download_result) : string :=
  match r with
  | Path p => p
  | PathFlag p _ => p
  end.

Definition id_template : value := VStr "downloads/%(id)s.%(ext)s".

(** The body of the [try] of [download]. *)
Definition download_body (E : env) (link : string)
  (video videoid songaudio songvideo format_id title : value)
  : M download_result :=
  _rate_limit E ;;;
  let link := normalize base_url link videoid in
  invoke (CMakedirs "downloads") (makedirs E "downloads") ;;;
  if Py.truthy songvideo then
    opts <- _get_ydl_opts E false format_id ;;
    let target := "downloads/" ++ Py.str title ++ ".mp4" in
    let ydl_opts := Py.store "outtmpl" (VStr target) opts in
    ydl_download E ydl_opts link ;;;
    ret (Path target)
  else if Py.truthy songaudio then
    opts <- _get_ydl_opts E true format_id ;;
    let target := "downloads/" ++ Py.str title ++ ".mp3" in
    let ydl_opts := Py.store "outtmpl" (VStr target) opts in
    ydl_download E ydl_opts link ;;;
    ret (Path target)
  else if Py.truthy video then
    opts <- _get_ydl_opts E false VNone ;;
    let ydl_opts := Py.store "outtmpl" id_template opts in
    info <- invoke (CExtract ydl_opts link) (extract_info E ydl_opts link) ;;
    path <- invoke (CPrepare ydl_opts info) (prepare_filename E ydl_opts info) ;;
    present <- path_exists path ;;
    (if negb present then ydl_download E ydl_opts link else ret tt) ;;;
    ret (PathFlag path true)
  else
    opts <- _get_ydl_opts E true VNone ;;
    let ydl_opts := Py.store "outtmpl" id_template opts in
    info <- invoke (CExtract ydl_opts link) (extract_info E ydl_opts link) ;;
    path <- invoke (CPrepare ydl_opts info) (prepare_filename E ydl_opts info) ;;
    let mp3_path := PyString.splitext_root path ++ ".mp3" in
    present <- path_exists mp3_path ;;
    (if negb present then
       ydl_download E ydl_opts link ;;;
       raw <- path_exists path ;;
       if raw && negb (PyString.endswith path ".mp3")
       then os_rename E path mp3_path
       else ret tt
     else ret tt) ;;;
    ret (PathFlag mp3_path true).

(** [download]; [mystic] is accepted and never used. *)
Definition download (E : env) (link : string)
  (mystic video videoid songaudio songvideo format_id title : value)
  : M download_result :=
  try_except
    (download_body E link video videoid songaudio songvideo format_id title)
    (fun e =>
       log Error ("Download error: " ++ exn_msg e) ;;;
       raise (mkExn PlainException ("Download failed: " ++ exn_msg e))).

(* ================================================================== *)
(** ** Regular expressions and [exists] *)

(** The fragment of [re] that [url_regex] is written in. [Sym p] matches
    one character satisfying [p]. *)
Inductive regex : Type :=
| Nul
| Eps
| Sym (p : ascii -> bool)
| Cat (r s : regex)
| Alt (r s : regex)
| Star (r : regex).

Definition Opt (r : regex) : regex := Alt r Eps.
Definition Plus (r : regex) : regex := Cat r (Star r).

Fixpoint Lit (s : string) : regex :=
  match s with
  | EmptyString => Eps
  | String c rest => Cat (Sym (Ascii.eqb c)) (Lit rest)
  end.

Fixpoint Rep (n : nat) (r : regex) : regex :=
  match n with
  | O => Eps
  | S k => Cat r (Rep k r)
  end.

(** [.] matches anything but a newline; [[^...]] anything not listed. *)
Definition Dot : regex := Sym (fun c => negb (Ascii.eqb c "010"%char)).
Definition NoneOf (s : string) : regex :=
  Sym (fun c => negb (PyString.mem_ascii c s)).

Fixpoint nullable (r : regex) : bool :=
  match r with
  | Nul => false
  | Eps => true
  | Sym _ => false
  | Cat r s => nullable r && nullable s
  | Alt r s => nullable r || nullable s
  | Star _ => true
  end.

Fixpoint deriv (c : ascii) (r : regex) : regex :=
  match r with
  | Nul => Nul
  | Eps => Nul
  | Sym p => if p c then Eps else Nul
  | Cat r s =>
      if nullable r then Alt (Cat (deriv c r) s) (deriv c s)
      else Cat (deriv c r) s
  | Alt r s => Alt (deriv c r) (deriv c s)
  | Star r => Cat (deriv c r) (Star r)
  end.

(** Some prefix of [l] is matched by [r]: [re.match]. *)
Fixpoint re_match (r : regex) (l : list ascii) : bool :=
  nullable r
  || match l with
     | [] => false
     | c :: rest => re_match (deriv c r) rest
     end.

(** Some substring of [l] is matched by [r]: [bool(re.search(r, l))]. *)
Fixpoint re_search (r : regex) (l : list ascii) : bool :=
  re_match r l
  || match l with
     | [] => false
     | _ :: rest => re_search r rest
     end.

(** [self.url_regex]:
    [(https?://)?(www\.)?(youtube\.com|youtu\.be)/(watch\?v=|embed/|v/|.+\?v=)?([^&=%\?]{11})] *)
Definition url_regex : regex :=
  Cat (Opt (Cat (Lit "http") (Cat (Opt (Lit "s")) (Lit "://"))))
 (Cat (Opt (Lit "www."))
 (Cat (Alt (Lit "youtube.com") (Lit "youtu.be"))
 (Cat (Lit "/")
 (Cat (Opt (Alt (Lit "watch?v=")
           (Alt (Lit "embed/")
           (Alt (Lit "v/")
                (Cat (Plus Dot) (Lit "?v="))))))
      (Rep 11 (NoneOf "&=%?")))))).

(** [exists] *)
Definition exists_ (link : string) (videoid : value) : M bool :=
  let link := if Py.truthy videoid then base_url ++ link else link in
  ret (re_search url_regex (list_ascii_of_string link)).

(* ================================================================== *)
(** ** Messages and [url] *)

(** [pyrogram.enums.MessageEntityType]: [url] tells [URL] and [TEXT_LINK]
    from every other kind. *)
Inductive entity_type : Type :=
| EntityUrl
| EntityTextLink
| EntityOther.

(** The attributes of a [MessageEntity] that [url] reads. *)
Record entity : Type := mkEntity {
  entity_kind : entity_type;
  entity_offset : Z;
  entity_length : Z;
  entity_url : option string
}.

(** The attributes of a [Message] that [url] reads. *)
#[warnings="-register-all"]
Inductive message : Type :=
| Message (text caption : option string)
          (entities caption_entities : option (list entity))
          (reply_to_message : option message).

(** [s[a:b]]: a negative index counts from the end, and both ends are
    clipped to the string. *)
Definition slice (s : string) (a b : Z) : string :=
  let n := Z.of_nat (String.length s) in
  let clip := fun i : Z =>
    if (i <? 0)%Z then Z.max 0 (i + n) else Z.min i n in
  let lo := clip a in
  let hi := clip b in
  if (lo <? hi)%Z
  then String.substring (Z.to_nat lo) (Z.to_nat (hi - lo)) s
  else EmptyString.

(** [msg.text or msg.caption or ""] *)
Definition message_text (text caption : option string) : string :=
  match text with
  | Some (String c s) => String c s
  | _ =>
      match caption with
      | Some (String c s) => String c s
      | _ => EmptyString
      end
  end.

(** [(msg.entities or []) + (msg.caption_entities or [])] *)
Definition message_entities (entities caption_entities : option (list entity))
  : list entity :=
  (match entities with Some l => l | None => [] end
   ++ match caption_entities with Some l => l | None => [] end)%list.

(** [self.url_regex.match(s)], as a truth value *)
Definition url_regex_match (s : string) : bool :=
  re_match url_regex (list_ascii_of_string s).

(** The body of the inner [try] for one entity: [Some u] when it reaches
    [return u], [None] when it falls through.  Matching the pattern
    against [None] raises [TypeError]. *)
Definition url_of_entity (text : string) (e : entity)
  : outcome (option string) :=
  match entity_kind e with
  | EntityUrl =>
      let url := slice text (entity_offset e)
                       (entity_offset e + entity_length e) in
      if url_regex_match url then Ret (Some url) else Ret None
  | EntityTextLink =>
      match entity_url e with
      | Some target =>
          if url_regex_match target then Ret (Some target) else Ret None
      | None =>
          Raise (mkExn TypeError
                       "expected string or bytes-like object, got 'NoneType'")
      end
  | EntityOther => Ret None
  end.

(** The loop over the entities of one message; [except Exception:
    continue] passes over an entity that raised. *)
Fixpoint url_in_entities (text : string) (es : list entity) : option string :=
  match es with
  | [] => None
  | e :: rest =>
      match url_of_entity text e with
      | Ret (Some u) => Some u
      | _ => url_in_entities text rest
      end
  end.

Definition url_in_message (msg : message) : option string :=
  match msg with
  | Message text caption entities caption_entities _ =>
      url_in_entities (message_text text caption)
                      (message_entities entities caption_entities)
  end.

(** The loop over [messages_to_check]. *)
Fixpoint url_in_messages (msgs : list message) : option string :=
  match msgs with
  | [] => None
  | msg :: rest =>
      match url_in_message msg with
      | Some u => Some u
      | None => url_in_messages rest
      end
  end.

Definition messages_to_check (msg : message) : list message :=
  match msg with
  | Message _ _ _ _ (Some reply) => [msg; reply]
  | Message _ _ _ _ None => [msg]
  end.

(** [url] *)
Definition url (msg : message) : M (option string) :=
  try_except
    (ret (url_in_messages (messages_to_check msg)))
    (fun e =>
       log Error ("URL extraction failed: " ++ exn_msg e) ;;;
       ret None).

(* ================================================================== *)
(** ** Vocabulary of the properties

    The definitions below are not translations of the source: they name
    what the specification talks about, so that the properties can be
    stated against the methods above. *)

(** [m], started in [w], ends with [o] in [w'] after adding the events
    [evs] (newest first) to the trace. *)
Definition runs {A} (m : M A) (w : world) (o : outcome A) (w' : world)
  (evs : list event) : Prop :=
  m w = (o, w') /\ trace w' = (evs ++ trace w)%list.

(** A VideoRef: a dictionary with exactly the six fields, in the order
    the source writes them. *)
Definition videoref_keys : list string :=
  [ "title"; "duration"; "duration_sec"; "thumbnail"; "id"; "url" ].

Definition populated (v : value) : Prop :=
  exists d, v = VDict d /\ map fst d = videoref_keys.

Definition is_object (v : value) : bool :=
  match v with
  | VDict _ => true
  | _ => false
  end.

Definition field (v : value) (k : string) (default : value) : value :=
  match v with
  | VDict d =>
      match Py.lookup k d with
      | Some x => x
      | None => default
      end
  | _ => default
  end.

(** *** Proxy mirrors *)

Definition spec_is_video (v : value) : bool :=
  is_object v && Py.eq_str (field v "type" VNone) "video".

(** The first entry of type video of a mirror's list; a list that holds
    something that is no JSON object before that entry is an erroneous
    answer. *)
Fixpoint spec_first_video (entries : list value) : option value :=
  match entries with
  | [] => None
  | v :: rest =>
      if spec_is_video v then Some v
      else if is_object v then spec_first_video rest
      else None
  end.

(** What a mirror yields for a query: its first video entry when it
    answers 200 with a JSON list, nothing when the request or the parse
    fails, the status is not 200 or no entry is usable. *)
Definition spec_mirror_result (E : env) (query base : string)
  : option value :=
  match http_get E (search_url base query) with
  | Ret (status, Ret (VList entries)) =>
      if (status =? 200)%Z then spec_first_video entries else None
  | _ => None
  end.

Definition spec_unusable (E : env) (query base : string) : bool :=
  match spec_mirror_result E query base with
  | Some _ => false
  | None => true
  end.

(** The VideoRef-shaped mapping of a mirror's entry; the thumbnail comes
    from the ID by the fixed template. *)
Definition spec_mirror_mapping (video : value) : value :=
  let id := field video "videoId" VNone in
  VDict [ ("id", id);
          ("title", field video "title" (VStr "Unknown Title"));
          ("duration", field video "lengthSeconds" (VInt 0));
          ("thumbnail",
           VStr ("https://i.ytimg.com/vi/" ++ Py.str id ++ "/hqdefault.jpg"));
          ("url", VStr (base_url ++ Py.str id)) ].

(** The mirrors tried, in order, and the entry of the first usable one. *)
Fixpoint spec_first_usable (E : env) (query : string) (bases : list string)
  : list string * option value :=
  match bases with
  | [] => ([], None)
  | base :: rest =>
      match spec_mirror_result E query base with
      | Some v => ([base], Some v)
      | None =>
          let (tried, found) := spec_first_usable E query rest in
          (base :: tried, found)
      end
  end.

(** The URLs requested over HTTP, oldest first. *)
Definition http_requests (evs : list event) : list string :=
  rev (flat_map (fun ev => match ev with
                           | Called (CHttpGet url) _ => [url]
                           | _ => []
                           end) evs).

(** *** The tiers of [details] *)

Definition primary_lookup (E : env) (link : string)
  : outcome (option (value * string)) :=
  obind (search_next E link) details_search_return.

Definition primary_fails (E : env) (link : string) : bool :=
  match primary_lookup E link with
  | Ret (Some _) => false
  | _ => true
  end.

Definition secondary_lookup (E : env) (opts : dict) (link : string)
  : outcome (value * string) :=
  obind (extract_info E opts link) details_extract_return.


(** The VideoRef [details] makes of a mirror's entry. *)
Definition spec_fallback_videoref (video : value) : value :=
  let m := spec_mirror_mapping video in
  VDict [ ("title", field m "title" VNone);
          ("duration", field m "duration" VNone);
          ("duration_sec", field m "duration" VNone);
          ("thumbnail", field m "thumbnail" VNone);
          ("id", field m "id" VNone);
          ("url", field m "url" VNone) ].

(** What the [except] clauses of the second tier answer: the mirrors are
    asked only about an extractor error that mentions a sign-in. *)
Definition extract_failed_answer (E : env) (link : string) (e : exn)
  : value * string :=
  if is_extractor_error e then
    match
      (if PyString.contains "Sign in" (exn_msg e)
       then snd (spec_first_usable E link invidious_instances)
       else None)
    with
    | Some video => (spec_fallback_videoref video, EmptyString)
    | None => (VNone, "Extraction failed: " ++ exn_msg e)
    end
  else (VNone, "Error: " ++ exn_msg e).

(** What [details] answers for the normalized link [link] when the
    extractor is run with the options [opts]: the answer of the first tier
    that has one. *)
Definition details_answer (E : env) (opts : dict) (link : string)
  : value * string :=
  match primary_lookup E link with
  | Ret (Some r) => r
  | _ =>
      match secondary_lookup E opts link with
      | Ret r => r
      | Raise e => extract_failed_answer E link e
      end
  end.


(** *** Resolver calls and their target *)

(** [ev] is no call to a resolver, or it is one made for the link [l]. *)
Definition targets (l : string) (ev : event) : bool :=
  match ev with
  | Called (CSearch q) _ => String.eqb q l
  | Called (CExtract _ l') _ => String.eqb l' l
  | Called (CDownload _ l') _ => String.eqb l' l
  | Called (CHttpGet u) _ =>
      existsb (fun b => String.eqb u (search_url b l)) invidious_instances
  | Called (CJson u) _ =>
      existsb (fun b => String.eqb u (search_url b l)) invidious_instances
  | _ => true
  end.

(** [prefix + id] cut at its first [&]. *)
Definition canonical (prefix id : string) : string :=
  PyString.split_head "&"%char (prefix ++ id).

(** The claim that all four operations prefix a bare ID with
    [base_url]. *)
Definition videoid_base_url_claim : Prop :=
  forall (E : env) (id : string) (videoid : value) (limit user_id : Z)
         (mystic video_flag songaudio songvideo format_id title : value)
         (w : world),
    Py.truthy videoid = true ->
    (forall o w' evs,
        runs (details E id videoid) w o w' evs ->
        forallb (targets (canonical base_url id)) evs = true)
    /\ (forall o w' evs,
        runs (video E id videoid) w o w' evs ->
        forallb (targets (canonical base_url id)) evs = true)
    /\ (forall o w' evs,
        runs (playlist E id limit user_id videoid) w o w' evs ->
        forallb (targets (canonical base_url id)) evs = true)
    /\ (forall o w' evs,
        runs (download E id mystic video_flag videoid songaudio songvideo
                       format_id title) w o w' evs ->
        forallb (targets (canonical base_url id)) evs = true).

(** *** Downloads *)

Definition is_download (ev : event) : bool :=
  match ev with
  | Called (CDownload _ _) _ => true
  | _ => false
  end.

Definition on_disk (path : string) (w : world) : bool :=
  existsb (String.eqb path) (files w).

(** The path [download] is expected to return in each mode, given the
    file name the extractor prepares in the two modes that ask for it. *)
Definition expected_path (video songaudio songvideo title : value)
  (prepared : string) : string :=
  if Py.truthy songvideo then "downloads/" ++ Py.str title ++ ".mp4"
  else if Py.truthy songaudio then "downloads/" ++ Py.str title ++ ".mp3"
  else if Py.truthy video then prepared
  else PyString.splitext_root prepared ++ ".mp3".

(** The claim that no mode downloads what is already on disk. *)
Definition download_cache_claim : Prop :=
  forall (E : env) (link : string)
         (mystic video_flag videoid songaudio songvideo format_id title : value)
         (w : world) (prepared : string),
    makedirs E "downloads" = Ret tt ->
    (forall opts info, prepare_filename E opts info = Ret prepared) ->
    (forall opts l, exists info, extract_info E opts l = Ret info) ->
    on_disk (expected_path video_flag songaudio songvideo title prepared) w
    = true ->
    exists r w' evs,
      runs (download E link mystic video_flag videoid songaudio songvideo
                     format_id title) w (Ret r) w' evs
      /\ result_path r
         = expected_path video_flag songaudio songvideo title prepared
      /\ existsb is_download evs = false.

(** *** Playlists *)

Definition has_id (entry : value) : bool :=
  Py.truthy (field entry "id" VNone).

(** The IDs of the entries that have one, in the order of the entries. *)
Definition spec_playlist_ids (entries : list value) : list value :=
  map (fun entry => field entry "id" VNone) (filter has_id entries).

(** The claim that [playlist] never returns more than [limit] IDs. *)
Definition playlist_limit_claim : Prop :=
  forall (E : env) (link : string) (limit user_id : Z) (videoid : value)
         (w : world),
    exists ids w',
      playlist E link limit user_id videoid w = (Ret ids, w')
      /\ (Z.of_nat (List.length ids) <= limit)%Z.

(** An event of the exchange with the mirror [base] about [query]. *)
Definition mirror_event (base query : string) (ev : event) : bool :=
  match ev with
  | Called (CHttpGet u) _ => String.eqb u (search_url base query)
  | Called (CJson u) _ => String.eqb u (search_url base query)
  | Logged Warning _ => true
  | _ => false
  end.

Definition is_sleep (ev : event) : bool :=
  match ev with
  | Called (CSleep _) None => true
  | _ => false
  end.

(* ================================================================== *)
(** ** Scenarios

    Concrete collaborators and worlds on which the methods are run. *)

Definition unavailable {A} (what : string) : outcome A :=
  Raise (mkExn OtherError what).

(** No collaborator answers; the directory can be made. *)
Definition offline : env :=
  mkEnv (fun _ => unavailable "search unavailable")
        (fun _ _ => unavailable "extractor unavailable")
        (fun _ _ => unavailable "download unavailable")
        (fun _ _ => unavailable "no file name")
        (fun _ => unavailable "connection refused")
        (fun _ => Ret tt)
        (fun _ _ => None)
        (fun _ => 0%N) (fun _ => 0) (fun _ => 0%N).

Definition with_search (f : string -> outcome value) (E : env) : env :=
  mkEnv f (extract_info E) (download_media E) (prepare_filename E)
        (http_get E) (makedirs E) (rename_error E) (random53 E)
        (choice_index E) (lag E).

Definition with_extractor (f : dict -> string -> outcome value) (E : env)
  : env :=
  mkEnv (search_next E) f (download_media E) (prepare_filename E)
        (http_get E) (makedirs E) (rename_error E) (random53 E)
        (choice_index E) (lag E).

Definition with_mirrors (f : string -> outcome (Z * outcome value)) (E : env)
  : env :=
  mkEnv (search_next E) (extract_info E) (download_media E)
        (prepare_filename E) f (makedirs E) (rename_error E) (random53 E)
        (choice_index E) (lag E).

Definition with_media (d : dict -> string -> outcome (list string))
  (p : dict -> value -> outcome string) (E : env) : env :=
  mkEnv (search_next E) (extract_info E) d p (http_get E) (makedirs E)
        (rename_error E) (random53 E) (choice_index E) (lag E).

Definition sample_id : string := "dQw4w9WgXcQ".

Definition sample_video_entry : value :=
  VDict [ ("type", VStr "video");
          ("videoId", VStr sample_id);
          ("title", VStr "Never Gonna Give You Up");
          ("lengthSeconds", VInt 213) ].

Definition sample_mirror_list : value :=
  VList [ VDict [ ("type", VStr "channel"); ("author", VStr "Rick Astley") ];
          sample_video_entry;
          VDict [ ("type", VStr "video"); ("videoId", VStr "other000000") ] ].

(** Only the second mirror of the list answers. *)
Definition second_mirror_only (url : string) : outcome (Z * outcome value) :=
  if String.prefix "https://inv.odyssey346.dev/" url
  then Ret (200%Z, Ret sample_mirror_list)
  else unavailable "connection refused".

(** The search fails, the extractor reports an age gate, one mirror
    answers. *)
Definition age_gated : env :=
  with_extractor
    (fun _ _ => Raise (mkExn ExtractorError
                         "Sign in to confirm your age"))
    (with_mirrors second_mirror_only offline).

(** The search fails, the extractor returns nothing, one mirror answers. *)
Definition no_info : env :=
  with_extractor (fun _ _ => Ret VNone)
    (with_mirrors second_mirror_only offline).

(** The search fails, the extractor reports that the video is gone, one
    mirror answers. *)
Definition video_unavailable : env :=
  with_extractor
    (fun _ _ => Raise (mkExn ExtractorError "Video unavailable"))
    (with_mirrors second_mirror_only offline).

Definition sample_search_answer : value :=
  VDict [ ("result",
           VList [ VDict [ ("type", VStr "video");
                           ("id", VStr sample_id);
                           ("title", VStr "Never Gonna Give You Up");
                           ("duration", VStr "3:33");
                           ("thumbnails",
                            VList [ VDict [ ("url",
                              VStr "https://i.ytimg.com/vi/dQw4w9WgXcQ/hq720.jpg?sqp=-oaymwEc") ] ]);
                           ("link",
                            VStr "https://www.youtube.com/watch?v=dQw4w9WgXcQ") ] ]) ].

(** The search finds the video, with its duration; nothing else answers. *)
Definition search_hit : env :=
  with_search (fun _ => Ret sample_search_answer) offline.

Definition sample_info : value :=
  VDict [ ("id", VStr sample_id);
          ("title", VStr "Never Gonna Give You Up");
          ("duration", VInt 213);
          ("ext", VStr "webm") ].

(** The extractor resolves the video and downloads it to the name made
    from its ID. *)
Definition media_library : env :=
  with_media
    (fun opts _ => Ret [Py.str (field (VDict opts) "outtmpl" VNone)])
    (fun _ _ => Ret "downloads/dQw4w9WgXcQ.webm")
    (with_extractor (fun _ _ => Ret sample_info) offline).

Definition sample_playlist : value :=
  VDict [ ("id", VStr "PL0123456789");
          ("entries",
           VList [ VDict [ ("id", VStr "aaaaaaaaaaa") ];
                   VDict [ ("title", VStr "[Deleted video]") ];
                   VDict [ ("id", VStr "ccccccccccc") ] ]) ].

Definition playlist_library : env :=
  with_extractor (fun _ _ => Ret sample_playlist) offline.

(** A new [YouTubeAPI], some time after the epoch, with the given files
    on disk. *)
Definition fresh (fs : list string) : world := initial_world 1000%Q fs.

(** *** Failures *)

(** [m] asks resolvers about [target] only, stops at the first call that
    fails and raises what that call raised; it raises for no other
    reason. *)
Definition fail_fast {A} (target : string) (m : M A) : Prop :=
  forall w, exists o w' evs,
    runs m w o w' evs
    /\ forallb (targets target) evs = true
    /\ (forall c e, In (Called c (Some e)) evs -> o = Raise e)
    /\ (forall e, o = Raise e -> exists c, In (Called c (Some e)) evs).

(** The exception [download] raises about the exception [e]. *)
Definition download_failed (e : exn) : exn :=
  mkExn PlainException ("Download failed: " ++ exn_msg e).

(** The claim that [download] raises on any failure: when it returns, the
    file it names is on disk. *)
Definition download_raises_claim : Prop :=
  forall (E : env) (link : string)
         (mystic video_flag videoid songaudio songvideo format_id title : value)
         (w : world) (r : download_result) (w' : world),
    download E link mystic video_flag videoid songaudio songvideo format_id
             title w = (Ret r, w') ->
    on_disk (result_path r) w' = true.

(** *** Links *)

(** The words of a regular expression. *)
Inductive matches : regex -> list ascii -> Prop :=
| matches_eps : matches Eps []
| matches_sym p c : p c = true -> matches (Sym p) [c]
| matches_cat r s a b :
    matches r a -> matches s b -> matches (Cat r s) (a ++ b)
| matches_alt_l r s a : matches r a -> matches (Alt r s) a
| matches_alt_r r s a : matches s a -> matches (Alt r s) a
| matches_star_nil r : matches (Star r) []
| matches_star_more r a b :
    matches r a -> matches (Star r) b -> matches (Star r) (a ++ b).

(** A character an ID may be made of. *)
Definition id_char (c : ascii) : bool := negb (PyString.mem_ascii c "&=%?").

Definition no_newline (c : ascii) : bool := negb (Ascii.eqb c "010"%char).

(** What may stand between the slash and the ID. *)
Definition spec_path_prefix (path : string) : Prop :=
  path = EmptyString \/ path = "watch?v=" \/ path = "embed/" \/ path = "v/"
  \/ exists x, x <> EmptyString
               /\ forallb no_newline (list_ascii_of_string x) = true
               /\ path = x ++ "?v=".

(** The canonical video URL pattern, spelled out: somewhere in the link
    there is one of the two hosts and a slash, then nothing or one of the
    watch, embed, shortlink or [...?v=] path prefixes, then eleven
    characters of an ID. *)
Definition spec_video_url (link : string) : Prop :=
  exists pre host path id post,
    link = pre ++ host ++ "/" ++ path ++ id ++ post
    /\ (host = "youtube.com" \/ host = "youtu.be")
    /\ spec_path_prefix path
    /\ String.length id = 11
    /\ forallb id_char (list_ascii_of_string id) = true.

(* ================================================================== *)
(** ** Vocabulary of further properties *)

(** *** Links in messages *)

(** The strings an entity offers: the slice of the text under a [URL]
    entity, the target of a [TEXT_LINK] entity that has one. *)
Definition entity_candidates (text : string) (e : entity) : list string :=
  match entity_kind e with
  | EntityUrl =>
      [slice text (entity_offset e) (entity_offset e + entity_length e)]
  | EntityTextLink =>
      match entity_url e with
      | Some target => [target]
      | None => []
      end
  | EntityOther => []
  end.

Definition message_candidates (msg : message) : list string :=
  match msg with
  | Message text caption entities caption_entities _ =>
      flat_map (entity_candidates (message_text text caption))
               (message_entities entities caption_entities)
  end.

(** The candidates of a message followed by those of the message it
    replies to. *)
Definition spec_url_candidates (msg : message) : list string :=
  flat_map message_candidates (messages_to_check msg).

(** *** The throttle, repeated *)

Fixpoint throttle_times (E : env) (n : nat) : M unit :=
  match n with
  | O => ret tt
  | S k => _rate_limit E ;;; throttle_times E k
  end.

(** *** What a run may do *)

Definition writes_files (ev : event) : bool :=
  match ev with
  | Called (CDownload _ _) _ | Called (CRename _ _) _ => true
  | _ => false
  end.

Definition is_disk_call (ev : event) : bool :=
  match ev with
  | Called (CMakedirs _) _ | Called (CDownload _ _) _
  | Called (CRename _ _) _ => true
  | _ => false
  end.

Definition is_throttle_sleep (ev : event) : bool :=
  match ev with
  | Called (CSleep _) _ => true
  | _ => false
  end.

Definition is_http (ev : event) : bool :=
  match ev with
  | Called (CHttpGet _) _ | Called (CJson _) _ => true
  | _ => false
  end.

Definition is_search (ev : event) : bool :=
  match ev with
  | Called (CSearch _) _ => true
  | _ => false
  end.

(** The events of a lookup: calls to the search index, the extractor's
    metadata call and the mirrors, and log lines. *)
Definition lookup_event (ev : event) : bool :=
  match ev with
  | Called (CSearch _) _ | Called (CExtract _ _) _
  | Called (CHttpGet _) _ | Called (CJson _) _ => true
  | Logged _ _ => true
  | _ => false
  end.

(** The events of a method that only asks the extractor. *)
Definition extractor_event (ev : event) : bool :=
  match ev with
  | Called (CExtract _ _) _ => true
  | Logged _ _ => true
  | _ => false
  end.

(** The events of a lookup that stays away from the mirrors. *)
Definition direct_event (ev : event) : bool :=
  match ev with
  | Called (CSearch _) _ | Called (CExtract _ _) _ => true
  | Logged _ _ => true
  | _ => false
  end.

(** The events of a download: the directory, the extractor and the file
    system, and log lines. *)
Definition media_event (ev : event) : bool :=
  match ev with
  | Called (CMakedirs _) _ | Called (CExtract _ _) _
  | Called (CPrepare _ _) _ | Called (CDownload _ _) _
  | Called (CRename _ _) _ => true
  | Logged _ _ => true
  | _ => false
  end.

(** Every event [m] adds satisfies [P]; [m] leaves the two fields of the
    rate limiter alone, and the files too unless it downloads or
    renames. *)
Definition emits {A} (P : event -> bool) (m : M A) : Prop :=
  forall w, exists o w' evs,
    runs m w o w' evs
    /\ forallb P evs = true
    /\ last_request w' = last_request w
    /\ request_delay w' = request_delay w
    /\ (existsb writes_files evs = false -> files w' = files w).

(** A message whose text is plain and which links, behind a word, to a
    video. *)
Definition sample_message : message :=
  Message (Some "check this out") None
          (Some [ mkEntity EntityOther 0 5 None;
                  mkEntity EntityTextLink 6 4
                           (Some "https://youtu.be/abcdefghijk") ])
          None None.

(** [op] throttles once, before anything else: the events it adds are at
    most one sleep, the oldest, and after it none; when [op] ends, the
    recorded start is at least [request_delay] after the one before, and
    [request_delay] has been drawn anew. *)
Definition throttles_once {A} (op : M A) : Prop :=
  forall w, exists o w' evs sleeps,
    runs op w o w' (evs ++ sleeps)%list
    /\ (sleeps = [] \/ exists d, sleeps = [Called (CSleep d) None])
    /\ existsb is_throttle_sleep evs = false
    /\ (last_request w + request_delay w <= last_request w')%Q
    /\ (3 # 2 <= request_delay w' <= 5 # 2)%Q.

(** *** More on the tiers of [details] *)

(** The extractor raised an extractor error that mentions a sign-in. *)
Definition sign_in_error (o : outcome value) : bool :=
  match o with
  | Raise e => is_extractor_error e && PyString.contains "Sign in" (exn_msg e)
  | Ret _ => false
  end.

(** A search answer without a duration, as for a stream that is live. *)
Definition sample_live_answer : value :=
  VDict [ ("result",
           VList [ VDict [ ("type", VStr "video");
                           ("id", VStr sample_id);
                           ("title", VStr "Never Gonna Give You Up (live)");
                           ("duration", VNone);
                           ("thumbnails",
                            VList [ VDict [ ("url",
                              VStr "https://i.ytimg.com/vi/dQw4w9WgXcQ/hq720.jpg?sqp=-oaymwEc") ] ]);
                           ("link",
                            VStr "https://www.youtube.com/watch?v=dQw4w9WgXcQ") ] ]) ].

(** The search finds the live video; nothing else answers. *)
Definition live_hit : env :=
  with_search (fun _ => Ret sample_live_answer) offline.

(** *** What a method returns *)

(** Whatever [m] returns satisfies [Q]. *)
Definition returns {A} (Q : A -> Prop) (m : M A) : Prop :=
  forall w a w', m w = (Ret a, w') -> Q a.

(** The shape of what [download] returns in each mode: a bare path under
    [downloads/] named after the title in the two snippet modes, a pair
    of a path and [True] in the other two, the path ending in [.mp3] in
    the default mode. *)
Definition mode_result (video songaudio songvideo title : value)
  (r : download_result) : Prop :=
  if Py.truthy songvideo then r = Path ("downloads/" ++ Py.str title ++ ".mp4")
  else if Py.truthy songaudio
  then r = Path ("downloads/" ++ Py.str title ++ ".mp3")
  else exists p,
      r = PathFlag p true
      /\ (Py.truthy video = false -> PyString.endswith p ".mp3" = true).

(** The extractor resolves the video and downloads it to the file name it
    prepared. *)
Definition raw_library : env :=
  with_media
    (fun _ _ => Ret ["downloads/dQw4w9WgXcQ.webm"])
    (fun _ _ => Ret "downloads/dQw4w9WgXcQ.webm")
    (with_extractor (fun _ _ => Ret sample_info) offline).

(** The extractor resolves the video; its download returns without
    having written a file. *)
Definition idle_library : env :=
  with_media
    (fun _ _ => Ret [])
    (fun _ _ => Ret "downloads/dQw4w9WgXcQ.webm")
    (with_extractor (fun _ _ => Ret sample_info) offline).

(** The directory [downloads] cannot be made. *)
Definition read_only_disk : env :=
  mkEnv (search_next media_library) (extract_info media_library)
        (download_media media_library) (prepare_filename media_library)
        (http_get media_library)
        (fun _ => Raise (mkExn OtherError "[Errno 30] Read-only file system: 'downloads'"))
        (rename_error media_library) (random53 media_library)
        (choice_index media_library) (lag media_library).

(* ================================================================== *)
(** * Properties *)

Example quote_example :
  PyString.quote "https://www.youtube.com/watch?v=a b"
  = "https%3A//www.youtube.com/watch%3Fv%3Da%20b".
Proof. reflexivity. Qed.

Example repr_example : PyString.repr "id" = "'id'".
Proof. reflexivity. Qed.

Example splitext_examples :
  PyString.splitext_root "downloads/abc.webm" = "downloads/abc"
  /\ PyString.splitext_root "downloads/.hidden" = "downloads/.hidden"
  /\ PyString.splitext_root "down.loads/abc" = "down.loads/abc"
  /\ PyString.splitext_root "a.b.c" = "a.b".
Proof. repeat split; reflexivity. Qed.

(* ------------------------------------------------------------------ *)
(** ** The rate limiter *)

Lemma microseconds_nonneg (n : N) : (0 <= microseconds n)%Q.
Proof. unfold microseconds, Qle; simpl. lia. Qed.

Lemma fraction53_range (k : N) : (0 <= fraction53 k < 1)%Q.
Proof.
  unfold fraction53.
  assert (H : (k mod 2 ^ 53 < 2 ^ 53)%N) by (apply N.mod_lt; discriminate).
  unfold Qle, Qlt; cbn [Qnum Qden].
  change (Z.pos (2 ^ 53)%positive) with (Z.of_N (2 ^ 53)%N).
  generalize dependent (k mod 2 ^ 53)%N. generalize (2 ^ 53)%N.
  intros p m H. lia.
Qed.

(** What one run of [_rate_limit] does to the world. *)
Lemma rate_limit_run (E : env) (w : world) :
  exists w1,
    _rate_limit E w = (Ret tt, w1)
    /\ (last_request w + request_delay w <= last_request w1)%Q
    /\ last_request w1 = clock w1
    /\ (clock w <= clock w1)%Q
    /\ (3 # 2 <= request_delay w1 <= 5 # 2)%Q
    /\ files w1 = files w
    /\ (trace w1 = trace w
        \/ exists d, (0 < d)%Q /\ trace w1 = Called (CSleep d) None :: trace w).
Proof.
  unfold _rate_limit, bind, time_time, advance, get_last_request,
    get_request_delay, sleep, record, bind, set_last_request,
    random_uniform, random_random, set_request_delay, ret, bind; simpl.
  pose proof (microseconds_nonneg (lag E (steps w))) as L0.
  destruct (Qlt_le_dec _ _) as [Hlt | Hge]; simpl.
  - eexists; split; [reflexivity|]; simpl.
    pose proof (microseconds_nonneg (lag E (S (steps w)))) as L1.
    pose proof (microseconds_nonneg (lag E (S (S (steps w))))) as L2.
    pose proof (fraction53_range (random53 E (S (S (S (steps w)))))) as R.
    repeat split; try lra.
    right. eexists; split; [|reflexivity]. lra.
  - eexists; split; [reflexivity|]; simpl.
    pose proof (microseconds_nonneg (lag E (S (steps w)))) as L1.
    pose proof (fraction53_range (random53 E (S (S (steps w))))) as R.
    repeat split; try lra.
    left; reflexivity.
Qed.




(* ------------------------------------------------------------------ *)
(** ** Running the monad *)

Lemma bind_ret {A B} (m : M A) (k : A -> M B) w a w1 :
  m w = (Ret a, w1) -> bind m k w = k a w1.
Proof. intros H; unfold bind; rewrite H; reflexivity. Qed.

Lemma bind_raise {A B} (m : M A) (k : A -> M B) w e w1 :
  m w = (Raise e, w1) -> bind m k w = (Raise e, w1).
Proof. intros H; unfold bind; rewrite H; reflexivity. Qed.

(** The throttle as the other methods see it: it returns, leaves the
    files alone and adds at most one sleep to the trace. *)
Lemma rate_limit_frame (E : env) (w : world) :
  exists w1 evs,
    runs (_rate_limit E) w (Ret tt) w1 evs
    /\ files w1 = files w
    /\ forallb is_sleep evs = true.
Proof.
  destruct (rate_limit_run E w) as (w1 & R & _ & _ & _ & _ & F & T).
  exists w1. destruct T as [T | (d & _ & T)].
  - exists []. repeat split; auto.
  - exists [Called (CSleep d) None]. repeat split; auto.
Qed.

(* ------------------------------------------------------------------ *)
(** ** The proxy fallback client *)

Lemma first_video_spec (l : list value) :
  match first_video l with
  | Ret v =>
      if Py.truthy v
      then spec_first_video l = Some v /\ is_object v = true
      else spec_first_video l = None
  | Raise _ => spec_first_video l = None
  end.
Proof.
  induction l as [|v rest IH]; simpl; [reflexivity|].
  destruct v as [| b | z | s | l' | d]; simpl; try reflexivity.
  unfold spec_is_video; simpl.
  destruct (Py.lookup "type" d) as [t|] eqn:Ht; simpl.
  - destruct (Py.eq_str t "video") eqn:Hv.
    + destruct d; [discriminate|]. simpl. auto.
    + exact IH.
  - exact IH.
Qed.

Lemma invidious_entry_spec (d : dict) :
  invidious_entry (VDict d) = Ret (spec_mirror_mapping (VDict d)).
Proof.
  unfold invidious_entry, spec_mirror_mapping, field; simpl.
  destruct (Py.lookup "videoId" d); destruct (Py.lookup "title" d);
    destruct (Py.lookup "lengthSeconds" d); reflexivity.
Qed.

(** One turn of the loop over the mirrors. *)
Lemma invidious_turn (E : env) (base query : string) (w : world) :
  exists w' evs,
    runs (try_except (invidious_attempt E base query)
            (fun e =>
               log Warning ("Invidious request failed on " ++ base ++ ": "
                            ++ exn_msg e) ;;;
               ret None))
         w
         (Ret (option_map spec_mirror_mapping
                 (spec_mirror_result E query base)))
         w' evs
    /\ files w' = files w
    /\ http_requests evs = [search_url base query]
    /\ forallb (mirror_event base query) evs = true.
Proof.
  unfold runs, try_except, invidious_attempt, spec_mirror_result, invoke,
    bind, record, lift, log, ret, http_requests.
  destruct (http_get E (search_url base query)) as [[status body]|e] eqn:G;
    cbn [fst snd failure_of trace files].
  2:{ eexists; exists [Logged Warning
        ("Invidious request failed on " ++ base ++ ": " ++ exn_msg e);
        Called (CHttpGet (search_url base query)) (Some e)].
      cbn. rewrite String.eqb_refl. auto. }
  destruct (status =? 200)%Z.
  2:{ eexists; exists [Called (CHttpGet (search_url base query)) None].
      cbn. rewrite String.eqb_refl.
      destruct body as [[]|]; auto. }
  destruct body as [results|e]; cbn [fst snd failure_of trace files].
  2:{ eexists; exists [Logged Warning
        ("Invidious request failed on " ++ base ++ ": " ++ exn_msg e);
        Called (CJson (search_url base query)) (Some e);
        Called (CHttpGet (search_url base query)) None].
      cbn. rewrite String.eqb_refl. auto. }
  destruct results as [| b | z | s | l | d];
    try (eexists; exists [Called (CJson (search_url base query)) None;
                          Called (CHttpGet (search_url base query)) None];
         cbn; rewrite String.eqb_refl, ?andb_false_r; auto; fail).
  destruct l as [|x l0].
  { eexists; exists [Called (CJson (search_url base query)) None;
                     Called (CHttpGet (search_url base query)) None].
    cbn. rewrite String.eqb_refl. auto. }
  cbn [Py.truthy Py.is_list andb Py.iterate].
  pose proof (first_video_spec (x :: l0)) as FV.
  destruct (first_video (x :: l0)) as [v|e] eqn:F.
  - destruct (Py.truthy v) eqn:Tv.
    + destruct FV as [FV Ov]. rewrite FV.
      destruct v; try discriminate.
      rewrite invidious_entry_spec.
      eexists; exists [Called (CJson (search_url base query)) None;
                       Called (CHttpGet (search_url base query)) None].
      cbn. rewrite String.eqb_refl. auto.
    + rewrite FV.
      eexists; exists [Called (CJson (search_url base query)) None;
                       Called (CHttpGet (search_url base query)) None].
      cbn. rewrite String.eqb_refl. auto.
  - rewrite FV.
    eexists; exists [Logged Warning
        ("Invidious request failed on " ++ base ++ ": " ++ exn_msg e);
        Called (CJson (search_url base query)) None;
        Called (CHttpGet (search_url base query)) None].
    cbn. rewrite String.eqb_refl. auto.
Qed.

Lemma http_requests_app (later earlier : list event) :
  http_requests (later ++ earlier)%list
  = (http_requests earlier ++ http_requests later)%list.
Proof. unfold http_requests. rewrite flat_map_app, rev_app_distr. reflexivity. Qed.

Lemma forallb_weaken {A} (p q : A -> bool) (l : list A) :
  (forall x, p x = true -> q x = true) ->
  forallb p l = true -> forallb q l = true.
Proof.
  intros H. induction l as [|x l IH]; simpl; [reflexivity|].
  intros Hl. apply andb_true_iff in Hl as [Hx Hl].
  rewrite (H _ Hx), (IH Hl). reflexivity.
Qed.

(** The whole loop: the mirrors are asked in order up to the first usable
    one, whose first video entry is mapped and returned. *)
Lemma invidious_loop_run (E : env) (query : string) (bases : list string) :
  forall w, exists w' evs,
    runs (invidious_loop E bases query) w
         (Ret match snd (spec_first_usable E query bases) with
              | Some v => spec_mirror_mapping v
              | None => VNone
              end)
         w' evs
    /\ files w' = files w
    /\ http_requests evs
       = map (fun b => search_url b query)
             (fst (spec_first_usable E query bases))
    /\ forallb (fun ev => existsb (fun b => mirror_event b query ev) bases)
               evs = true.
Proof.
  induction bases as [|base rest IH]; intros w.
  - exists w, []. repeat split.
  - destruct (invidious_turn E base query w)
      as (w1 & evs1 & [R1 T1] & F1 & H1 & M1).
    cbn [invidious_loop spec_first_usable].
    destruct (spec_mirror_result E query base) as [v|] eqn:Res;
      cbn [option_map] in R1.
    + exists w1, evs1. unfold runs.
      rewrite (bind_ret _ _ _ _ _ R1). cbn.
      repeat split; auto.
      eapply forallb_weaken; [|exact M1].
      intros ev Hev; cbn. rewrite Hev. reflexivity.
    + destruct (IH w1) as (w2 & evs2 & [R2 T2] & F2 & H2 & M2).
      exists w2, (evs2 ++ evs1)%list. unfold runs.
      rewrite (bind_ret _ _ _ _ _ R1).
      destruct (spec_first_usable E query rest) as [tried found].
      cbn [fst snd] in *.
      repeat split.
      * exact R2.
      * rewrite T2, T1, app_assoc. reflexivity.
      * congruence.
      * rewrite http_requests_app, H1, H2. reflexivity.
      * rewrite forallb_app. apply andb_true_iff. split.
        -- eapply forallb_weaken; [|exact M2].
           intros ev Hev; cbn. rewrite Hev. apply orb_true_r.
        -- eapply forallb_weaken; [|exact M1].
           intros ev Hev; cbn. rewrite Hev. reflexivity.
Qed.

Lemma spec_first_usable_split (E : env) (query : string)
  (before : list string) (base : string) (after : list string) (v : value) :
  forallb (spec_unusable E query) before = true ->
  spec_mirror_result E query base = Some v ->
  spec_first_usable E query (before ++ base :: after)
  = ((before ++ [base])%list, Some v).
Proof.
  intros Hb Hv. induction before as [|b before IH]; cbn.
  - rewrite Hv. reflexivity.
  - cbn in Hb. apply andb_true_iff in Hb as [Hb0 Hb].
    unfold spec_unusable in Hb0.
    destruct (spec_mirror_result E query b); [discriminate|].
    rewrite (IH Hb). reflexivity.
Qed.

Lemma spec_first_usable_none (E : env) (query : string) (bases : list string) :
  forallb (spec_unusable E query) bases = true ->
  spec_first_usable E query bases = (bases, None).
Proof.
  induction bases as [|b bases IH]; cbn; [reflexivity|].
  intros Hb. apply andb_true_iff in Hb as [Hb0 Hb].
  unfold spec_unusable in Hb0.
  destruct (spec_mirror_result E query b); [discriminate|].
  rewrite (IH Hb). reflexivity.
Qed.

(** C7. The proxy fallback client asks the mirrors of the fixed list in
    their order and returns the VideoRef-shaped mapping (thumbnail made
    from the ID by the fixed template) of the first video entry of the
    first mirror that yields one; mirrors that fail, answer another status
    or have no usable entry are passed over, and when none is usable all
    of them have been asked and the answer is [None]. *)
Theorem invidious_first_usable_mirror (E : env) (query : string) (w : world) :
  (forall before base after video,
      invidious_instances = (before ++ base :: after)%list ->
      forallb (spec_unusable E query) before = true ->
      spec_mirror_result E query base = Some video ->
      exists w' evs,
        runs (_get_from_invidious E query) w
             (Ret (spec_mirror_mapping video)) w' evs
        /\ http_requests evs
           = map (fun b => search_url b query) (before ++ [base])%list)
  /\ (forallb (spec_unusable E query) invidious_instances = true ->
      exists w' evs,
        runs (_get_from_invidious E query) w (Ret VNone) w' evs
        /\ http_requests evs
           = map (fun b => search_url b query) invidious_instances).
Proof.
  unfold _get_from_invidious.
  destruct (invidious_loop_run E query invidious_instances w)
    as (w' & evs & R & _ & H & _).
  split.
  - intros before base after video Hsplit Hbefore Hbase.
    rewrite Hsplit in R, H.
    rewrite (spec_first_usable_split E query _ _ _ _ Hbefore Hbase) in R, H.
    exists w', evs. rewrite Hsplit. split; assumption.
  - intros Hall.
    rewrite (spec_first_usable_none E query _ Hall) in R, H.
    exists w', evs. split; assumption.
Qed.

(* ------------------------------------------------------------------ *)
(** ** [details] *)

Lemma ydl_opts_run (E : env) (audio_only : bool) (format_id : value) (w : world) :
  exists opts w',
    _get_ydl_opts E audio_only format_id w = (Ret opts, w')
    /\ trace w' = trace w /\ files w' = files w.
Proof.
  unfold _get_ydl_opts, bind, random_choice, ret.
  destruct (Py.truthy format_id); [|destruct audio_only];
    eexists; eexists; (split; [reflexivity|split; reflexivity]).
Qed.

Lemma sleeps_target (l : string) (evs : list event) :
  forallb is_sleep evs = true -> forallb (targets l) evs = true.
Proof.
  apply forallb_weaken. intros [[]|]; simpl; try discriminate; auto.
Qed.

Lemma mirror_events_target (l : string) (evs : list event) :
  forallb (fun ev => existsb (fun b => mirror_event b l ev)
                             invidious_instances) evs = true ->
  forallb (targets l) evs = true.
Proof.
  apply forallb_weaken. intros [[]|[]]; simpl; try discriminate; auto.
Qed.

(** The first tier and its handler. *)
Lemma search_tier_run (E : env) (link : string) (w : world) :
  exists w' evs,
    runs (try_except (details_search E link)
            (fun e =>
               log Warning ("VideosSearch failed: " ++ exn_msg e) ;;;
               ret None))
         w
         (Ret match primary_lookup E link with
              | Ret r => r
              | Raise _ => None
              end)
         w' evs
    /\ files w' = files w
    /\ forallb (targets link) evs = true.
Proof.
  unfold runs, try_except, details_search, primary_lookup, invoke, bind,
    record, lift, log, ret.
  destruct (search_next E link) as [answer|e];
    cbn [fst snd failure_of trace files obind].
  - destruct (details_search_return answer) as [r|e].
    + eexists; exists [Called (CSearch link) None].
      cbn. rewrite String.eqb_refl. auto.
    + eexists; exists [Logged Warning ("VideosSearch failed: " ++ exn_msg e);
                       Called (CSearch link) None].
      cbn. rewrite String.eqb_refl. auto.
  - eexists; exists [Logged Warning ("VideosSearch failed: " ++ exn_msg e);
                     Called (CSearch link) (Some e)].
    cbn. rewrite String.eqb_refl. auto.
Qed.

(** The [except] clauses of the second tier. *)
Lemma extract_failed_run (E : env) (link : string) (e : exn) (w : world) :
  exists w' evs,
    runs (details_extract_failed E link e) w
         (Ret (extract_failed_answer E link e)) w' evs
    /\ files w' = files w
    /\ forallb (targets link) evs = true.
Proof.
  unfold details_extract_failed, extract_failed_answer.
  destruct (is_extractor_error e).
  2:{ eexists; exists [Logged Error ("Error getting details: " ++ exn_msg e)].
      repeat split. }
  destruct (PyString.contains "Sign in" (exn_msg e)).
  2:{ eexists; exists [Logged Error ("Extractor error: " ++ exn_msg e)].
      repeat split. }
  unfold _get_from_invidious.
  destruct (invidious_loop_run E link invidious_instances w)
    as (w1 & evs1 & [R1 T1] & F1 & _ & M1).
  apply mirror_events_target in M1.
  destruct (snd (spec_first_usable E link invidious_instances)) as [video|].
  - exists w1, evs1. unfold runs.
    rewrite (bind_ret _ _ _ _ _ (bind_ret _ _ _ _ _ R1)).
    repeat split; auto.
  - eexists; exists (Logged Error ("Extractor error: " ++ exn_msg e) :: evs1).
    unfold runs.
    rewrite (bind_ret _ _ _ _ _ (bind_ret _ _ _ _ _ R1)).
    cbn. rewrite T1. repeat split; auto.
Qed.

(** The second tier and its handlers. *)
Lemma extract_tier_run (E : env) (link : string) (w : world) :
  exists opts w' evs,
    runs (try_except (details_extract E link) (details_extract_failed E link))
         w
         (Ret match secondary_lookup E opts link with
              | Ret r => r
              | Raise e => extract_failed_answer E link e
              end)
         w' evs
    /\ files w' = files w
    /\ forallb (targets link) evs = true.
Proof.
  destruct (ydl_opts_run E true VNone w) as (opts & w1 & R1 & T1 & F1).
  exists opts.
  unfold details_extract, secondary_lookup.
  destruct (extract_info E opts link) as [info|e] eqn:X; cbn [obind].
  - destruct (details_extract_return info) as [r|e] eqn:D.
    + eexists; exists [Called (CExtract opts link) None].
      unfold runs, try_except. rewrite (bind_ret _ _ _ _ _ R1).
      unfold invoke, bind, record, lift. rewrite X, D. cbn.
      rewrite T1, F1, String.eqb_refl. auto.
    + pose (w2 := mkWorld (last_request w1) (request_delay w1) (clock w1)
                    (steps w1) (files w1)
                    (Called (CExtract opts link) None :: trace w1)).
      destruct (extract_failed_run E link e w2)
        as (w3 & evs3 & [R3 T3] & F3 & M3).
      exists w3, (evs3 ++ [Called (CExtract opts link) None])%list.
      unfold runs, try_except. rewrite (bind_ret _ _ _ _ _ R1).
      unfold invoke, bind, record, lift. rewrite X, D. cbn.
      fold w2. rewrite R3, T3, F3. subst w2. cbn. rewrite T1, F1.
      rewrite <- app_assoc. repeat split.
      rewrite forallb_app, M3. cbn. rewrite String.eqb_refl. reflexivity.
  - pose (w2 := mkWorld (last_request w1) (request_delay w1) (clock w1)
                  (steps w1) (files w1)
                  (Called (CExtract opts link) (Some e) :: trace w1)).
    destruct (extract_failed_run E link e w2)
      as (w3 & evs3 & [R3 T3] & F3 & M3).
    exists w3, (evs3 ++ [Called (CExtract opts link) (Some e)])%list.
    unfold runs, try_except. rewrite (bind_ret _ _ _ _ _ R1).
    unfold invoke, bind, record, lift. rewrite X. cbn.
    fold w2. rewrite R3, T3, F3. subst w2. cbn. rewrite T1, F1.
    rewrite <- app_assoc. repeat split.
    rewrite forallb_app, M3. cbn. rewrite String.eqb_refl. reflexivity.
Qed.

(** [details] always returns: its answer is that of the first tier that
    has one, and every resolver it contacts is asked about the normalized
    link. *)
Lemma details_run (E : env) (link : string) (videoid : value) (w : world) :
  exists opts w' evs,
    runs (details E link videoid) w
         (Ret (details_answer E opts (normalize base_url link videoid)))
         w' evs
    /\ files w' = files w
    /\ forallb (targets (normalize base_url link videoid)) evs = true.
Proof.
  set (target := normalize base_url link videoid).
  destruct (rate_limit_frame E w) as (w1 & evs1 & [R1 T1] & F1 & S1).
  apply (sleeps_target target) in S1.
  destruct (search_tier_run E target w1) as (w2 & evs2 & [R2 T2] & F2 & M2).
  unfold details, details_answer. fold target.
  destruct (primary_lookup E target) as [[r|]|e] eqn:P.
  - exists [], w2, (evs2 ++ evs1)%list. unfold runs, try_except.
    rewrite (bind_ret _ _ _ _ _ R1), (bind_ret _ _ _ _ _ R2).
    cbn. rewrite T2, T1, F2, F1, app_assoc, forallb_app, M2, S1. auto.
  - destruct (extract_tier_run E target w2)
      as (opts & w3 & evs3 & [R3 T3] & F3 & M3).
    exists opts, w3, (evs3 ++ evs2 ++ evs1)%list. unfold runs, try_except.
    rewrite (bind_ret _ _ _ _ _ R1), (bind_ret _ _ _ _ _ R2).
    unfold try_except in R3. rewrite R3.
    rewrite T3, T2, T1, F3, F2, F1, !app_assoc, !forallb_app, M3, M2, S1.
    auto.
  - destruct (extract_tier_run E target w2)
      as (opts & w3 & evs3 & [R3 T3] & F3 & M3).
    exists opts, w3, (evs3 ++ evs2 ++ evs1)%list. unfold runs, try_except.
    rewrite (bind_ret _ _ _ _ _ R1), (bind_ret _ _ _ _ _ R2).
    unfold try_except in R3. rewrite R3.
    rewrite T3, T2, T1, F3, F2, F1, !app_assoc, !forallb_app, M3, M2, S1.
    auto.
Qed.

(** The pure parts of the two tiers build VideoRefs. *)
Lemma details_search_return_shape (answer : value) (r : value * string) :
  details_search_return answer = Ret (Some r) ->
  populated (fst r) /\ snd r = EmptyString.
Proof.
  unfold details_search_return, obind.
  repeat match goal with
         | |- context [match ?o with Ret _ => _ | Raise _ => _ end] =>
             destruct o; try discriminate
         | |- context [match ?l with [] => _ | _ :: _ => _ end] =>
             destruct l; try discriminate
         end.
  intros H; injection H as <-. split; [|reflexivity].
  eexists; split; reflexivity.
Qed.

Lemma details_extract_return_shape (info : value) (r : value * string) :
  details_extract_return info = Ret r ->
  populated (fst r) /\ snd r = EmptyString.
Proof.
  unfold details_extract_return, obind.
  repeat match goal with
         | |- context [match ?o with Ret _ => _ | Raise _ => _ end] =>
             destruct o; try discriminate
         end.
  intros H; injection H as <-. split; [|reflexivity].
  eexists; split; reflexivity.
Qed.

Lemma extract_failed_answer_shape (E : env) (link : string) (e : exn) :
  let r := extract_failed_answer E link e in
  (populated (fst r) /\ snd r = EmptyString)
  \/ (fst r = VNone /\ snd r <> EmptyString).
Proof.
  unfold extract_failed_answer.
  destruct (is_extractor_error e); [|right; split; [reflexivity|discriminate]].
  destruct (if PyString.contains "Sign in" (exn_msg e) then _ else _).
  - left. split; [|reflexivity]. eexists; split; reflexivity.
  - right; split; [reflexivity|discriminate].
Qed.

Lemma details_answer_shape (E : env) (opts : dict) (link : string) :
  let r := details_answer E opts link in
  (populated (fst r) /\ snd r = EmptyString)
  \/ (fst r = VNone /\ snd r <> EmptyString).
Proof.
  unfold details_answer, primary_lookup, secondary_lookup.
  assert (S : forall r',
             match obind (extract_info E opts link) details_extract_return with
             | Ret r => r
             | Raise e => extract_failed_answer E link e
             end = r' ->
             (populated (fst r') /\ snd r' = EmptyString)
             \/ (fst r' = VNone /\ snd r' <> EmptyString)).
  { intros r' <-.
    destruct (extract_info E opts link) as [info|e]; cbn [obind].
    - destruct (details_extract_return info) as [r|e] eqn:D.
      + left. exact (details_extract_return_shape _ _ D).
      + apply extract_failed_answer_shape.
    - apply extract_failed_answer_shape. }
  destruct (search_next E link) as [answer|e]; cbn [obind].
  - destruct (details_search_return answer) as [[r|]|e] eqn:D.
    + left. exact (details_search_return_shape _ _ D).
    + eapply S; reflexivity.
    + eapply S; reflexivity.
  - eapply S; reflexivity.
Qed.

(** C2. Whatever the link and the flag, [details] returns a pair that is
    either a populated VideoRef with the empty error string, or [None]
    with a non-empty message. *)
Theorem details_result_exclusive (E : env) (link : string) (videoid : value)
  (w : world) :
  exists (r : value) (msg : string) (w' : world),
    details E link videoid w = (Ret (r, msg), w')
    /\ ((populated r /\ msg = EmptyString)
        \/ (r = VNone /\ msg <> EmptyString))
    /\ ~ (populated r /\ msg <> EmptyString)
    /\ ~ (r = VNone /\ msg = EmptyString).
Proof.
  destruct (details_run E link videoid w) as (opts & w' & evs & [R _] & _).
  pose proof (details_answer_shape E opts (normalize base_url link videoid)) as S.
  destruct (details_answer E opts (normalize base_url link videoid)) as [r msg].
  cbn in S. exists r, msg, w'. split; [exact R|]. split; [exact S|].
  destruct S as [[P M] | [N M]]; split; intros [A B]; try contradiction.
  - subst r. destruct P as (d & Hd & _). discriminate.
  - subst r. destruct A as (d & Hd & _). discriminate.
Qed.




(** What [details] returns there. *)
Example details_video_unavailable :
  fst (details video_unavailable sample_id (VBool true) (fresh []))
  = Ret (VNone, "Extraction failed: Video unavailable").
Proof. vm_compute. reflexivity. Qed.

(** An extractor that returns no info is a failure of the second tier
    that never reaches the mirrors. *)
Example details_no_info :
  fst (details no_info sample_id (VBool true) (fresh []))
  = Ret (VNone, "Error: No info returned").
Proof. vm_compute. reflexivity. Qed.

Lemma invidious_first_usable_mirror_witness :
  (exists w' evs,
      runs (_get_from_invidious age_gated "never gonna") (fresh [])
           (Ret (spec_mirror_mapping sample_video_entry)) w' evs
      /\ http_requests evs
         = [ "https://yewtu.be/api/v1/search?q=never%20gonna";
             "https://inv.odyssey346.dev/api/v1/search?q=never%20gonna" ])
  /\ (exists w' evs,
      runs (_get_from_invidious offline "never gonna") (fresh [])
           (Ret VNone) w' evs
      /\ http_requests evs
         = map (fun b => search_url b "never gonna") invidious_instances).
Proof.
  split.
  - apply (proj1 (invidious_first_usable_mirror age_gated "never gonna"
                    (fresh []))
             ["https://yewtu.be"] "https://inv.odyssey346.dev"
             ["https://invidious.flokinet.to"; "https://vid.puffyan.us";
              "https://inv.tux.pizza"] sample_video_entry);
      reflexivity.
  - apply (proj2 (invidious_first_usable_mirror offline "never gonna"
                    (fresh []))).
    reflexivity.
Defined.

(** The entry a mirror is taken to yield is the first one of type video,
    everything before it being an object of another type. *)
Lemma spec_first_video_some (entries : list value) (v : value) :
  spec_first_video entries = Some v <->
  exists before after,
    entries = (before ++ v :: after)%list
    /\ forallb (fun x => is_object x && negb (spec_is_video x)) before = true
    /\ spec_is_video v = true.
Proof.
  split.
  - induction entries as [|x rest IH]; simpl; [discriminate|].
    destruct (spec_is_video x) eqn:V.
    + intros H; injection H as <-. exists [], rest. auto.
    + destruct (is_object x) eqn:O; [|discriminate].
      intros H. destruct (IH H) as (before & after & -> & B & Hv).
      exists (x :: before), after. simpl. rewrite O, V, B. auto.
  - intros (before & after & -> & B & Hv).
    induction before as [|x before IH]; simpl.
    + rewrite Hv. reflexivity.
    + simpl in B. apply andb_true_iff in B as [Bx B].
      apply andb_true_iff in Bx as [O V]. apply negb_true_iff in V.
      rewrite V, O. exact (IH B).
Qed.

(* ------------------------------------------------------------------ *)
(** ** The duration of a search result *)

Lemma time_to_seconds_unbound : ~ In "time_to_seconds" module_globals.
Proof.
  unfold module_globals. simpl.
  intros H. repeat (destruct H as [H | H]; [discriminate H|]). exact H.
Qed.

(** A search result whose duration is anything but [None] makes the first
    tier raise [NameError], whatever else it holds. *)
Lemma primary_lookup_with_duration (E : env) (link : string)
  (answer results result : value) (rest : list value)
  (duration title : value) :
  search_next E link = Ret answer ->
  Py.item answer "result" = Ret results ->
  Py.iterate results = Ret (result :: rest) ->
  Py.item result "duration" = Ret duration ->
  Py.item result "title" = Ret title ->
  Py.str duration <> "None" ->
  primary_lookup E link
  = Raise (mkExn NameError "name 'time_to_seconds' is not defined").
Proof.
  intros S R I D T N.
  unfold primary_lookup, details_search_return. rewrite S. cbn [obind].
  rewrite R. cbn [obind]. rewrite I. cbn [obind].
  rewrite D. cbn [obind]. rewrite T. cbn [obind].
  apply String.eqb_neq in N. rewrite N. reflexivity.
Qed.

(** Whenever the first tier does return a VideoRef, the duration it
    found prints as [None] and [duration_sec] is 0. *)
Lemma primary_lookup_duration_sec (answer : value) (r : value * string) :
  details_search_return answer = Ret (Some r) ->
  field (fst r) "duration_sec" VNone = VInt 0
  /\ Py.str (field (fst r) "duration" VNone) = "None".
Proof.
  unfold details_search_return, obind.
  destruct (Py.item answer "result") as [results|]; [|discriminate].
  destruct (Py.iterate results) as [[|result rest]|]; try discriminate.
  destruct (Py.item result "duration") as [duration|]; [|discriminate].
  destruct (Py.item result "title") as [title|]; [|discriminate].
  destruct (String.eqb (Py.str duration) "None") eqn:N.
  - apply String.eqb_eq in N.
    repeat match goal with
           | |- context [match ?o with Ret _ => _ | Raise _ => _ end] =>
               destruct o; try discriminate
           end.
    intros H; injection H as <-. split; [reflexivity | exact N].
  - discriminate.
Qed.

(** C4. A search result with the duration "3:33": the first tier raises
    [NameError] instead of answering with [duration_sec] 213, the failure
    is logged as a failed search, and [details] goes on to the extractor,
    whose failure is what the caller gets. *)
Theorem details_search_duration_unparsed :
  primary_lookup search_hit (normalize base_url sample_id (VBool true))
  = Raise (mkExn NameError "name 'time_to_seconds' is not defined")
  /\ fst (details search_hit sample_id (VBool true) (fresh []))
     = Ret (VNone, "Error: extractor unavailable")
  /\ In (Logged Warning
           "VideosSearch failed: name 'time_to_seconds' is not defined")
        (trace (snd (details search_hit sample_id (VBool true) (fresh [])))).
Proof.
  split; [reflexivity|]. split; [vm_compute; reflexivity|].
  vm_compute. auto.
Qed.

(* ------------------------------------------------------------------ *)
(** ** [video] and [playlist] *)

(** A method that throttles, calls the extractor once on the normalized
    link and turns any exception into a value. *)
Lemma extractor_call_run {A} (E : env) (opts : dict) (target : string)
  (after : value -> outcome A) (w : world) :
  exists w' evs,
    runs (info <- invoke (CExtract opts target) (extract_info E opts target) ;;
          lift (after info))
         w (obind (extract_info E opts target) after) w' evs
    /\ files w' = files w
    /\ evs = [Called (CExtract opts target)
                     (failure_of (extract_info E opts target))].
Proof.
  unfold runs, invoke, bind, record, lift.
  destruct (extract_info E opts target) as [info|e]; cbn.
  - destruct (after info); eexists;
      exists [Called (CExtract opts target) None]; repeat split.
  - eexists; exists [Called (CExtract opts target) (Some e)]; repeat split.
Qed.

Lemma video_run (E : env) (link : string) (videoid : value) (w : world) :
  exists opts w' evs,
    runs (video E link videoid) w
         (Ret match obind (extract_info E opts (normalize base_url link videoid))
                          video_return with
              | Ret r => r
              | Raise e => (VNone, "Error getting stream URL: " ++ exn_msg e)
              end)
         w' evs
    /\ files w' = files w
    /\ forallb (targets (normalize base_url link videoid)) evs = true
    /\ (forall c e, In (Called c (Some e)) evs ->
        extract_info E opts (normalize base_url link videoid) = Raise e).
Proof.
  set (target := normalize base_url link videoid).
  destruct (rate_limit_frame E w) as (w1 & evs1 & [R1 T1] & F1 & S1).
  destruct (ydl_opts_run E false VNone w1) as (opts & w2 & R2 & T2 & F2).
  destruct (extractor_call_run E opts target video_return w2)
    as (w3 & evs3 & [R3 T3] & F3 & E3).
  exists opts. unfold video, runs, try_except. fold target.
  rewrite (bind_ret _ _ _ _ _ R1), (bind_ret _ _ _ _ _ R2), R3.
  assert (Fail : forall extra c e,
             forallb is_sleep evs1 = true ->
             In (Called c (Some e)) (extra :: evs3 ++ evs1)%list ->
             (exists lv msg, extra = Logged lv msg) ->
             extract_info E opts target = Raise e).
  { intros extra c e Hs Hin (lv & msg & ->). subst evs3.
    destruct Hin as [Hin | [Hin | Hin]]; [discriminate Hin | |].
    - injection Hin as _ Hf.
      destruct (extract_info E opts target); [discriminate Hf|].
      cbn in Hf. congruence.
    - rewrite forallb_forall in Hs. apply Hs in Hin.
      destruct c; discriminate Hin. }
  apply (sleeps_target target) in S1 as S1'.
  destruct (obind (extract_info E opts target) video_return) as [r|e] eqn:O.
  - exists w3, (evs3 ++ evs1)%list.
    rewrite T3, T2, T1, F3, F2, F1, app_assoc, forallb_app, S1'.
    repeat split; auto.
    + subst evs3. cbn. rewrite String.eqb_refl. reflexivity.
    + intros c e Hin.
      apply (Fail (Logged Error EmptyString) c e S1); [right; exact Hin|eauto].
  - eexists; exists (Logged Error ("Stream URL error: " ++ exn_msg e)
                       :: evs3 ++ evs1)%list.
    cbn. rewrite T3, T2, T1, F3, F2, F1, app_assoc, forallb_app, S1'.
    repeat split; auto.
    + subst evs3. cbn. rewrite String.eqb_refl. reflexivity.
    + intros c e' Hin. apply (Fail _ c e' S1 Hin); eauto.
Qed.

Lemma playlist_run (E : env) (link : string) (limit user_id : Z)
  (videoid : value) (w : world) :
  exists w' evs,
    runs (playlist E link limit user_id videoid) w
         (Ret match obind (extract_info E (playlist_opts limit)
                             (normalize playlist_base link videoid))
                          playlist_return with
              | Ret ids => ids
              | Raise _ => []
              end)
         w' evs
    /\ files w' = files w
    /\ forallb (targets (normalize playlist_base link videoid)) evs = true
    /\ In (Called (CExtract (playlist_opts limit)
                            (normalize playlist_base link videoid))
                  (failure_of (extract_info E (playlist_opts limit)
                                 (normalize playlist_base link videoid))))
          evs
    /\ (forall c e, In (Called c (Some e)) evs ->
        extract_info E (playlist_opts limit)
                     (normalize playlist_base link videoid) = Raise e).
Proof.
  set (target := normalize playlist_base link videoid).
  set (opts := playlist_opts limit).
  destruct (rate_limit_frame E w) as (w1 & evs1 & [R1 T1] & F1 & S1).
  destruct (extractor_call_run E opts target playlist_return w1)
    as (w3 & evs3 & [R3 T3] & F3 & E3).
  unfold playlist, runs, try_except. fold target. fold opts.
  rewrite (bind_ret _ _ _ _ _ R1), R3.
  assert (Fail : forall extra c e,
             forallb is_sleep evs1 = true ->
             In (Called c (Some e)) (extra :: evs3 ++ evs1)%list ->
             (exists lv msg, extra = Logged lv msg) ->
             extract_info E opts target = Raise e).
  { intros extra c e Hs Hin (lv & msg & ->). subst evs3.
    destruct Hin as [Hin | [Hin | Hin]]; [discriminate Hin | |].
    - injection Hin as _ Hf.
      destruct (extract_info E opts target); [discriminate Hf|].
      cbn in Hf. congruence.
    - rewrite forallb_forall in Hs. apply Hs in Hin.
      destruct c; discriminate Hin. }
  apply (sleeps_target target) in S1 as S1'.
  destruct (obind (extract_info E opts target) playlist_return) as [r|e] eqn:O.
  - exists w3, (evs3 ++ evs1)%list.
    rewrite T3, T1, F3, F1, app_assoc, forallb_app, S1'.
    repeat split; auto.
    + subst evs3. cbn. rewrite String.eqb_refl. reflexivity.
    + subst evs3. left. reflexivity.
    + intros c e Hin.
      apply (Fail (Logged Error EmptyString) c e S1); [right; exact Hin|eauto].
  - eexists; exists (Logged Error ("Playlist error: " ++ exn_msg e)
                       :: evs3 ++ evs1)%list.
    cbn. rewrite T3, T1, F3, F1, app_assoc, forallb_app, S1'.
    repeat split; auto.
    + subst evs3. cbn. rewrite String.eqb_refl. reflexivity.
    + subst evs3. right. left. reflexivity.
    + intros c e' Hin. apply (Fail _ c e' S1 Hin); eauto.
Qed.

Lemma entry_ids_objects (entries : list value) :
  forallb is_object entries = true ->
  entry_ids entries = Ret (spec_playlist_ids entries).
Proof.
  unfold spec_playlist_ids.
  induction entries as [|entry rest IH]; simpl; [reflexivity|].
  intros H. apply andb_true_iff in H as [O H].
  destruct entry as [| | | | |d]; try discriminate O.
  unfold has_id, field; simpl.
  destruct (Py.lookup "id" d) as [x|] eqn:L; simpl.
  - destruct (Py.truthy x); simpl; rewrite (IH H); simpl.
    + unfold field. rewrite L. reflexivity.
    + reflexivity.
  - exact (IH H).
Qed.

Lemma entry_ids_malformed (entries : list value) :
  forallb is_object entries = false ->
  exists e, entry_ids entries = Raise e.
Proof.
  induction entries as [|entry rest IH]; simpl; [discriminate|].
  intros H. apply andb_false_iff in H.
  destruct entry as [| | | | |d]; simpl; eauto.
  destruct H as [H|H]; [discriminate H|].
  destruct (IH H) as (e & He). rewrite He.
  destruct (Py.lookup "id" d) as [x|]; simpl; [|eauto].
  destruct (Py.truthy x); simpl; [|eauto].
  destruct (Py.lookup "id" d); simpl; eauto.
Qed.

Lemma spec_playlist_ids_length (entries : list value) :
  (List.length (spec_playlist_ids entries) <= List.length entries)%nat.
Proof.
  unfold spec_playlist_ids. rewrite length_map. apply filter_length_le.
Qed.

(** What [playlist] makes of an info dictionary with a list of entries. *)
Lemma playlist_return_entries (info : value) (entries : list value) :
  field info "entries" VNone = VList entries ->
  playlist_return info
  = if forallb is_object entries
    then Ret (spec_playlist_ids entries)
    else match entry_ids entries with
         | Ret ids => Ret ids
         | Raise e => Raise e
         end.
Proof.
  destruct info as [| | | | |d]; try discriminate.
  unfold field. destruct (Py.lookup "entries" d) as [x|] eqn:L; [|discriminate].
  intros ->.
  assert (T : Py.truthy (VDict d) = true)
    by (destruct d; [discriminate L | reflexivity]).
  unfold playlist_return. rewrite T. unfold Py.get, Py.item. rewrite L.
  cbn [negb obind].
  destruct entries as [|entry rest]; [reflexivity|].
  cbn [Py.truthy negb obind Py.iterate].
  destruct (forallb is_object (entry :: rest)) eqn:O.
  - apply entry_ids_objects. exact O.
  - destruct (entry_ids (entry :: rest)); reflexivity.
Qed.

(** C6 (as amended). [playlist] asks the extractor for a flat extraction
    that ends at [limit] (['extract_flat': True], ['playlistend': limit])
    and always returns a list: the IDs of the entries the extractor gives
    back that have one, in the order of the entries, so never more IDs than
    entries and no more than [limit] of them when the extractor kept to the
    cap it was given; the list is empty whenever a call failed or an entry
    is malformed. *)
Theorem playlist_ids_bounded_ordered (E : env) (link : string)
  (limit user_id : Z) (videoid : value) (w : world) :
  exists ids w' evs,
    runs (playlist E link limit user_id videoid) w (Ret ids) w' evs
    /\ Py.lookup "extract_flat" (playlist_opts limit) = Some (VBool true)
    /\ Py.lookup "playlistend" (playlist_opts limit) = Some (VInt limit)
    /\ In (Called (CExtract (playlist_opts limit)
                            (normalize playlist_base link videoid))
                  (failure_of (extract_info E (playlist_opts limit)
                                 (normalize playlist_base link videoid))))
          evs
    /\ (forall c e, In (Called c (Some e)) evs -> ids = [])
    /\ (forall info entries,
          extract_info E (playlist_opts limit)
                       (normalize playlist_base link videoid) = Ret info ->
          field info "entries" VNone = VList entries ->
          (forallb is_object entries = true ->
           ids = spec_playlist_ids entries)
          /\ (forallb is_object entries = false -> ids = [])
          /\ (List.length ids <= List.length entries)%nat
          /\ ((Z.of_nat (List.length entries) <= limit)%Z ->
              (Z.of_nat (List.length ids) <= limit)%Z)).
Proof.
  destruct (playlist_run E link limit user_id videoid w)
    as (w' & evs & R & _ & _ & I & F).
  eexists; exists w', evs. split; [exact R|].
  split; [reflexivity|]. split; [reflexivity|]. split; [exact I|]. split.
  - intros c e Hin. rewrite (F c e Hin). reflexivity.
  - intros info entries X Hentries. rewrite X. cbn [obind].
    rewrite (playlist_return_entries _ _ Hentries).
    destruct (forallb is_object entries) eqn:O.
    + split; [reflexivity|]. split; [discriminate|].
      pose proof (spec_playlist_ids_length entries). split; lia.
    + destruct (entry_ids_malformed _ O) as (e & ->).
      split; [discriminate|]. split; [reflexivity|]. cbn. split; lia.
Qed.

Lemma playlist_ids_bounded_ordered_witness :
  exists ids w' evs,
    runs (playlist playlist_library "PL0123456789" 3 42 (VBool true))
         (fresh []) (Ret ids) w' evs
    /\ ids = [VStr "aaaaaaaaaaa"; VStr "ccccccccccc"]
    /\ (Z.of_nat (List.length ids) <= 3)%Z.
Proof.
  destruct (playlist_ids_bounded_ordered playlist_library "PL0123456789" 3 42
              (VBool true) (fresh []))
    as (ids & w' & evs & R & _ & _ & _ & _ & H).
  destruct (H sample_playlist
              [ VDict [ ("id", VStr "aaaaaaaaaaa") ];
                VDict [ ("title", VStr "[Deleted video]") ];
                VDict [ ("id", VStr "ccccccccccc") ] ]
              eq_refl eq_refl) as (A & _ & _ & B).
  exists ids, w', evs. split; [exact R|]. split.
  - exact (A eq_refl).
  - apply B. cbn. lia.
Defined.

(** C6, as it is worded, fails: [playlist] does not cut the list it gets.
    Asked for one entry, an extractor that gives back the whole playlist
    makes [playlist] return two IDs. *)
Lemma playlist_limit_claim_fails : ~ playlist_limit_claim.
Proof.
  intros C.
  destruct (C playlist_library "PL0123456789" 1%Z 42%Z (VBool true) (fresh []))
    as (ids & w' & R & B).
  vm_compute in R. injection R as <- _.
  cbn in B. lia.
Qed.

(** What [playlist] returns there. *)
Example playlist_over_limit :
  fst (playlist playlist_library "PL0123456789" 1 42 (VBool true) (fresh []))
  = Ret [VStr "aaaaaaaaaaa"; VStr "ccccccccccc"].
Proof. vm_compute. reflexivity. Qed.

(* ------------------------------------------------------------------ *)
(** ** [download] *)

Section FailFast.

Variable target : string.

Lemma fail_fast_ret {A} (a : A) : fail_fast target (ret a).
Proof.
  intros w. exists (Ret a), w, []. repeat split; try easy.
Qed.

Lemma fail_fast_bind {A B} (m : M A) (k : A -> M B) :
  fail_fast target m -> (forall a, fail_fast target (k a)) ->
  fail_fast target (bind m k).
Proof.
  intros Hm Hk w.
  destruct (Hm w) as (o1 & w1 & evs1 & [R1 T1] & G1 & F1 & C1).
  destruct o1 as [a|e].
  - destruct (Hk a w1) as (o2 & w2 & evs2 & [R2 T2] & G2 & F2 & C2).
    exists o2, w2, (evs2 ++ evs1)%list. unfold runs.
    rewrite (bind_ret _ _ _ _ _ R1), T2, T1, app_assoc, forallb_app, G2, G1.
    repeat split; auto.
    + intros c e Hin. apply in_app_or in Hin as [Hin|Hin]; [eauto|].
      discriminate (F1 c e Hin).
    + intros e He. destruct (C2 e He) as (c & Hc). exists c.
      apply in_or_app. auto.
  - exists (Raise e), w1, evs1. unfold runs.
    rewrite (bind_raise _ _ _ _ _ R1). repeat split; auto.
    + intros c e' Hin. pose proof (F1 c e' Hin) as He.
      injection He as ->. reflexivity.
    + intros e' He. injection He as <-. apply C1. reflexivity.
Qed.

Lemma fail_fast_invoke {A} (c : call) (answer : outcome A) :
  (forall f, targets target (Called c f) = true) ->
  fail_fast target (invoke c answer).
Proof.
  intros Hc w. unfold invoke, bind, record, lift, runs.
  destruct answer as [a|e]; cbn [failure_of trace].
  - eexists; eexists; exists [Called c None].
    split; [split; reflexivity|]. cbn [forallb]. rewrite Hc.
    repeat split; auto.
    + intros c' e [H|[]]. discriminate H.
    + discriminate.
  - eexists; eexists; exists [Called c (Some e)].
    split; [split; reflexivity|]. cbn [forallb]. rewrite Hc.
    repeat split; auto.
    + intros c' e' [H|[]]. congruence.
    + intros e' H. injection H as <-. exists c. left. reflexivity.
Qed.

Lemma fail_fast_silent {A} (m : M A) :
  (forall w, exists a w', m w = (Ret a, w') /\ trace w' = trace w) ->
  fail_fast target m.
Proof.
  intros H w. destruct (H w) as (a & w' & R & T).
  exists (Ret a), w', []. repeat split; try easy.
Qed.

Lemma fail_fast_rate_limit (E : env) : fail_fast target (_rate_limit E).
Proof.
  intros w. destruct (rate_limit_frame E w) as (w1 & evs & R & _ & S).
  exists (Ret tt), w1, evs. split; [exact R|].
  split; [apply sleeps_target; exact S|]. split; [|discriminate].
  intros c e Hin. rewrite forallb_forall in S. apply S in Hin.
  destruct c; discriminate Hin.
Qed.

Lemma fail_fast_ydl_opts (E : env) (audio_only : bool) (format_id : value) :
  fail_fast target (_get_ydl_opts E audio_only format_id).
Proof.
  apply fail_fast_silent. intros w.
  destruct (ydl_opts_run E audio_only format_id w) as (o & w' & R & T & _).
  eauto.
Qed.

Lemma fail_fast_path_exists (path : string) :
  fail_fast target (path_exists path).
Proof. apply fail_fast_silent. intros w. eexists; eexists; split; reflexivity. Qed.

Lemma fail_fast_ydl_download (E : env) (opts : dict) :
  fail_fast target (ydl_download E opts target).
Proof.
  unfold ydl_download. apply fail_fast_bind.
  - apply fail_fast_invoke. intros f; cbn. apply String.eqb_refl.
  - intros written. apply fail_fast_silent. intros w.
    eexists; eexists; split; reflexivity.
Qed.

Lemma fail_fast_os_rename (E : env) (src dst : string) :
  fail_fast target (os_rename E src dst).
Proof.
  unfold os_rename. destruct (rename_error E src dst).
  - apply fail_fast_invoke. reflexivity.
  - apply fail_fast_bind; [apply fail_fast_invoke; reflexivity|].
    intros _. apply fail_fast_silent. intros w.
    eexists; eexists; split; reflexivity.
Qed.

End FailFast.

Lemma download_body_fail_fast (E : env) (link : string)
  (video videoid songaudio songvideo format_id title : value) :
  fail_fast (normalize base_url link videoid)
    (download_body E link video videoid songaudio songvideo format_id title).
Proof.
  unfold download_body.
  set (target := normalize base_url link videoid).
  repeat first
    [ apply fail_fast_rate_limit
    | apply fail_fast_ydl_opts
    | apply fail_fast_ydl_download
    | apply fail_fast_os_rename
    | apply fail_fast_path_exists
    | apply fail_fast_ret
    | apply fail_fast_invoke; intros ?; cbn; try apply String.eqb_refl;
      reflexivity
    | match goal with
      | |- fail_fast _ (if ?c then _ else _) => destruct c
      end
    | apply fail_fast_bind; [|intros ?] ].
Qed.

(** [download] re-raises what its body raised, under its own message. *)
Lemma download_run (E : env) (link : string)
  (mystic video videoid songaudio songvideo format_id title : value)
  (w : world) :
  exists o w' evs,
    runs (download E link mystic video videoid songaudio songvideo format_id
                   title) w o w' evs
    /\ forallb (targets (normalize base_url link videoid)) evs = true
    /\ (forall c e, In (Called c (Some e)) evs -> o = Raise (download_failed e))
    /\ (forall e', o = Raise e' ->
        exists c e, In (Called c (Some e)) evs /\ e' = download_failed e).
Proof.
  destruct (download_body_fail_fast E link video videoid songaudio songvideo
              format_id title w)
    as (o & w1 & evs & [R T] & G & F & C).
  unfold download, runs, try_except. rewrite R.
  destruct o as [r|e].
  - exists (Ret r), w1, evs. repeat split; auto.
    + intros c e Hin. discriminate (F c e Hin).
    + discriminate.
  - eexists; eexists; exists (Logged Error ("Download error: " ++ exn_msg e)
                                :: evs).
    cbn. rewrite T, G. repeat split.
    + intros c e' [Hin|Hin]; [discriminate Hin|].
      pose proof (F c e' Hin) as He. injection He as ->. reflexivity.
    + intros e' He. injection He as <-.
      destruct (C e eq_refl) as (c & Hc). exists c, e.
      split; [right; exact Hc | reflexivity].
Qed.

(** C3 (as amended). [details], [video] and [playlist] never raise: a
    call that raises ends up in the value they return ([None] with a
    message, or the empty list).  [download] raises: as soon as one of its
    calls raises, it raises [Exception("Download failed: ...")] with the
    message of that exception, and it raises nothing else. *)
Theorem read_paths_return_download_raises (E : env) (link : string)
  (videoid : value) (limit user_id : Z)
  (mystic video_flag songaudio songvideo format_id title : value)
  (w : world) :
  (exists r msg w',
      details E link videoid w = (Ret (r, msg), w')
      /\ ((populated r /\ msg = EmptyString)
          \/ (r = VNone /\ msg <> EmptyString)))
  /\ (exists r w' evs,
      runs (video E link videoid) w (Ret r) w' evs
      /\ (forall c e, In (Called c (Some e)) evs ->
          r = (VNone, "Error getting stream URL: " ++ exn_msg e)))
  /\ (exists ids w' evs,
      runs (playlist E link limit user_id videoid) w (Ret ids) w' evs
      /\ (forall c e, In (Called c (Some e)) evs -> ids = []))
  /\ (exists o w' evs,
      runs (download E link mystic video_flag videoid songaudio songvideo
                     format_id title) w o w' evs
      /\ (forall c e, In (Called c (Some e)) evs ->
          o = Raise (download_failed e))
      /\ (forall e', o = Raise e' ->
          exists c e, In (Called c (Some e)) evs /\ e' = download_failed e)).
Proof.
  repeat split.
  - destruct (details_run E link videoid w) as (opts & w' & evs & [R _] & _).
    pose proof (details_answer_shape E opts (normalize base_url link videoid))
      as S.
    destruct (details_answer E opts (normalize base_url link videoid))
      as [r msg].
    exists r, msg, w'. split; [exact R | exact S].
  - destruct (video_run E link videoid w) as (opts & w' & evs & R & _ & _ & F).
    eexists; exists w', evs. split; [exact R|].
    intros c e Hin. rewrite (F c e Hin). reflexivity.
  - destruct (playlist_run E link limit user_id videoid w)
      as (w' & evs & R & _ & _ & _ & F).
    eexists; exists w', evs. split; [exact R|].
    intros c e Hin. rewrite (F c e Hin). reflexivity.
  - destruct (download_run E link mystic video_flag videoid songaudio songvideo
                format_id title w) as (o & w' & evs & R & _ & F & C).
    exists o, w', evs. auto.
Qed.

Lemma read_paths_return_download_raises_witness :
  exists w',
    download offline sample_id VNone VNone (VBool true) VNone VNone VNone
             VNone (fresh [])
    = (Raise (download_failed (mkExn OtherError "extractor unavailable")), w').
Proof.
  destruct (read_paths_return_download_raises offline sample_id (VBool true)
              3 42 VNone VNone VNone VNone VNone VNone (fresh []))
    as (_ & _ & _ & o & w' & evs & [R T] & F & _).
  exists w'. rewrite R. f_equal.
  apply (F (CExtract
              (Py.store "outtmpl" id_template
                 (Py.store "postprocessors"
                    (VList [VDict [ ("key", VStr "FFmpegExtractAudio");
                                    ("preferredcodec", VStr "mp3");
                                    ("preferredquality", VStr "192") ]])
                    (Py.store "format" (VStr "bestaudio/best")
                       [ ("quiet", VBool true);
                         ("no_warnings", VBool true);
                         ("geo_bypass", VBool true);
                         ("force_ipv4", VBool true);
                         ("socket_timeout", VInt 30);
                         ("retries", VInt 3);
                         ("user_agent", VStr (nth 0 user_agents EmptyString));
                         ("referer", VStr "https://www.youtube.com/");
                         ("noplaylist", VBool true);
                         ("extract_flat", VBool false);
                         ("nocheckcertificate", VBool true);
                         ("ignoreerrors", VBool true);
                         ("ratelimit", VInt 1048576) ])))
              (normalize base_url sample_id (VBool true)))).
  vm_compute in R. injection R as _ <-.
  cbn in T. rewrite app_nil_r in T. subst evs.
  right. left. reflexivity.
Defined.

(** C3, as it is worded, fails: [download] takes a call that returns for a
    download that worked.  When the extractor's download ends without an
    exception and without a file, [download] returns the path of a file
    that is not there. *)
Lemma download_raises_claim_fails : ~ download_raises_claim.
Proof.
  intros C.
  remember (download idle_library sample_id VNone VNone (VBool true) VNone
                     (VBool true) VNone (VStr "song") (fresh [])) as run
    eqn:R.
  assert (F : fst run = Ret (Path "downloads/song.mp4"))
    by (subst run; vm_compute; reflexivity).
  assert (D : on_disk "downloads/song.mp4" (snd run) = false)
    by (subst run; vm_compute; reflexivity).
  destruct run as [o w']. cbn in F, D. subst o.
  pose proof (C _ _ _ _ _ _ _ _ _ _ _ _ (eq_sym R)) as H.
  cbn in H. congruence.
Qed.

Lemma invoke_ret {A} (c : call) (a : A) (w : world) :
  invoke c (Ret a) w
  = (Ret a, mkWorld (last_request w) (request_delay w) (clock w) (steps w)
                    (files w) (Called c None :: trace w)).
Proof. reflexivity. Qed.

Lemma path_exists_run (path : string) (w : world) :
  path_exists path w = (Ret (on_disk path w), w).
Proof. reflexivity. Qed.

(** C5 (as amended). In the full-video and the default-audio mode, when
    the file [download] is to return (the name the extractor prepares, with
    the extension [.mp3] in the audio mode) is on disk already, [download]
    returns that path, paired with [True], without calling the extractor's
    download and without touching the files. *)
Theorem download_cached_by_id (E : env) (link : string)
  (mystic video_flag videoid songaudio songvideo format_id title : value)
  (w : world) (info : value) (prepared : string) :
  Py.truthy songvideo = false ->
  Py.truthy songaudio = false ->
  makedirs E "downloads" = Ret tt ->
  (forall opts, extract_info E opts (normalize base_url link videoid)
                = Ret info) ->
  (forall opts, prepare_filename E opts info = Ret prepared) ->
  on_disk (expected_path video_flag songaudio songvideo title prepared) w
  = true ->
  exists w' evs,
    runs (download E link mystic video_flag videoid songaudio songvideo
                   format_id title) w
         (Ret (PathFlag
                 (expected_path video_flag songaudio songvideo title prepared)
                 true))
         w' evs
    /\ existsb is_download evs = false
    /\ files w' = files w.
Proof.
  intros Hsv Hsa Hmk Hx Hp Hdisk.
  destruct (rate_limit_frame E w) as (w1 & evs1 & [R1 T1] & F1 & S1).
  assert (N1 : existsb is_download evs1 = false).
  { clear - S1. induction evs1 as [|ev evs1 IH]; [reflexivity|].
    cbn in S1. apply andb_true_iff in S1 as [S0 S1]. cbn.
    rewrite (IH S1). destruct ev as [[] []|]; try discriminate S0; reflexivity. }
  unfold expected_path in *. rewrite Hsv, Hsa in *.
  unfold download, download_body, runs, try_except. cbv zeta.
  rewrite (bind_ret _ _ _ _ _ R1), Hmk.
  rewrite (bind_ret _ _ _ _ _ (invoke_ret _ _ _)).
  rewrite Hsv, Hsa.
  destruct (Py.truthy video_flag).
  - match goal with |- context [bind (_get_ydl_opts E false VNone) _ ?w0] =>
      destruct (ydl_opts_run E false VNone w0) as (opts & w2 & R2 & T2 & F2)
    end.
    rewrite (bind_ret _ _ _ _ _ R2), Hx.
    rewrite (bind_ret _ _ _ _ _ (invoke_ret _ _ _)), Hp.
    rewrite (bind_ret _ _ _ _ _ (invoke_ret _ _ _)).
    rewrite (bind_ret _ _ _ _ _ (path_exists_run _ _)).
    cbn [files] in F2. unfold on_disk in *. cbn [files].
    rewrite F2, F1, Hdisk. cbn [negb].
    eexists.
    exists (Called (CPrepare (Py.store "outtmpl" id_template opts) info) None
            :: Called (CExtract (Py.store "outtmpl" id_template opts)
                                (normalize base_url link videoid)) None
            :: Called (CMakedirs "downloads") None :: evs1).
    split; [split; [reflexivity|] | split].
    + cbn [trace]. rewrite T2. cbn [trace]. rewrite T1. reflexivity.
    + cbn. exact N1.
    + cbn [files]. rewrite ?F2, ?F1. reflexivity.
  - match goal with |- context [bind (_get_ydl_opts E true VNone) _ ?w0] =>
      destruct (ydl_opts_run E true VNone w0) as (opts & w2 & R2 & T2 & F2)
    end.
    rewrite (bind_ret _ _ _ _ _ R2), Hx.
    rewrite (bind_ret _ _ _ _ _ (invoke_ret _ _ _)), Hp.
    rewrite (bind_ret _ _ _ _ _ (invoke_ret _ _ _)).
    rewrite (bind_ret _ _ _ _ _ (path_exists_run _ _)).
    cbn [files] in F2. unfold on_disk in *. cbn [files].
    rewrite F2, F1, Hdisk. cbn [negb].
    eexists.
    exists (Called (CPrepare (Py.store "outtmpl" id_template opts) info) None
            :: Called (CExtract (Py.store "outtmpl" id_template opts)
                                (normalize base_url link videoid)) None
            :: Called (CMakedirs "downloads") None :: evs1).
    split; [split; [reflexivity|] | split].
    + cbn [trace]. rewrite T2. cbn [trace]. rewrite T1. reflexivity.
    + cbn. exact N1.
    + cbn [files]. rewrite ?F2, ?F1. reflexivity.
Qed.

Lemma download_cached_by_id_witness :
  exists w' evs,
    runs (download media_library sample_id VNone VNone (VBool true) VNone
                   VNone VNone VNone)
         (fresh ["downloads/dQw4w9WgXcQ.mp3"])
         (Ret (PathFlag "downloads/dQw4w9WgXcQ.mp3" true)) w' evs
    /\ existsb is_download evs = false
    /\ files w' = ["downloads/dQw4w9WgXcQ.mp3"].
Proof.
  apply (download_cached_by_id media_library sample_id VNone VNone
           (VBool true) VNone VNone VNone VNone
           (fresh ["downloads/dQw4w9WgXcQ.mp3"]) sample_info
           "downloads/dQw4w9WgXcQ.webm");
    reflexivity.
Defined.

(** C5, as it is worded, fails: the snippet modes download even when
    [downloads/<title>.mp4] is there. *)
Lemma download_cache_claim_fails : ~ download_cache_claim.
Proof.
  intros C.
  destruct (C media_library sample_id VNone VNone VNone VNone (VBool true)
              VNone (VStr "song") (fresh ["downloads/song.mp4"])
              "downloads/dQw4w9WgXcQ.webm")
    as (r & w' & evs & [R T] & _ & N).
  - reflexivity.
  - intros opts info. reflexivity.
  - intros opts l. exists sample_info. reflexivity.
  - reflexivity.
  - vm_compute in R. injection R as _ <-.
    cbn in T. rewrite app_nil_r in T. subst evs. discriminate N.
Qed.

(** The two snippet modes call the extractor's download whatever is on
    disk. *)
Lemma download_snippet_downloads (E : env) (link : string)
  (mystic video_flag videoid songaudio songvideo format_id title : value)
  (w : world) :
  Py.truthy songvideo = true \/ Py.truthy songaudio = true ->
  makedirs E "downloads" = Ret tt ->
  exists o w' evs,
    runs (download E link mystic video_flag videoid songaudio songvideo
                   format_id title) w o w' evs
    /\ existsb is_download evs = true.
Proof.
  intros Hmode Hmk.
  destruct (rate_limit_frame E w) as (w1 & evs1 & [R1 T1] & F1 & S1).
  unfold download, download_body, runs, try_except. cbv zeta.
  rewrite (bind_ret _ _ _ _ _ R1), Hmk.
  rewrite (bind_ret _ _ _ _ _ (invoke_ret _ _ _)).
  assert (Snippet : forall audio_only ext w0,
             trace w0 = (Called (CMakedirs "downloads") None :: evs1 ++ trace w)%list ->
             exists o w' evs,
               ((match
                    (opts <- _get_ydl_opts E audio_only format_id ;;
                     ydl_download E
                       (Py.store "outtmpl"
                          (VStr ("downloads/" ++ Py.str title ++ ext)) opts)
                       (normalize base_url link videoid) ;;;
                     ret (Path ("downloads/" ++ Py.str title ++ ext))) w0
                  with
                  | (Ret a, w') => (Ret a, w')
                  | (Raise e, w') =>
                      (log Error ("Download error: " ++ exn_msg e) ;;;
                       raise (mkExn PlainException
                                ("Download failed: " ++ exn_msg e))) w'
                  end) = (o, w')
                /\ trace w' = (evs ++ trace w)%list)
               /\ existsb is_download evs = true).
  { intros audio_only ext w0 T0.
    destruct (ydl_opts_run E audio_only format_id w0)
      as (opts & w2 & R2 & T2 & F2).
    rewrite (bind_ret _ _ _ _ _ R2).
    unfold ydl_download, invoke, bind, record, lift, get_files, set_files,
      ret, log, raise.
    destruct (download_media E _ _) as [written|e];
      cbn [fst snd failure_of trace].
    - eexists; eexists;
        exists (Called (CDownload
                          (Py.store "outtmpl"
                             (VStr ("downloads/" ++ Py.str title ++ ext)) opts)
                          (normalize base_url link videoid)) None
                :: Called (CMakedirs "downloads") None :: evs1).
      split; [split; [reflexivity|] | reflexivity].
      cbn [trace]. rewrite T2, T0. reflexivity.
    - eexists; eexists;
        exists (Logged Error ("Download error: " ++ exn_msg e)
                :: Called (CDownload
                          (Py.store "outtmpl"
                             (VStr ("downloads/" ++ Py.str title ++ ext)) opts)
                          (normalize base_url link videoid)) (Some e)
                :: Called (CMakedirs "downloads") None :: evs1).
      split; [split; [reflexivity|] | reflexivity].
      cbn [trace]. rewrite T2, T0. reflexivity. }
  destruct (Py.truthy songvideo) eqn:Hsv.
  - apply (Snippet false ".mp4"). cbn [trace]. rewrite T1. reflexivity.
  - destruct Hmode as [Hmode | Hmode]; [discriminate Hmode|].
    rewrite Hmode.
    apply (Snippet true ".mp3"). cbn [trace]. rewrite T1. reflexivity.
Qed.

(* ------------------------------------------------------------------ *)
(** ** Normalization of the link *)

Lemma split_head_without (s : string) :
  PyString.contains "&" s = false ->
  PyString.split_head "&"%char s = s.
Proof.
  induction s as [|c rest IH]; [reflexivity|].
  cbn [PyString.contains PyString.split_head String.prefix].
  destruct (ascii_dec "&"%char c) as [<-|Hc].
  - destruct rest; cbn; discriminate.
  - intros H. apply not_eq_sym in Hc. apply Ascii.eqb_neq in Hc. rewrite Hc.
    rewrite (IH H). reflexivity.
Qed.

Lemma normalize_canonical (prefix id : string) (videoid : value) :
  Py.truthy videoid = true ->
  normalize prefix id videoid = canonical prefix id.
Proof.
  intros T. unfold normalize, canonical. rewrite T.
  destruct (PyString.contains "&" (prefix ++ id)) eqn:C; [reflexivity|].
  symmetry. apply split_head_without. exact C.
Qed.

Lemma runs_events {A} (m : M A) (w : world) o1 w1 evs1 o2 w2 evs2 :
  runs m w o1 w1 evs1 -> runs m w o2 w2 evs2 -> evs1 = evs2.
Proof.
  intros [R1 T1] [R2 T2]. rewrite R1 in R2. injection R2 as _ <-.
  rewrite T1 in T2. exact (app_inv_tail _ _ _ T2).
Qed.

(** C8 (as amended). Called with the flag set, [details], [video] and
    [download] ask every resolver about [base_url + id] cut at its first
    [&]; [playlist] asks about [playlist_base + id] cut at its first [&]. *)
Theorem videoid_normalization (E : env) (id : string) (videoid : value)
  (limit user_id : Z)
  (mystic video_flag songaudio songvideo format_id title : value)
  (w : world) :
  Py.truthy videoid = true ->
  (forall o w' evs,
      runs (details E id videoid) w o w' evs ->
      forallb (targets (canonical base_url id)) evs = true)
  /\ (forall o w' evs,
      runs (video E id videoid) w o w' evs ->
      forallb (targets (canonical base_url id)) evs = true)
  /\ (forall o w' evs,
      runs (playlist E id limit user_id videoid) w o w' evs ->
      forallb (targets (canonical playlist_base id)) evs = true)
  /\ (forall o w' evs,
      runs (download E id mystic video_flag videoid songaudio songvideo
                     format_id title) w o w' evs ->
      forallb (targets (canonical base_url id)) evs = true).
Proof.
  intros T.
  rewrite <- (normalize_canonical base_url id videoid T).
  rewrite <- (normalize_canonical playlist_base id videoid T).
  repeat split; intros o w' evs R.
  - destruct (details_run E id videoid w) as (opts & w1 & evs1 & R1 & _ & G).
    rewrite (runs_events _ _ _ _ _ _ _ _ R R1). exact G.
  - destruct (video_run E id videoid w) as (opts & w1 & evs1 & R1 & _ & G & _).
    rewrite (runs_events _ _ _ _ _ _ _ _ R R1). exact G.
  - destruct (playlist_run E id limit user_id videoid w)
      as (w1 & evs1 & R1 & _ & G & _).
    rewrite (runs_events _ _ _ _ _ _ _ _ R R1). exact G.
  - destruct (download_run E id mystic video_flag videoid songaudio songvideo
                format_id title w) as (o1 & w1 & evs1 & R1 & G & _).
    rewrite (runs_events _ _ _ _ _ _ _ _ R R1). exact G.
Qed.

Lemma videoid_normalization_witness :
  forallb (targets "https://www.youtube.com/watch?v=dQw4w9WgXcQ")
          (trace (snd (details age_gated "dQw4w9WgXcQ&t=42" (VBool true)
                               (fresh []))))
  = true.
Proof.
  apply (proj1 (videoid_normalization age_gated "dQw4w9WgXcQ&t=42"
                  (VBool true) 3 42 VNone VNone VNone VNone VNone VNone
                  (fresh []) eq_refl)
           (fst (details age_gated "dQw4w9WgXcQ&t=42" (VBool true) (fresh [])))
           (snd (details age_gated "dQw4w9WgXcQ&t=42" (VBool true) (fresh [])))).
  split.
  - apply surjective_pairing.
  - cbn [trace fresh initial_world]. rewrite app_nil_r. reflexivity.
Defined.

(** C8, as it is worded, fails: [playlist] prefixes the ID with
    [playlist_base]. *)
Lemma videoid_base_url_claim_fails : ~ videoid_base_url_claim.
Proof.
  intros C.
  destruct (C offline "PL0123456789" (VBool true) 3%Z 42%Z VNone VNone VNone
              VNone VNone VNone (fresh []) eq_refl) as (_ & _ & P & _).
  specialize (P (fst (playlist offline "PL0123456789" 3 42 (VBool true)
                        (fresh [])))
                (snd (playlist offline "PL0123456789" 3 42 (VBool true)
                        (fresh [])))
                (trace (snd (playlist offline "PL0123456789" 3 42 (VBool true)
                               (fresh []))))).
  assert (R : runs (playlist offline "PL0123456789" 3 42 (VBool true))
                   (fresh [])
                   (fst (playlist offline "PL0123456789" 3 42 (VBool true)
                           (fresh [])))
                   (snd (playlist offline "PL0123456789" 3 42 (VBool true)
                           (fresh [])))
                   (trace (snd (playlist offline "PL0123456789" 3 42
                                  (VBool true) (fresh []))))).
  { split; [apply surjective_pairing|].
    cbn [trace fresh initial_world]. rewrite app_nil_r. reflexivity. }
  apply P in R. vm_compute in R. discriminate R.
Qed.

(** What [playlist] asks the extractor about in that run. *)
Example playlist_videoid_target :
  trace (snd (playlist offline "PL0123456789" 3 42 (VBool true) (fresh [])))
  = [ Logged Error "Playlist error: extractor unavailable";
      Called (CExtract (playlist_opts 3)
                       "https://youtube.com/playlist?list=PL0123456789")
             (Some (mkExn OtherError "extractor unavailable")) ].
Proof. vm_compute. reflexivity. Qed.

(* ------------------------------------------------------------------ *)
(** ** [exists] *)

Lemma nullable_matches (r : regex) : nullable r = true <-> matches r [].
Proof.
  induction r as [| | p | r IHr s IHs | r IHr s IHs | r IHr]; simpl.
  - split; [discriminate | intros H; inversion H].
  - split; [constructor | reflexivity].
  - split; [discriminate | intros H; inversion H].
  - rewrite andb_true_iff, IHr, IHs. split.
    + intros [Hr Hs]. exact (matches_cat _ _ [] [] Hr Hs).
    + intros H. inversion H; subst.
      match goal with
      | Heq : (_ ++ _)%list = [] |- _ => apply app_eq_nil in Heq as [-> ->]
      end. auto.
  - rewrite orb_true_iff, IHr, IHs. split.
    + intros [H|H]; [apply matches_alt_l | apply matches_alt_r]; exact H.
    + intros H. inversion H; subst; auto.
  - split; [constructor | reflexivity].
Qed.

(** A non-empty word of [Star r] starts with a non-empty word of [r]. *)
Lemma matches_star_cons (r : regex) (c : ascii) (l : list ascii) :
  matches (Star r) (c :: l) ->
  exists a b, l = (a ++ b)%list /\ matches r (c :: a) /\ matches (Star r) b.
Proof.
  intros H. remember (Star r) as q eqn:Hq. remember (c :: l) as word eqn:Hw.
  induction H as [| | | | | |r' a b Ha _ Hb IHb]; try discriminate.
  injection Hq as ->. destruct a as [|x a]; cbn in Hw.
  - apply IHb; auto.
  - injection Hw as -> <-. exists a, b. auto.
Qed.

Lemma deriv_matches (r : regex) (c : ascii) (l : list ascii) :
  matches (deriv c r) l <-> matches r (c :: l).
Proof.
  revert l.
  induction r as [| | p | r IHr s IHs | r IHr s IHs | r IHr]; intros l; simpl.
  - split; intros H; inversion H.
  - split; intros H; inversion H.
  - destruct (p c) eqn:P; split; intros H; inversion H; subst.
    + constructor. exact P.
    + constructor.
    + congruence.
  - assert (Left : forall l', matches (Cat (deriv c r) s) l' ->
                              matches (Cat r s) (c :: l')).
    { intros l' H. inversion H; subst.
      apply (matches_cat r s (c :: a) b); [apply IHr|]; assumption. }
    assert (Split : matches (Cat r s) (c :: l) ->
                    matches (Cat (deriv c r) s) l
                    \/ (matches r [] /\ matches s (c :: l))).
    { intros H. inversion H; subst.
      match goal with
      | Heq : (?a ++ _)%list = c :: l |- _ =>
          destruct a as [|x a]; cbn in Heq;
          [subst; right; auto
          |injection Heq as -> <-; left; constructor; [apply IHr|]; assumption]
      end. }
    destruct (nullable r) eqn:N.
    + split.
      * intros H. inversion H; subst; [apply Left; assumption|].
        apply (matches_cat r s [] (c :: l)); [|apply IHs; assumption].
        apply nullable_matches. exact N.
      * intros H. destruct (Split H) as [H'|[_ H']].
        -- apply matches_alt_l. exact H'.
        -- apply matches_alt_r. apply IHs. exact H'.
    + split; [apply Left|].
      intros H. destruct (Split H) as [H'|[H' _]]; [exact H'|].
      apply nullable_matches in H'. congruence.
  - split; intros H; inversion H; subst.
    + apply matches_alt_l, IHr. assumption.
    + apply matches_alt_r, IHs. assumption.
    + apply matches_alt_l, IHr. assumption.
    + apply matches_alt_r, IHs. assumption.
  - split.
    + intros H. inversion H; subst.
      apply (matches_star_more r (c :: a) b); [apply IHr|]; assumption.
    + intros H. destruct (matches_star_cons _ _ _ H) as (a & b & -> & Ha & Hb).
      constructor; [apply IHr|]; assumption.
Qed.

(** [re_match] finds the prefixes that are words. *)
Lemma re_match_spec (r : regex) (l : list ascii) :
  re_match r l = true <->
  exists p q, l = (p ++ q)%list /\ matches r p.
Proof.
  revert r. induction l as [|c l IH]; intros r; simpl.
  - rewrite orb_false_r, nullable_matches. split.
    + intros H. exists [], []. auto.
    + intros (p & q & Hl & H). symmetry in Hl.
      apply app_eq_nil in Hl as [-> _]. exact H.
  - rewrite orb_true_iff, nullable_matches, IH. split.
    + intros [H | (p & q & -> & H)].
      * exists [], (c :: l). auto.
      * exists (c :: p), q. split; [reflexivity|].
        apply deriv_matches. exact H.
    + intros (p & q & Hl & H). destruct p as [|x p]; [left; exact H|].
      injection Hl as <- ->. right. exists p, q. split; [reflexivity|].
      apply deriv_matches. exact H.
Qed.

(** [re_search] finds the substrings that are words. *)
Lemma re_search_spec (r : regex) (l : list ascii) :
  re_search r l = true <->
  exists a p q, l = (a ++ p ++ q)%list /\ matches r p.
Proof.
  induction l as [|c l IH]; cbn [re_search].
  - rewrite orb_false_r, re_match_spec. split.
    + intros (p & q & Hl & H). exists [], p, q. auto.
    + intros (a & p & q & Hl & H). symmetry in Hl.
      apply app_eq_nil in Hl as [-> Hl]. exists p, q.
      split; [symmetry; exact Hl | exact H].
  - rewrite orb_true_iff, IH, re_match_spec. split.
    + intros [(p & q & Hl & H) | (a & p & q & -> & H)].
      * exists [], p, q. auto.
      * exists (c :: a), p, q. auto.
    + intros (a & p & q & Hl & H). destruct a as [|x a]; cbn in Hl.
      * left. exists p, q. auto.
      * injection Hl as _ ->. right. exists a, p, q. auto.
Qed.

Lemma matches_cat_iff (r s : regex) (l : list ascii) :
  matches (Cat r s) l <->
  exists a b, l = (a ++ b)%list /\ matches r a /\ matches s b.
Proof.
  split.
  - intros H. inversion H; subst. eauto.
  - intros (a & b & -> & Ha & Hb). constructor; assumption.
Qed.

Lemma matches_alt_iff (r s : regex) (l : list ascii) :
  matches (Alt r s) l <-> matches r l \/ matches s l.
Proof.
  split.
  - intros H. inversion H; subst; auto.
  - intros [H|H]; [apply matches_alt_l | apply matches_alt_r]; exact H.
Qed.

Lemma matches_eps_iff (l : list ascii) : matches Eps l <-> l = [].
Proof.
  split.
  - intros H. inversion H. reflexivity.
  - intros ->. constructor.
Qed.

Lemma matches_sym_iff (p : ascii -> bool) (l : list ascii) :
  matches (Sym p) l <-> exists c, l = [c] /\ p c = true.
Proof.
  split.
  - intros H. inversion H; subst. eauto.
  - intros (c & -> & H). constructor. exact H.
Qed.

Lemma matches_lit_iff (s : string) (l : list ascii) :
  matches (Lit s) l <-> l = list_ascii_of_string s.
Proof.
  revert l. induction s as [|c s IH]; intros l; cbn [Lit list_ascii_of_string].
  - apply matches_eps_iff.
  - rewrite matches_cat_iff. split.
    + intros (a & b & -> & Ha & Hb).
      apply matches_sym_iff in Ha as (x & -> & Hx).
      apply Ascii.eqb_eq in Hx as <-. apply IH in Hb as ->. reflexivity.
    + intros ->. exists [c], (list_ascii_of_string s).
      split; [reflexivity|]. split.
      * constructor. apply Ascii.eqb_refl.
      * apply IH. reflexivity.
Qed.

Lemma matches_star_sym (p : ascii -> bool) (l : list ascii) :
  matches (Star (Sym p)) l <-> forallb p l = true.
Proof.
  split.
  - intros H. remember (Star (Sym p)) as q eqn:Hq.
    induction H as [| | | | | |r a b Ha _ Hb IHb]; try discriminate.
    + reflexivity.
    + injection Hq as ->. apply matches_sym_iff in Ha as (c & -> & Hc).
      cbn. rewrite Hc. apply IHb. reflexivity.
  - induction l as [|c l IH]; cbn; intros H.
    + constructor.
    + apply andb_true_iff in H as [Hc Hl].
      apply (matches_star_more (Sym p) [c] l).
      * constructor. exact Hc.
      * apply IH. exact Hl.
Qed.

Lemma matches_plus_sym (p : ascii -> bool) (l : list ascii) :
  matches (Plus (Sym p)) l <-> l <> [] /\ forallb p l = true.
Proof.
  unfold Plus. rewrite matches_cat_iff. split.
  - intros (a & b & -> & Ha & Hb).
    apply matches_sym_iff in Ha as (c & -> & Hc).
    apply matches_star_sym in Hb. cbn. rewrite Hc, Hb.
    split; [discriminate | reflexivity].
  - intros [Hne H]. destruct l as [|c l]; [contradiction|].
    cbn in H. apply andb_true_iff in H as [Hc Hl].
    exists [c], l. split; [reflexivity|]. split.
    + constructor. exact Hc.
    + apply matches_star_sym. exact Hl.
Qed.

Lemma matches_rep_sym (n : nat) (p : ascii -> bool) (l : list ascii) :
  matches (Rep n (Sym p)) l <-> List.length l = n /\ forallb p l = true.
Proof.
  revert l. induction n as [|n IH]; intros l; cbn [Rep].
  - rewrite matches_eps_iff. split.
    + intros ->. auto.
    + intros [H _]. destruct l; [reflexivity | discriminate].
  - rewrite matches_cat_iff. split.
    + intros (a & b & -> & Ha & Hb).
      apply matches_sym_iff in Ha as (c & -> & Hc).
      apply IH in Hb as [Hn Hb]. cbn. rewrite Hc, Hb, Hn. auto.
    + intros [Hn H]. destruct l as [|c l]; [discriminate|].
      cbn in H. apply andb_true_iff in H as [Hc Hl].
      injection Hn as Hn.
      exists [c], l. split; [reflexivity|]. split.
      * constructor. exact Hc.
      * apply IH. auto.
Qed.

Lemma to_list_app (a b : string) :
  list_ascii_of_string (a ++ b)
  = (list_ascii_of_string a ++ list_ascii_of_string b)%list.
Proof. induction a as [|c a IH]; cbn; [|rewrite IH]; reflexivity. Qed.

Lemma length_to_list (s : string) :
  List.length (list_ascii_of_string s) = String.length s.
Proof. induction s as [|c s IH]; cbn; [|rewrite IH]; reflexivity. Qed.

Lemma to_list_inj (a b : string) :
  list_ascii_of_string a = list_ascii_of_string b -> a = b.
Proof.
  intros H. apply (f_equal string_of_list_ascii) in H.
  rewrite !string_of_list_ascii_of_string in H. exact H.
Qed.

(** The words of the optional fourth group of [url_regex]. *)
Lemma path_words (path : string) :
  matches (Opt (Alt (Lit "watch?v=")
               (Alt (Lit "embed/")
               (Alt (Lit "v/")
                    (Cat (Plus Dot) (Lit "?v="))))))
          (list_ascii_of_string path)
  <-> spec_path_prefix path.
Proof.
  unfold Opt, spec_path_prefix, Dot.
  rewrite !matches_alt_iff, !matches_lit_iff, matches_eps_iff,
    matches_cat_iff.
  split.
  - intros [[H | [H | [H | H]]] | H].
    + right; left. apply to_list_inj. exact H.
    + right; right; left. apply to_list_inj. exact H.
    + right; right; right; left. apply to_list_inj. exact H.
    + destruct H as (a & b & Hl & Ha & Hb).
      apply matches_plus_sym in Ha as [Hne Ha].
      apply matches_lit_iff in Hb as ->.
      right; right; right; right. exists (string_of_list_ascii a).
      split; [|split].
      * destruct a; [contradiction | discriminate].
      * rewrite list_ascii_of_string_of_list_ascii. exact Ha.
      * apply to_list_inj.
        rewrite Hl, to_list_app, list_ascii_of_string_of_list_ascii.
        reflexivity.
    + left. apply to_list_inj. exact H.
  - intros [-> | [-> | [-> | [-> | (x & Hx & Hn & ->)]]]]; auto.
    left; right; right; right.
    exists (list_ascii_of_string x), (list_ascii_of_string "?v=").
    split; [apply to_list_app|]. split.
    + apply matches_plus_sym. split; [|exact Hn].
      destruct x; [contradiction | discriminate].
    + apply matches_lit_iff. reflexivity.
Qed.

(** [url_regex] finds a match in a link exactly when the link has the
    shape of a video URL. *)
Lemma url_regex_search (link : string) :
  re_search url_regex (list_ascii_of_string link) = true
  <-> spec_video_url link.
Proof.
  rewrite re_search_spec. unfold url_regex, spec_video_url. split.
  - intros (a & p & q & Hl & H).
    apply matches_cat_iff in H as (sch & p1 & -> & _ & H).
    apply matches_cat_iff in H as (www & p2 & -> & _ & H).
    apply matches_cat_iff in H as (host & p3 & -> & Hhost & H).
    apply matches_cat_iff in H as (slash & p4 & -> & Hslash & H).
    apply matches_cat_iff in H as (mid & idl & -> & Hmid & Hid).
    apply matches_lit_iff in Hslash as ->.
    apply matches_rep_sym in Hid as [Hlen Hid].
    rewrite <- (list_ascii_of_string_of_list_ascii mid) in Hmid.
    apply path_words in Hmid.
    assert (Hh : exists h, (h = "youtube.com" \/ h = "youtu.be")
                           /\ host = list_ascii_of_string h).
    { apply matches_alt_iff in Hhost as [Hh|Hh];
        apply matches_lit_iff in Hh; eauto. }
    destruct Hh as (h & Hh & ->).
    exists (string_of_list_ascii (a ++ sch ++ www)), h,
      (string_of_list_ascii mid), (string_of_list_ascii idl),
      (string_of_list_ascii q).
    split; [|split; [exact Hh|split; [exact Hmid|split]]].
    + apply to_list_inj.
      rewrite Hl, !to_list_app, !list_ascii_of_string_of_list_ascii.
      rewrite <- !app_assoc. reflexivity.
    + rewrite <- length_to_list, list_ascii_of_string_of_list_ascii.
      exact Hlen.
    + rewrite list_ascii_of_string_of_list_ascii. exact Hid.
  - intros (pre & host & path & id & post & -> & Hhost & Hpath & Hlen & Hid).
    exists (list_ascii_of_string pre),
      (list_ascii_of_string (host ++ "/" ++ path ++ id)),
      (list_ascii_of_string post).
    split; [rewrite !to_list_app, <- !app_assoc; reflexivity|].
    apply (matches_cat _ _ [] _); [apply matches_alt_r; constructor|].
    apply (matches_cat _ _ [] _); [apply matches_alt_r; constructor|].
    rewrite !to_list_app.
    apply matches_cat.
    { apply matches_alt_iff. rewrite !matches_lit_iff.
      destruct Hhost as [-> | ->]; auto. }
    apply matches_cat; [apply matches_lit_iff; reflexivity|].
    apply matches_cat; [apply path_words; exact Hpath|].
    apply matches_rep_sym. rewrite length_to_list. auto.
Qed.

(** C9. Without the flag, [exists] answers, without touching the world
    (so without any call), whether the link matches the canonical video
    URL pattern; it says yes to the shortlink of the example and no to the
    link of another site. *)
Theorem exists_matches_pattern (link : string) (w : world) :
  (exists b,
      exists_ link VNone w = (Ret b, w)
      /\ (b = true <-> spec_video_url link))
  /\ exists_ "https://youtu.be/dQw4w9WgXcQ" VNone w = (Ret true, w)
  /\ exists_ "https://example.com/x" VNone w = (Ret false, w).
Proof.
  split; [|split; reflexivity].
  exists (re_search url_regex (list_ascii_of_string link)).
  split; [reflexivity|]. apply url_regex_search.
Qed.

(** The pattern is searched for, not anchored: a link of another site
    that carries a video URL in its path matches too. *)
Example exists_unanchored :
  fst (exists_ "https://example.com/?u=youtu.be/dQw4w9WgXcQ" VNone (fresh []))
  = Ret true.
Proof. reflexivity. Qed.

(* ================================================================== *)
(** * Further properties *)

(* ------------------------------------------------------------------ *)
(** ** [url] *)

Lemma find_app {A} (p : A -> bool) (a b : list A) :
  find p (a ++ b)%list
  = match find p a with
    | Some x => Some x
    | None => find p b
    end.
Proof.
  induction a as [|x a IH]; cbn; [reflexivity|].
  destruct (p x); [reflexivity | exact IH].
Qed.

Lemma url_in_entities_find (text : string) (es : list entity) :
  url_in_entities text es
  = find url_regex_match (flat_map (entity_candidates text) es).
Proof.
  induction es as [|e es IH]; cbn [url_in_entities flat_map];
    [reflexivity|].
  rewrite find_app, <- IH. unfold url_of_entity, entity_candidates.
  destruct (entity_kind e); cbn [find].
  - destruct (url_regex_match _); reflexivity.
  - destruct (entity_url e) as [target|]; cbn [find]; [|reflexivity].
    destruct (url_regex_match target); reflexivity.
  - reflexivity.
Qed.

Lemma url_in_messages_find (msgs : list message) :
  url_in_messages msgs
  = find url_regex_match (flat_map message_candidates msgs).
Proof.
  induction msgs as [|msg msgs IH]; cbn [url_in_messages flat_map];
    [reflexivity|].
  rewrite find_app, <- IH.
  destruct msg as [text caption entities caption_entities reply].
  cbn [url_in_message message_candidates].
  rewrite url_in_entities_find. reflexivity.
Qed.

(** X1. [url] never touches the world and returns the first string, among
    the slices under the [URL] entities and the targets of the
    [TEXT_LINK] entities, of the message and then of the message it
    replies to, that the pattern matches at its start; it returns [None]
    when there is none. An entity that makes the match raise is passed
    over. *)
Theorem url_first_matching_candidate (msg : message) (w : world) :
  url msg w
  = (Ret (find url_regex_match (spec_url_candidates msg)), w).
Proof.
  unfold url, try_except, ret, spec_url_candidates.
  rewrite url_in_messages_find. reflexivity.
Qed.

Lemma re_match_search (r : regex) (l : list ascii) :
  re_match r l = true -> re_search r l = true.
Proof. intros H. destruct l; cbn [re_search]; rewrite H; reflexivity. Qed.

(** X2. Whatever [url] finds in a message, [exists] accepts. *)
Theorem url_result_exists (msg : message) (w w' : world) (u : string) :
  url msg w = (Ret (Some u), w') ->
  exists_ u VNone w' = (Ret true, w').
Proof.
  unfold url, try_except, ret. rewrite url_in_messages_find.
  intros H. injection H as H <-.
  apply find_some in H as [_ H].
  unfold exists_, ret. cbn [Py.truthy].
  unfold url_regex_match in H. rewrite (re_match_search _ _ H). reflexivity.
Qed.

Lemma url_result_exists_witness :
  url sample_message (fresh [])
  = (Ret (Some "https://youtu.be/abcdefghijk"), fresh [])
  /\ exists_ "https://youtu.be/abcdefghijk" VNone (fresh [])
     = (Ret true, fresh []).
Proof.
  split; [reflexivity|].
  apply (url_result_exists sample_message (fresh []) (fresh [])
           "https://youtu.be/abcdefghijk").
  reflexivity.
Defined.

(* ------------------------------------------------------------------ *)
(** ** The normalized link *)

Lemma split_head_clean (s : string) :
  PyString.contains "&" (PyString.split_head "&"%char s) = false.
Proof.
  induction s as [|c rest IH]; [reflexivity|].
  cbn [PyString.split_head].
  destruct (Ascii.eqb c "&"%char) eqn:C; [reflexivity|].
  cbn [PyString.contains String.prefix].
  destruct (ascii_dec "&"%char c) as [<-|_]; [discriminate C | exact IH].
Qed.

Lemma split_head_prefix (s : string) :
  exists rest, s = PyString.split_head "&"%char s ++ rest.
Proof.
  induction s as [|c s IH]; [exists EmptyString; reflexivity|].
  cbn [PyString.split_head].
  destruct (Ascii.eqb c "&"%char).
  - exists (String c s). reflexivity.
  - destruct IH as (rest & IH). exists rest. cbn. rewrite <- IH. reflexivity.
Qed.

(** X3. The link that the methods work with after their first two
    statements holds no [&]; it is the start of the link they were given
    (after the prefix, when the flag is set), and normalizing it again
    without the flag changes nothing. *)
Theorem normalize_strips_parameters (prefix link : string) (videoid : value) :
  PyString.contains "&" (normalize prefix link videoid) = false
  /\ (exists rest,
         (if Py.truthy videoid then prefix ++ link else link)
         = normalize prefix link videoid ++ rest)
  /\ (forall prefix',
         normalize prefix' (normalize prefix link videoid) VNone
         = normalize prefix link videoid).
Proof.
  assert (Clean : PyString.contains "&" (normalize prefix link videoid) = false).
  { unfold normalize.
    generalize (if Py.truthy videoid then prefix ++ link else link).
    intros s. destruct (PyString.contains "&" s) eqn:C;
      [apply split_head_clean | exact C]. }
  split; [exact Clean|]. split.
  - unfold normalize.
    generalize (if Py.truthy videoid then prefix ++ link else link).
    intros s. destruct (PyString.contains "&" s); [apply split_head_prefix|].
    exists EmptyString.
    induction s as [|c s IH]; cbn; [|rewrite <- IH]; reflexivity.
  - intros prefix'.
    unfold normalize at 1. cbn [Py.truthy]. rewrite Clean. reflexivity.
Qed.

(* ------------------------------------------------------------------ *)
(** ** More on the throttle *)

(** X4. When the recorded start is not in the future, the throttle adds
    at most one sleep to the trace, of a positive time no longer than
    [request_delay]; it does not sleep at all when [request_delay] has
    passed already on entry. *)
Theorem throttle_sleep_bounded (E : env) (w : world) :
  (last_request w <= clock w)%Q ->
  exists w1 evs,
    runs (_rate_limit E) w (Ret tt) w1 evs
    /\ (evs = []
        \/ exists d, evs = [Called (CSleep d) None]
                     /\ (0 < d <= request_delay w)%Q)
    /\ ((request_delay w <= clock w - last_request w)%Q -> evs = []).
Proof.
  intros Hpast.
  unfold runs, _rate_limit, bind, time_time, advance, get_last_request,
    get_request_delay, sleep, record, bind, set_last_request,
    random_uniform, random_random, set_request_delay, ret, bind; simpl.
  pose proof (microseconds_nonneg (lag E (steps w))) as L0.
  destruct (Qlt_le_dec _ _) as [Hlt | Hge]; simpl.
  - eexists.
    exists [Called (CSleep (request_delay w
                            - (clock w + 0 + microseconds (lag E (steps w))
                               - last_request w))) None].
    split; [split; reflexivity|]. split.
    + right. eexists. split; [reflexivity|]. lra.
    + intros H. lra.
  - eexists. exists []. split; [split; reflexivity|]. auto.
Qed.

Lemma throttle_sleep_bounded_witness :
  exists w1 evs,
    runs (_rate_limit offline) (fresh []) (Ret tt) w1 evs /\ evs = [].
Proof.
  destruct (throttle_sleep_bounded offline (fresh [])) as (w1 & evs & R & _ & N).
  - cbn. lra.
  - exists w1, evs. split; [exact R|]. apply N. cbn. lra.
Defined.

Lemma throttle_times_run (E : env) (n : nat) :
  forall w,
    (3 # 2 <= request_delay w)%Q ->
    exists wn,
      throttle_times E n w = (Ret tt, wn)
      /\ (last_request w + (3 # 2) * inject_Z (Z.of_nat n)
          <= last_request wn)%Q
      /\ (3 # 2 <= request_delay wn)%Q
      /\ (n <> O -> last_request wn = clock wn).
Proof.
  induction n as [|n IH]; intros w D.
  - exists w. cbn [throttle_times Z.of_nat]. unfold ret.
    change (inject_Z 0) with 0%Q.
    split; [reflexivity|]. split; [lra|]. split; [assumption|].
    intros H. exfalso. apply H. reflexivity.
  - destruct (rate_limit_run E w) as (w1 & R1 & S1 & L1 & _ & D1 & _).
    destruct (IH w1 (proj1 D1)) as (wn & Rn & Sn & Dn & Ln).
    exists wn. cbn [throttle_times].
    rewrite (bind_ret _ _ _ _ _ R1), Rn.
    rewrite Nat2Z.inj_succ, <- Z.add_1_r, inject_Z_plus.
    repeat split; try assumption.
    + change (inject_Z 1) with 1%Q. lra.
    + intros _. destruct n as [|n].
      * cbn [throttle_times] in Rn. unfold ret in Rn.
        injection Rn as <-. exact L1.
      * apply Ln. discriminate.
Qed.

(** X5. After one throttle, [n] more throttles in a row take at least
    [1.5 n] seconds: the clock then stands at least that much after the
    start recorded by the first. *)
Theorem throttle_times_spacing (E : env) (n : nat) (w : world) :
  exists w1 wn,
    _rate_limit E w = (Ret tt, w1)
    /\ throttle_times E n w1 = (Ret tt, wn)
    /\ (last_request w1 + (3 # 2) * inject_Z (Z.of_nat n) <= clock wn)%Q.
Proof.
  destruct (rate_limit_run E w) as (w1 & R1 & _ & L1 & _ & D1 & _).
  destruct (throttle_times_run E n w1 (proj1 D1)) as (wn & Rn & Sn & _ & Ln).
  exists w1, wn. repeat split; try assumption.
  destruct n as [|n].
  - cbn [throttle_times] in Rn. unfold ret in Rn. injection Rn as <-.
    cbn [Z.of_nat]. rewrite <- L1. change (inject_Z 0) with 0%Q. lra.
  - rewrite <- Ln by discriminate. exact Sn.
Qed.

(* ------------------------------------------------------------------ *)
(** ** What the methods leave alone *)

Section Emits.

Variable P : event -> bool.

Lemma emits_quiet {A} (m : M A) :
  (forall w, exists o w',
      m w = (o, w') /\ trace w' = trace w
      /\ last_request w' = last_request w
      /\ request_delay w' = request_delay w
      /\ files w' = files w) ->
  emits P m.
Proof.
  intros H w. destruct (H w) as (o & w' & R & T & L & D & F).
  exists o, w', []. repeat split; auto.
Qed.

Lemma emits_ret {A} (a : A) : emits P (ret a).
Proof. apply emits_quiet. intros w. exists (Ret a), w. repeat split. Qed.

Lemma emits_raise {A} (e : exn) : emits P (@raise A e).
Proof. apply emits_quiet. intros w. exists (Raise e), w. repeat split. Qed.

Lemma emits_lift {A} (o : outcome A) : emits P (lift o).
Proof. apply emits_quiet. intros w. exists o, w. repeat split. Qed.

Lemma emits_record (ev : event) : P ev = true -> emits P (record ev).
Proof.
  intros H w. eexists; eexists; exists [ev].
  split; [split; reflexivity|]. cbn [forallb]. rewrite H.
  repeat split.
Qed.

Lemma emits_bind {A B} (m : M A) (k : A -> M B) :
  emits P m -> (forall a, emits P (k a)) -> emits P (bind m k).
Proof.
  intros Hm Hk w.
  destruct (Hm w) as (o1 & w1 & evs1 & [R1 T1] & G1 & L1 & D1 & F1).
  destruct o1 as [a|e].
  - destruct (Hk a w1) as (o2 & w2 & evs2 & [R2 T2] & G2 & L2 & D2 & F2).
    exists o2, w2, (evs2 ++ evs1)%list. unfold runs.
    rewrite (bind_ret _ _ _ _ _ R1), T2, T1, app_assoc, forallb_app, G2, G1.
    repeat split; try congruence.
    rewrite existsb_app. intros W. apply orb_false_iff in W as [W2 W1].
    rewrite (F2 W2). exact (F1 W1).
  - exists (Raise e), w1, evs1. unfold runs.
    rewrite (bind_raise _ _ _ _ _ R1). repeat split; auto.
Qed.

Lemma emits_try {A} (m : M A) (h : exn -> M A) :
  emits P m -> (forall e, emits P (h e)) -> emits P (try_except m h).
Proof.
  intros Hm Hh w.
  destruct (Hm w) as (o1 & w1 & evs1 & [R1 T1] & G1 & L1 & D1 & F1).
  unfold runs, try_except. rewrite R1. destruct o1 as [a|e].
  - exists (Ret a), w1, evs1. repeat split; auto.
  - destruct (Hh e w1) as (o2 & w2 & evs2 & [R2 T2] & G2 & L2 & D2 & F2).
    exists o2, w2, (evs2 ++ evs1)%list.
    rewrite T2, T1, app_assoc, forallb_app, G2, G1.
    repeat split; try congruence.
    rewrite existsb_app. intros W. apply orb_false_iff in W as [W2 W1].
    rewrite (F2 W2). exact (F1 W1).
Qed.

Lemma emits_invoke {A} (c : call) (answer : outcome A) :
  (forall f, P (Called c f) = true) -> emits P (invoke c answer).
Proof.
  intros H. unfold invoke. apply emits_bind.
  - apply emits_record. apply H.
  - intros _. apply emits_lift.
Qed.

Lemma emits_log (lv : level) (msg : string) :
  P (Logged lv msg) = true -> emits P (log lv msg).
Proof. apply emits_record. Qed.

Lemma emits_ydl_opts (E : env) (audio_only : bool) (format_id : value) :
  emits P (_get_ydl_opts E audio_only format_id).
Proof.
  apply emits_quiet. intros w.
  unfold _get_ydl_opts, bind, random_choice, ret.
  destruct (Py.truthy format_id); [|destruct audio_only];
    eexists; eexists; repeat split.
Qed.

Lemma emits_path_exists (path : string) : emits P (path_exists path).
Proof. apply emits_quiet. intros w. eexists; eexists; repeat split. Qed.

Lemma emits_ydl_download (E : env) (opts : dict) (link : string) :
  (forall f, P (Called (CDownload opts link) f) = true) ->
  emits P (ydl_download E opts link).
Proof.
  intros H w.
  unfold runs, ydl_download, invoke, bind, record, lift, get_files, set_files.
  destruct (download_media E opts link) as [written|e];
    cbn [failure_of fst snd trace files last_request request_delay].
  - eexists; eexists; exists [Called (CDownload opts link) None].
    split; [split; reflexivity|]. cbn [forallb]. rewrite H.
    repeat split. discriminate.
  - eexists; eexists; exists [Called (CDownload opts link) (Some e)].
    split; [split; reflexivity|]. cbn [forallb]. rewrite H.
    repeat split.
Qed.

Lemma emits_os_rename (E : env) (src dst : string) :
  (forall f, P (Called (CRename src dst) f) = true) ->
  emits P (os_rename E src dst).
Proof.
  intros H w.
  unfold runs, os_rename, invoke, bind, record, lift, get_files, set_files.
  destruct (rename_error E src dst) as [e|];
    cbn [failure_of fst snd trace files last_request request_delay].
  - eexists; eexists; exists [Called (CRename src dst) (Some e)].
    split; [split; reflexivity|]. cbn [forallb]. rewrite H.
    repeat split.
  - eexists; eexists; exists [Called (CRename src dst) None].
    split; [split; reflexivity|]. cbn [forallb]. rewrite H.
    repeat split. discriminate.
Qed.

End Emits.

Ltac emits_step :=
  first
    [ apply emits_ret
    | apply emits_raise
    | apply emits_lift
    | apply emits_log; reflexivity
    | apply emits_invoke; intros ?; reflexivity
    | apply emits_ydl_opts
    | apply emits_path_exists
    | apply emits_ydl_download; intros ?; reflexivity
    | apply emits_os_rename; intros ?; reflexivity
    | apply emits_try; [|intros ?]
    | match goal with
      | |- emits _ (if ?c then _ else _) => destruct c
      | |- emits _ (match ?x with Some _ => _ | None => _ end) => destruct x
      end
    | apply emits_bind; [|intros ?] ].

Lemma emits_invidious (E : env) (query : string) :
  emits lookup_event (_get_from_invidious E query).
Proof.
  unfold _get_from_invidious.
  induction invidious_instances as [|base rest IH]; cbn [invidious_loop].
  - apply emits_ret.
  - apply emits_bind.
    + unfold invidious_attempt. repeat emits_step.
    + intros [d|]; [apply emits_ret | exact IH].
Qed.

Lemma emits_details_body (E : env) (target : string) :
  emits lookup_event
    (first <- try_except (details_search E target)
                (fun e =>
                   log Warning ("VideosSearch failed: " ++ exn_msg e) ;;;
                   ret None) ;;
     match first with
     | Some r => ret r
     | None =>
         try_except (details_extract E target)
                    (details_extract_failed E target)
     end).
Proof.
  unfold details_search, details_extract, details_extract_failed.
  repeat first [ apply emits_invidious | emits_step ].
Qed.

Lemma emits_extractor_call {A} (E : env) (opts : dict) (target : string)
  (after : value -> outcome A) :
  emits extractor_event
    (info <- invoke (CExtract opts target) (extract_info E opts target) ;;
     lift (after info)).
Proof. repeat emits_step. Qed.

Lemma emits_download_rest (E : env) (target : string)
  (video songaudio songvideo format_id title : value) :
  emits media_event
    (invoke (CMakedirs "downloads") (makedirs E "downloads") ;;;
     if Py.truthy songvideo then
       opts <- _get_ydl_opts E false format_id ;;
       let file := "downloads/" ++ Py.str title ++ ".mp4" in
       let ydl_opts := Py.store "outtmpl" (VStr file) opts in
       ydl_download E ydl_opts target ;;;
       ret (Path file)
     else if Py.truthy songaudio then
       opts <- _get_ydl_opts E true format_id ;;
       let file := "downloads/" ++ Py.str title ++ ".mp3" in
       let ydl_opts := Py.store "outtmpl" (VStr file) opts in
       ydl_download E ydl_opts target ;;;
       ret (Path file)
     else if Py.truthy video then
       opts <- _get_ydl_opts E false VNone ;;
       let ydl_opts := Py.store "outtmpl" id_template opts in
       info <- invoke (CExtract ydl_opts target)
                 (extract_info E ydl_opts target) ;;
       path <- invoke (CPrepare ydl_opts info)
                 (prepare_filename E ydl_opts info) ;;
       present <- path_exists path ;;
       (if negb present then ydl_download E ydl_opts target else ret tt) ;;;
       ret (PathFlag path true)
     else
       opts <- _get_ydl_opts E true VNone ;;
       let ydl_opts := Py.store "outtmpl" id_template opts in
       info <- invoke (CExtract ydl_opts target)
                 (extract_info E ydl_opts target) ;;
       path <- invoke (CPrepare ydl_opts info)
                 (prepare_filename E ydl_opts info) ;;
       let mp3_path := PyString.splitext_root path ++ ".mp3" in
       present <- path_exists mp3_path ;;
       (if negb present then
          ydl_download E ydl_opts target ;;;
          raw <- path_exists path ;;
          if raw && negb (PyString.endswith path ".mp3")
          then os_rename E path mp3_path
          else ret tt
        else ret tt) ;;;
       ret (PathFlag mp3_path true)).
Proof. cbv zeta. repeat emits_step. Qed.

Lemma forallb_excludes {A} (p q : A -> bool) (l : list A) :
  (forall x, p x = true -> q x = false) ->
  forallb p l = true -> existsb q l = false.
Proof.
  intros H. induction l as [|x l IH]; cbn; [reflexivity|].
  intros Hl. apply andb_true_iff in Hl as [Hx Hl].
  rewrite (H _ Hx), (IH Hl). reflexivity.
Qed.

(** A method made of the throttle, a body and a handler around both. *)
Lemma gated_run {A} (E : env) (P : event -> bool) (body : M A)
  (h : exn -> M A) :
  emits P body -> (forall e, emits P (h e)) ->
  forall w, exists o w1 w' evs sleeps,
    _rate_limit E w = (Ret tt, w1)
    /\ runs (try_except (_rate_limit E ;;; body) h) w o w'
            (evs ++ sleeps)%list
    /\ (sleeps = [] \/ exists d, sleeps = [Called (CSleep d) None])
    /\ forallb P evs = true
    /\ last_request w' = last_request w1
    /\ request_delay w' = request_delay w1
    /\ (existsb writes_files evs = false -> files w' = files w).
Proof.
  intros Hb Hh w.
  destruct (rate_limit_run E w) as (w1 & R1 & _ & _ & _ & _ & F1 & T1).
  destruct (emits_try P body h Hb Hh w1)
    as (o & w' & evs & [R T] & G & L & D & F).
  assert (Run : try_except (_rate_limit E ;;; body) h w = (o, w')).
  { unfold try_except in *. rewrite (bind_ret _ _ _ _ _ R1). exact R. }
  destruct T1 as [T1 | (d & _ & T1)].
  - exists o, w1, w', evs, []. rewrite app_nil_r. unfold runs.
    repeat split; auto; try congruence.
    intros W. rewrite (F W). exact F1.
  - exists o, w1, w', evs, [Called (CSleep d) None]. unfold runs.
    repeat split; eauto; try congruence.
    + rewrite T, T1, <- app_assoc. reflexivity.
    + intros W. rewrite (F W). exact F1.
Qed.

Lemma gated_throttles_once {A} (E : env) (P : event -> bool) (body : M A)
  (h : exn -> M A) :
  (forall ev, P ev = true -> is_throttle_sleep ev = false) ->
  emits P body -> (forall e, emits P (h e)) ->
  throttles_once (try_except (_rate_limit E ;;; body) h).
Proof.
  intros HP Hb Hh w.
  destruct (gated_run E P body h Hb Hh w)
    as (o & w1 & w' & evs & sleeps & R1 & R & S & G & L & D & _).
  destruct (rate_limit_run E w) as (w1' & R1' & S1 & _ & _ & D1 & _).
  rewrite R1 in R1'. injection R1' as <-.
  exists o, w', evs, sleeps. split; [exact R|]. split; [exact S|].
  split; [exact (forallb_excludes _ _ _ HP G)|].
  rewrite L, D. split; assumption.
Qed.

Lemma emits_details_handler (e : exn) :
  emits lookup_event
    (log Error ("Failed to get details: " ++ exn_msg e) ;;;
     ret (VNone, "Failed to process query: " ++ exn_msg e)).
Proof. repeat emits_step. Qed.

Lemma emits_video_handler (e : exn) :
  emits extractor_event
    (log Error ("Stream URL error: " ++ exn_msg e) ;;;
     ret (VNone, "Error getting stream URL: " ++ exn_msg e)).
Proof. repeat emits_step. Qed.

Lemma emits_video_body (E : env) (target : string) :
  emits extractor_event
    (ydl_opts <- _get_ydl_opts E false VNone ;;
     info <- invoke (CExtract ydl_opts target)
               (extract_info E ydl_opts target) ;;
     lift (video_return info)).
Proof. repeat emits_step. Qed.

Lemma emits_playlist_handler (e : exn) :
  emits extractor_event
    (log Error ("Playlist error: " ++ exn_msg e) ;;; ret (@nil value)).
Proof. repeat emits_step. Qed.

Lemma emits_download_handler (e : exn) :
  emits media_event
    (log Error ("Download error: " ++ exn_msg e) ;;;
     @raise download_result
            (mkExn PlainException ("Download failed: " ++ exn_msg e))).
Proof. repeat emits_step. Qed.

(** X6. [details], [video], [playlist] and [download] each throttle
    once, before anything else, and not again: whatever the tiers and
    mirrors they go through, the only sleep of a run is its oldest event.
    Each leaves the recorded start at least [request_delay] after the one
    it found and a new [request_delay] between 1.5 and 2.5. *)
Theorem operations_throttle_once (E : env) (link : string) (videoid : value)
  (limit user_id : Z)
  (mystic video_flag songaudio songvideo format_id title : value) :
  throttles_once (details E link videoid)
  /\ throttles_once (video E link videoid)
  /\ throttles_once (playlist E link limit user_id videoid)
  /\ throttles_once (download E link mystic video_flag videoid songaudio
                              songvideo format_id title).
Proof.
  split; [|split; [|split]].
  - apply (gated_throttles_once E lookup_event).
    + intros [[]|]; cbn; congruence.
    + apply emits_details_body.
    + apply emits_details_handler.
  - apply (gated_throttles_once E extractor_event).
    + intros [[]|]; cbn; congruence.
    + apply emits_video_body.
    + apply emits_video_handler.
  - apply (gated_throttles_once E extractor_event).
    + intros [[]|]; cbn; congruence.
    + apply emits_extractor_call.
    + apply emits_playlist_handler.
  - apply (gated_throttles_once E media_event).
    + intros [[]|]; cbn; congruence.
    + apply emits_download_rest.
    + apply emits_download_handler.
Qed.

(** The events of any method built like [gated_run]'s. *)
Lemma gated_events {A} (E : env) (P : event -> bool) (body : M A)
  (h : exn -> M A) :
  emits P body -> (forall e, emits P (h e)) ->
  forall w, exists o w' evs,
    runs (try_except (_rate_limit E ;;; body) h) w o w' evs
    /\ forallb (fun ev => P ev || is_throttle_sleep ev) evs = true
    /\ (existsb writes_files evs = false -> files w' = files w).
Proof.
  intros Hb Hh w.
  destruct (gated_run E P body h Hb Hh w)
    as (o & w1 & w' & evs & sleeps & _ & R & S & G & _ & _ & F).
  exists o, w', (evs ++ sleeps)%list. split; [exact R|]. split.
  - rewrite forallb_app. apply andb_true_iff. split.
    + eapply forallb_weaken; [|exact G]. intros ev H. rewrite H. reflexivity.
    + destruct S as [-> | (d & ->)]; cbn; [reflexivity|].
      rewrite orb_true_r. reflexivity.
  - rewrite existsb_app. intros W. apply orb_false_iff in W as [W _].
    exact (F W).
Qed.

Lemma details_events (E : env) (link : string) (videoid : value) (w : world) :
  exists o w' evs,
    runs (details E link videoid) w o w' evs
    /\ forallb (fun ev => lookup_event ev || is_throttle_sleep ev) evs = true
    /\ (existsb writes_files evs = false -> files w' = files w).
Proof.
  exact (gated_events E lookup_event _ _
           (emits_details_body E (normalize base_url link videoid))
           emits_details_handler w).
Qed.

Lemma video_events (E : env) (link : string) (videoid : value) (w : world) :
  exists o w' evs,
    runs (video E link videoid) w o w' evs
    /\ forallb (fun ev => extractor_event ev || is_throttle_sleep ev) evs
       = true
    /\ (existsb writes_files evs = false -> files w' = files w).
Proof.
  exact (gated_events E extractor_event _ _
           (emits_video_body E (normalize base_url link videoid))
           emits_video_handler w).
Qed.

Lemma playlist_events (E : env) (link : string) (limit user_id : Z)
  (videoid : value) (w : world) :
  exists o w' evs,
    runs (playlist E link limit user_id videoid) w o w' evs
    /\ forallb (fun ev => extractor_event ev || is_throttle_sleep ev) evs
       = true
    /\ (existsb writes_files evs = false -> files w' = files w).
Proof.
  exact (gated_events E extractor_event _ _
           (emits_extractor_call E (playlist_opts limit)
              (normalize playlist_base link videoid) playlist_return)
           emits_playlist_handler w).
Qed.

Lemma download_events (E : env) (link : string)
  (mystic video_flag videoid songaudio songvideo format_id title : value)
  (w : world) :
  exists o w' evs,
    runs (download E link mystic video_flag videoid songaudio songvideo
                   format_id title) w o w' evs
    /\ forallb (fun ev => media_event ev || is_throttle_sleep ev) evs = true
    /\ (existsb writes_files evs = false -> files w' = files w).
Proof.
  exact (gated_events E media_event _ _
           (emits_download_rest E (normalize base_url link videoid)
              video_flag songaudio songvideo format_id title)
           emits_download_handler w).
Qed.


(** X7. [details], [video] and [playlist] leave the files on disk as they
    are and call neither [os.makedirs], nor [ydl.download], nor
    [os.rename]. *)
Theorem lookups_leave_disk_alone (E : env) (link : string) (videoid : value)
  (limit user_id : Z) (w : world) :
  (exists o w' evs,
      runs (details E link videoid) w o w' evs
      /\ files w' = files w /\ existsb is_disk_call evs = false)
  /\ (exists o w' evs,
      runs (video E link videoid) w o w' evs
      /\ files w' = files w /\ existsb is_disk_call evs = false)
  /\ (exists o w' evs,
      runs (playlist E link limit user_id videoid) w o w' evs
      /\ files w' = files w /\ existsb is_disk_call evs = false).
Proof.
  assert (Lookup : forall ev,
             lookup_event ev || is_throttle_sleep ev = true ->
             is_disk_call ev = false /\ writes_files ev = false).
  { intros [[]|]; cbn; intros H; try discriminate H; auto. }
  assert (Direct : forall ev,
             extractor_event ev || is_throttle_sleep ev = true ->
             is_disk_call ev = false /\ writes_files ev = false).
  { intros [[]|]; cbn; intros H; try discriminate H; auto. }
  split; [|split].
  - destruct (details_events E link videoid w) as (o & w' & evs & R & G & F).
    exists o, w', evs. split; [exact R|]. split.
    + apply F. eapply forallb_excludes; [|exact G].
      intros ev H. apply (Lookup ev H).
    + eapply forallb_excludes; [|exact G]. intros ev H. apply (Lookup ev H).
  - destruct (video_events E link videoid w) as (o & w' & evs & R & G & F).
    exists o, w', evs. split; [exact R|]. split.
    + apply F. eapply forallb_excludes; [|exact G].
      intros ev H. apply (Direct ev H).
    + eapply forallb_excludes; [|exact G]. intros ev H. apply (Direct ev H).
  - destruct (playlist_events E link limit user_id videoid w)
      as (o & w' & evs & R & G & F).
    exists o, w', evs. split; [exact R|]. split.
    + apply F. eapply forallb_excludes; [|exact G].
      intros ev H. apply (Direct ev H).
    + eapply forallb_excludes; [|exact G]. intros ev H. apply (Direct ev H).
Qed.

(** X8. Only [details] asks the search index and the mirrors: [video],
    [playlist] and [download] call neither, whatever the extractor
    answers. *)
Theorem only_details_searches (E : env) (link : string) (videoid : value)
  (limit user_id : Z)
  (mystic video_flag songaudio songvideo format_id title : value)
  (w : world) :
  (exists o w' evs,
      runs (video E link videoid) w o w' evs
      /\ existsb is_search evs = false /\ existsb is_http evs = false)
  /\ (exists o w' evs,
      runs (playlist E link limit user_id videoid) w o w' evs
      /\ existsb is_search evs = false /\ existsb is_http evs = false)
  /\ (exists o w' evs,
      runs (download E link mystic video_flag videoid songaudio songvideo
                     format_id title) w o w' evs
      /\ existsb is_search evs = false /\ existsb is_http evs = false).
Proof.
  assert (Ext : forall ev,
             extractor_event ev || is_throttle_sleep ev = true ->
             is_search ev = false /\ is_http ev = false).
  { intros [[]|]; cbn; intros H; try discriminate H; auto. }
  assert (Media : forall ev,
             media_event ev || is_throttle_sleep ev = true ->
             is_search ev = false /\ is_http ev = false).
  { intros [[]|]; cbn; intros H; try discriminate H; auto. }
  split; [|split].
  - destruct (video_events E link videoid w) as (o & w' & evs & R & G & _).
    exists o, w', evs. split; [exact R|].
    split; (eapply forallb_excludes; [|exact G]);
      intros ev H; apply (Ext ev H).
  - destruct (playlist_events E link limit user_id videoid w)
      as (o & w' & evs & R & G & _).
    exists o, w', evs. split; [exact R|].
    split; (eapply forallb_excludes; [|exact G]);
      intros ev H; apply (Ext ev H).
  - destruct (download_events E link mystic video_flag videoid songaudio
                songvideo format_id title w) as (o & w' & evs & R & G & _).
    exists o, w', evs. split; [exact R|].
    split; (eapply forallb_excludes; [|exact G]);
      intros ev H; apply (Media ev H).
Qed.

(* ------------------------------------------------------------------ *)
(** ** More on [details] *)

(** X9. When the search index has a result that the first tier can map,
    [details] returns it after that one call: the extractor and the
    mirrors are not contacted and nothing is logged. *)
Theorem details_primary_hit_short_circuits (E : env) (link : string)
  (videoid : value) (w : world) (r : value * string) :
  primary_lookup E (normalize base_url link videoid) = Ret (Some r) ->
  exists w' sleeps,
    runs (details E link videoid) w (Ret r) w'
         (Called (CSearch (normalize base_url link videoid)) None :: sleeps)
    /\ (sleeps = [] \/ exists d, sleeps = [Called (CSleep d) None]).
Proof.
  intros H.
  destruct (rate_limit_run E w) as (w1 & R1 & _ & _ & _ & _ & _ & T1).
  unfold primary_lookup in H.
  destruct (search_next E (normalize base_url link videoid)) as [answer|e] eqn:S;
    [cbn [obind] in H | discriminate H].
  assert (Run : forall sleeps,
             trace w1 = (sleeps ++ trace w)%list ->
             runs (details E link videoid) w (Ret r)
                  (mkWorld (last_request w1) (request_delay w1) (clock w1)
                     (steps w1) (files w1)
                     (Called (CSearch (normalize base_url link videoid)) None
                      :: trace w1))
                  (Called (CSearch (normalize base_url link videoid)) None
                   :: sleeps)).
  { intros sleeps T.
    unfold runs, details, try_except. rewrite (bind_ret _ _ _ _ _ R1).
    cbv zeta. unfold details_search, invoke, bind, record, lift, try_except.
    rewrite S. cbn [failure_of fst snd]. rewrite H.
    split; [reflexivity|]. cbn [trace]. rewrite T. reflexivity. }
  destruct T1 as [T1 | (d & Hd & T1)].
  - eexists; exists []. split; [apply Run; exact T1 | left; reflexivity].
  - eexists; exists [Called (CSleep d) None].
    split; [apply Run; exact T1 | right; eauto].
Qed.

Lemma details_primary_hit_short_circuits_witness :
  exists w' sleeps r,
    runs (details live_hit sample_id (VBool true)) (fresh [])
         (Ret (r, EmptyString)) w'
         (Called (CSearch "https://www.youtube.com/watch?v=dQw4w9WgXcQ") None
          :: sleeps)
    /\ field r "duration_sec" VNone = VInt 0.
Proof.
  destruct (details_primary_hit_short_circuits live_hit sample_id (VBool true)
              (fresh [])
              (VDict [ ("title", VStr "Never Gonna Give You Up (live)");
                       ("duration", VNone);
                       ("duration_sec", VInt 0);
                       ("thumbnail",
                        VStr "https://i.ytimg.com/vi/dQw4w9WgXcQ/hq720.jpg");
                       ("id", VStr sample_id);
                       ("url",
                        VStr "https://www.youtube.com/watch?v=dQw4w9WgXcQ") ],
               EmptyString) eq_refl) as (w' & sleeps & R & _).
  exists w', sleeps. eexists. split; [exact R | reflexivity].
Defined.

Lemma py_item_class (v : value) (k : string) (e : exn) :
  Py.item v k = Raise e -> is_extractor_error e = false.
Proof.
  destruct v as [| | | | |d]; cbn; try (intros H; injection H as <-; reflexivity).
  destruct (Py.lookup k d); [discriminate|].
  intros H; injection H as <-; reflexivity.
Qed.

Lemma py_get_class (v : value) (k : string) (x : value) (e : exn) :
  Py.get v k x = Raise e -> is_extractor_error e = false.
Proof.
  destruct v as [| | | | |d]; cbn; try (intros H; injection H as <-; reflexivity).
  destruct (Py.lookup k d); discriminate.
Qed.

Lemma py_item0_class (v : value) (e : exn) :
  Py.item0 v = Raise e -> is_extractor_error e = false.
Proof.
  destruct v as [| | |s|l|d]; cbn;
    try (intros H; injection H as <-; reflexivity).
  - destruct s; [|discriminate]. intros H; injection H as <-; reflexivity.
  - destruct l; [|discriminate]. intros H; injection H as <-; reflexivity.
Qed.

Lemma py_contains_class (k : string) (v : value) (e : exn) :
  Py.contains k v = Raise e -> is_extractor_error e = false.
Proof.
  destruct v; cbn; try discriminate;
    intros H; injection H as <-; reflexivity.
Qed.

(** Whatever the statements after [extract_info] raise, it is no
    extractor error. *)
Lemma details_extract_return_class (info : value) (e : exn) :
  details_extract_return info = Raise e -> is_extractor_error e = false.
Proof.
  unfold details_extract_return.
  destruct (negb (Py.truthy info)); cbn [obind];
    [intros H; injection H as <-; reflexivity|].
  destruct (Py.contains "entries" info) as [has|e0] eqn:C; cbn [obind];
    [|intros H; injection H as <-; exact (py_contains_class _ _ _ C)].
  assert (Rest : forall info' : value,
             obind (Py.get info' "duration" (VInt 0)) (fun duration =>
             obind (Py.get info' "title" (VStr "Unknown Title")) (fun title =>
             obind (Py.get info' "thumbnail" VNone) (fun thumb =>
             obind (if Py.truthy thumb then Ret thumb
                    else obind (Py.item info' "id") (fun id =>
                           Ret (VStr ("https://i.ytimg.com/vi/" ++ Py.str id
                                      ++ "/hqdefault.jpg")))) (fun thumbnail =>
             obind (Py.item info' "id") (fun id =>
             obind (Py.item info' "id") (fun id_u =>
               Ret (VDict [ ("title", title);
                            ("duration", duration);
                            ("duration_sec", duration);
                            ("thumbnail", thumbnail);
                            ("id", id);
                            ("url", VStr (base_url ++ Py.str id_u)) ],
                    EmptyString))))))) = Raise e ->
             is_extractor_error e = false).
  { intros info'.
    destruct (Py.get info' "duration" (VInt 0)) as [duration|e0] eqn:G1;
      cbn [obind];
      [|intros H; injection H as <-; exact (py_get_class _ _ _ _ G1)].
    destruct (Py.get info' "title" (VStr "Unknown Title")) as [title|e0] eqn:G2;
      cbn [obind];
      [|intros H; injection H as <-; exact (py_get_class _ _ _ _ G2)].
    destruct (Py.get info' "thumbnail" VNone) as [thumb|e0] eqn:G3;
      cbn [obind];
      [|intros H; injection H as <-; exact (py_get_class _ _ _ _ G3)].
    destruct (Py.item info' "id") as [id|e0] eqn:I; cbn [obind].
    - destruct (Py.truthy thumb); cbn [obind]; discriminate.
    - destruct (Py.truthy thumb); cbn [obind];
        intros H; injection H as <-; exact (py_item_class _ _ _ I). }
  destruct has; cbn [obind]; [|apply Rest].
  destruct (Py.item info "entries") as [entries|e0] eqn:I; cbn [obind];
    [|intros H; injection H as <-; exact (py_item_class _ _ _ I)].
  destruct (Py.is_list entries && Py.truthy entries).
  - destruct (Py.item0 entries) as [first|e0] eqn:I0; cbn [obind];
      [apply Rest|].
    intros H; injection H as <-; exact (py_item0_class _ _ I0).
  - cbn [obind]. intros H; injection H as <-; reflexivity.
Qed.

Lemma emits_try_guarded {A} (P : event -> bool) (Q : exn -> Prop)
  (m : M A) (h : exn -> M A) :
  emits P m ->
  (forall w e w', m w = (Raise e, w') -> Q e) ->
  (forall e, Q e -> emits P (h e)) ->
  emits P (try_except m h).
Proof.
  intros Hm Hq Hh w.
  destruct (Hm w) as (o1 & w1 & evs1 & [R1 T1] & G1 & L1 & D1 & F1).
  unfold runs, try_except. rewrite R1. destruct o1 as [a|e].
  - exists (Ret a), w1, evs1. repeat split; auto.
  - destruct (Hh e (Hq _ _ _ R1) w1)
      as (o2 & w2 & evs2 & [R2 T2] & G2 & L2 & D2 & F2).
    exists o2, w2, (evs2 ++ evs1)%list.
    rewrite T2, T1, app_assoc, forallb_app, G2, G1.
    repeat split; try congruence.
    rewrite existsb_app. intros W. apply orb_false_iff in W as [W2 W1].
    rewrite (F2 W2). exact (F1 W1).
Qed.

Lemma details_extract_raises (E : env) (target : string) (w w' : world)
  (e : exn) :
  (forall opts, sign_in_error (extract_info E opts target) = false) ->
  details_extract E target w = (Raise e, w') ->
  is_extractor_error e && PyString.contains "Sign in" (exn_msg e) = false.
Proof.
  intros H.
  destruct (ydl_opts_run E true VNone w) as (opts & w1 & R1 & _ & _).
  unfold details_extract. rewrite (bind_ret _ _ _ _ _ R1).
  unfold invoke, bind, record, lift. specialize (H opts).
  destruct (extract_info E opts target) as [info|e0]; cbn [fst snd].
  - destruct (details_extract_return info) as [r|e0] eqn:D; [discriminate|].
    intros X; injection X as <- _.
    rewrite (details_extract_return_class _ _ D). reflexivity.
  - intros X; injection X as <- _. exact H.
Qed.

Lemma emits_details_direct (E : env) (target : string) :
  (forall opts, sign_in_error (extract_info E opts target) = false) ->
  emits direct_event
    (first <- try_except (details_search E target)
                (fun e =>
                   log Warning ("VideosSearch failed: " ++ exn_msg e) ;;;
                   ret None) ;;
     match first with
     | Some r => ret r
     | None =>
         try_except (details_extract E target)
                    (details_extract_failed E target)
     end).
Proof.
  intros H. apply emits_bind.
  - unfold details_search. repeat emits_step.
  - intros [r|]; [apply emits_ret|].
    apply (emits_try_guarded direct_event
             (fun e => is_extractor_error e
                       && PyString.contains "Sign in" (exn_msg e) = false)).
    + unfold details_extract. repeat emits_step.
    + intros w e w'. apply details_extract_raises. exact H.
    + intros e Q. unfold details_extract_failed.
      destruct (is_extractor_error e); [|repeat emits_step].
      cbn [andb] in Q. rewrite Q. repeat emits_step.
Qed.

Lemma emits_details_handler_direct (e : exn) :
  emits direct_event
    (log Error ("Failed to get details: " ++ exn_msg e) ;;;
     ret (VNone, "Failed to process query: " ++ exn_msg e)).
Proof. repeat emits_step. Qed.

(** X10. As long as the extractor raises no extractor error that
    mentions a sign-in, [details] makes no HTTP request to a mirror,
    whatever else fails. *)
Theorem details_mirrors_need_sign_in (E : env) (link : string)
  (videoid : value) (w : world) :
  (forall opts,
      sign_in_error (extract_info E opts (normalize base_url link videoid))
      = false) ->
  exists o w' evs,
    runs (details E link videoid) w o w' evs
    /\ existsb is_http evs = false.
Proof.
  intros H.
  destruct (gated_events E direct_event _ _
              (emits_details_direct E (normalize base_url link videoid) H)
              emits_details_handler_direct w) as (o & w' & evs & R & G & _).
  exists o, w', evs. split; [exact R|].
  eapply forallb_excludes; [|exact G].
  intros [[]|]; cbn; intros X; try discriminate X; reflexivity.
Qed.

Lemma details_mirrors_need_sign_in_witness :
  exists o w' evs,
    runs (details no_info sample_id (VBool true)) (fresh []) o w' evs
    /\ existsb is_http evs = false.
Proof.
  apply (details_mirrors_need_sign_in no_info sample_id (VBool true)
           (fresh [])).
  intros opts. reflexivity.
Defined.

Lemma details_extract_return_url (info : value) (r : value * string) :
  details_extract_return info = Ret r ->
  field (fst r) "url" VNone
  = VStr (base_url ++ Py.str (field (fst r) "id" VNone)).
Proof.
  unfold details_extract_return, obind.
  repeat match goal with
         | |- context [match ?o with Ret _ => _ | Raise _ => _ end] =>
             destruct o; try discriminate
         end.
  intros H; injection H as <-. reflexivity.
Qed.

(** X11. Whenever the first tier has no result, a VideoRef that [details]
    returns has the canonical URL of its ID: [url] is [base_url] followed
    by the ID as text, for the extractor's answer and for a mirror's
    alike. *)
Theorem details_url_from_id (E : env) (link : string) (videoid : value)
  (w : world) :
  primary_fails E (normalize base_url link videoid) = true ->
  exists r msg w',
    details E link videoid w = (Ret (r, msg), w')
    /\ (r = VNone
        \/ field r "url" VNone
           = VStr (base_url ++ Py.str (field r "id" VNone))).
Proof.
  intros P.
  destruct (details_run E link videoid w) as (opts & w' & evs & [R _] & _).
  assert (A : let a := details_answer E opts (normalize base_url link videoid) in
              fst a = VNone
              \/ field (fst a) "url" VNone
                 = VStr (base_url ++ Py.str (field (fst a) "id" VNone))).
  { unfold details_answer, secondary_lookup. unfold primary_fails in P.
    assert (S : let a :=
                  match obind (extract_info E opts
                                 (normalize base_url link videoid))
                              details_extract_return with
                  | Ret r => r
                  | Raise e =>
                      extract_failed_answer E
                        (normalize base_url link videoid) e
                  end in
                fst a = VNone
                \/ field (fst a) "url" VNone
                   = VStr (base_url ++ Py.str (field (fst a) "id" VNone))).
    { destruct (obind _ details_extract_return) as [r|e] eqn:X.
      - right. destruct (extract_info E opts _); [|discriminate X].
        exact (details_extract_return_url _ _ X).
      - unfold extract_failed_answer.
        destruct (is_extractor_error e); [|left; reflexivity].
        destruct (if PyString.contains "Sign in" (exn_msg e) then _ else _);
          [right; reflexivity | left; reflexivity]. }
    destruct (primary_lookup E (normalize base_url link videoid))
      as [[r|]|]; [discriminate P | exact S | exact S]. }
  destruct (details_answer E opts (normalize base_url link videoid))
    as [r msg].
  exists r, msg, w'. split; [exact R | exact A].
Qed.

Lemma details_url_from_id_witness :
  exists r msg w',
    details media_library sample_id (VBool true) (fresh [])
    = (Ret (r, msg), w')
    /\ (r = VNone
        \/ field r "url" VNone
           = VStr (base_url ++ Py.str (field r "id" VNone))).
Proof.
  apply (details_url_from_id media_library sample_id (VBool true) (fresh [])).
  reflexivity.
Defined.

(** X12. Given the info of a playlist, the second tier answers as for
    the first entry alone, provided that entry is a non-empty dictionary
    without entries of its own: the other entries play no part. *)
Theorem details_extract_first_entry (d entry : dict) (others : list value) :
  Py.lookup "entries" d = Some (VList (VDict entry :: others)) ->
  entry <> [] ->
  Py.lookup "entries" entry = None ->
  details_extract_return (VDict d) = details_extract_return (VDict entry).
Proof.
  intros L Hne Hn.
  assert (Td : Py.truthy (VDict d) = true)
    by (destruct d; [discriminate L | reflexivity]).
  assert (Te : Py.truthy (VDict entry) = true)
    by (destruct entry; [contradiction | reflexivity]).
  unfold details_extract_return. rewrite Td, Te. cbn [negb obind].
  unfold Py.contains, Py.item at 1. rewrite L, Hn. cbn [obind].
  reflexivity.
Qed.

Lemma details_extract_first_entry_witness :
  details_extract_return
    (VDict [ ("id", VStr "PL0123456789");
             ("entries", VList [ sample_info; VNone ]) ])
  = details_extract_return sample_info.
Proof.
  apply (details_extract_first_entry
           [ ("id", VStr "PL0123456789");
             ("entries", VList [ sample_info; VNone ]) ]
           [ ("id", VStr sample_id);
             ("title", VStr "Never Gonna Give You Up");
             ("duration", VInt 213);
             ("ext", VStr "webm") ]
           [ VNone ]).
  - reflexivity.
  - discriminate.
  - reflexivity.
Defined.

(* ------------------------------------------------------------------ *)
(** ** More on [video] and [playlist] *)

Lemma video_return_shape (info : value) (r : value * string) :
  video_return info = Ret r ->
  (Py.truthy (fst r) = true /\ snd r = EmptyString)
  \/ (fst r = VNone /\ snd r <> EmptyString).
Proof.
  unfold video_return.
  destruct (negb (Py.truthy info));
    [intros H; injection H as <-; right; split; [reflexivity|discriminate]|].
  destruct info as [| | | | |d]; cbn [Py.get obind]; try discriminate.
  destruct (Py.lookup "url" d) as [x|] eqn:L; cbn [obind].
  - destruct (Py.truthy x) eqn:T; cbn [negb].
    + unfold Py.item. rewrite L. cbn [obind].
      intros H; injection H as <-. left. split; [exact T | reflexivity].
    + intros H; injection H as <-. right. split; [reflexivity|discriminate].
  - cbn [Py.truthy negb].
    intros H; injection H as <-. right. split; [reflexivity|discriminate].
Qed.

(** X13. [video] returns either a stream URL that is not empty together
    with the empty error string, or [None] together with a message that
    is not empty. *)
Theorem video_result_exclusive (E : env) (link : string) (videoid : value)
  (w : world) :
  exists r msg w',
    video E link videoid w = (Ret (r, msg), w')
    /\ ((Py.truthy r = true /\ msg = EmptyString)
        \/ (r = VNone /\ msg <> EmptyString)).
Proof.
  destruct (video_run E link videoid w) as (opts & w' & evs & [R _] & _).
  destruct (obind (extract_info E opts (normalize base_url link videoid))
                  video_return) as [[r msg]|e] eqn:X.
  - exists r, msg, w'. split; [exact R|].
    destruct (extract_info E opts _); [|discriminate X].
    exact (video_return_shape _ _ X).
  - eexists; eexists; exists w'. split; [exact R|].
    right. split; [reflexivity | discriminate].
Qed.

Lemma entry_ids_truthy (entries : list value) (ids : list value) :
  entry_ids entries = Ret ids -> forallb Py.truthy ids = true.
Proof.
  revert ids. induction entries as [|entry rest IH]; intros ids;
    cbn [entry_ids].
  - intros H; injection H as <-. reflexivity.
  - destruct entry as [| | | | |d]; cbn [Py.get obind]; try discriminate.
    destruct (Py.lookup "id" d) as [x|] eqn:L; cbn [obind].
    + destruct (Py.truthy x) eqn:T; [|apply IH].
      unfold Py.item. rewrite L. cbn [obind].
      destruct (entry_ids rest) as [xs|]; [|discriminate]. cbn [obind].
      intros H; injection H as <-. cbn [forallb]. rewrite T.
      apply IH. reflexivity.
    + cbn [Py.truthy]. apply IH.
Qed.

Lemma playlist_return_truthy (info : value) (ids : list value) :
  playlist_return info = Ret ids -> forallb Py.truthy ids = true.
Proof.
  unfold playlist_return.
  destruct (negb (Py.truthy info));
    [intros H; injection H as <-; reflexivity|].
  destruct (Py.get info "entries" VNone) as [got|]; [|discriminate].
  cbn [obind].
  destruct (negb (Py.truthy got));
    [intros H; injection H as <-; reflexivity|].
  destruct (Py.item info "entries") as [entries|]; [|discriminate].
  cbn [obind].
  destruct (Py.iterate entries) as [items|]; [|discriminate].
  cbn [obind]. apply entry_ids_truthy.
Qed.

(** X14. No ID that [playlist] returns is [None] or empty, whatever the
    extractor answers. *)
Theorem playlist_ids_truthy (E : env) (link : string) (limit user_id : Z)
  (videoid : value) (w : world) :
  exists ids w',
    playlist E link limit user_id videoid w = (Ret ids, w')
    /\ forallb Py.truthy ids = true.
Proof.
  destruct (playlist_run E link limit user_id videoid w)
    as (w' & evs & [R _] & _).
  eexists; exists w'. split; [exact R|].
  destruct (obind _ playlist_return) as [ids|e] eqn:X; [|reflexivity].
  destruct (extract_info E _ _); [|discriminate X].
  exact (playlist_return_truthy _ _ X).
Qed.

(* ------------------------------------------------------------------ *)
(** ** More on [download] *)

Lemma lookup_store_same (k : string) (x : value) (d : dict) :
  Py.lookup k (Py.store k x d) = Some x.
Proof.
  induction d as [|[k' y] d IH]; cbn.
  - rewrite String.eqb_refl. reflexivity.
  - destruct (String.eqb k k') eqn:K; cbn.
    + rewrite String.eqb_refl. reflexivity.
    + rewrite K. exact IH.
Qed.

Lemma lookup_store_other (k k' : string) (x : value) (d : dict) :
  String.eqb k k' = false ->
  Py.lookup k (Py.store k' x d) = Py.lookup k d.
Proof.
  intros N. induction d as [|[k0 y] d IH]; cbn.
  - rewrite N. reflexivity.
  - destruct (String.eqb k' k0) eqn:K; cbn.
    + apply String.eqb_eq in K as <-. rewrite N. reflexivity.
    + destruct (String.eqb k k0); [reflexivity | exact IH].
Qed.

(** The options [_get_ydl_opts] makes of a format id. *)
Lemma ydl_opts_with_format (E : env) (audio_only : bool) (format_id : value)
  (w : world) :
  Py.truthy format_id = true ->
  exists opts w',
    _get_ydl_opts E audio_only format_id w = (Ret opts, w')
    /\ trace w' = trace w
    /\ Py.lookup "format" opts = Some format_id
    /\ Py.lookup "postprocessors" opts = None.
Proof.
  intros T. unfold _get_ydl_opts, bind, random_choice, ret. rewrite T.
  eexists; eexists. repeat split.
Qed.

(** X15. In the audio snippet mode, a format id switches the conversion
    off: the extractor's download is called with that id as the format,
    without any post-processor, although the file it is told to write
    is named [downloads/<title>.mp3]. *)
Theorem songaudio_format_id_skips_mp3 (E : env) (link : string)
  (mystic video_flag videoid songaudio songvideo format_id title : value)
  (w : world) :
  Py.truthy songvideo = false ->
  Py.truthy songaudio = true ->
  Py.truthy format_id = true ->
  makedirs E "downloads" = Ret tt ->
  exists o w' evs opts,
    runs (download E link mystic video_flag videoid songaudio songvideo
                   format_id title) w o w' evs
    /\ In (Called (CDownload opts (normalize base_url link videoid))
                  (failure_of (download_media E opts
                                 (normalize base_url link videoid)))) evs
    /\ Py.lookup "format" opts = Some format_id
    /\ Py.lookup "postprocessors" opts = None
    /\ Py.lookup "outtmpl" opts
       = Some (VStr ("downloads/" ++ Py.str title ++ ".mp3")).
Proof.
  intros Hsv Hsa Hf Hmk.
  destruct (rate_limit_frame E w) as (w1 & evs1 & [R1 T1] & F1 & S1).
  unfold download, download_body, runs, try_except. cbv zeta.
  rewrite (bind_ret _ _ _ _ _ R1), Hmk.
  rewrite (bind_ret _ _ _ _ _ (invoke_ret _ _ _)).
  rewrite Hsv, Hsa.
  match goal with |- context [bind (_get_ydl_opts E true format_id) _ ?w0] =>
    destruct (ydl_opts_with_format E true format_id w0 Hf)
      as (opts & w2 & R2 & T2 & Lf & Lp)
  end.
  rewrite (bind_ret _ _ _ _ _ R2).
  set (ydl_opts := Py.store "outtmpl"
                     (VStr ("downloads/" ++ Py.str title ++ ".mp3")) opts).
  assert (Lookups : Py.lookup "format" ydl_opts = Some format_id
                    /\ Py.lookup "postprocessors" ydl_opts = None
                    /\ Py.lookup "outtmpl" ydl_opts
                       = Some (VStr ("downloads/" ++ Py.str title ++ ".mp3"))).
  { subst ydl_opts.
    rewrite !lookup_store_other by reflexivity.
    rewrite lookup_store_same. auto. }
  unfold ydl_download, invoke, bind, record, lift, get_files, set_files,
    ret, log, raise.
  destruct (download_media E ydl_opts (normalize base_url link videoid))
    as [written|e] eqn:D; cbn [fst snd failure_of trace].
  - eexists; eexists;
      exists (Called (CDownload ydl_opts (normalize base_url link videoid)) None
              :: Called (CMakedirs "downloads") None :: evs1), ydl_opts.
    split; [split; [reflexivity|]|].
    + cbn [trace]. rewrite T2. cbn [trace]. rewrite T1. reflexivity.
    + rewrite D. split; [left; reflexivity | exact Lookups].
  - eexists; eexists;
      exists (Logged Error ("Download error: " ++ exn_msg e)
              :: Called (CDownload ydl_opts (normalize base_url link videoid))
                        (Some e)
              :: Called (CMakedirs "downloads") None :: evs1), ydl_opts.
    split; [split; [reflexivity|]|].
    + cbn [trace]. rewrite T2. cbn [trace]. rewrite T1. reflexivity.
    + rewrite D. split; [right; left; reflexivity | exact Lookups].
Qed.

Lemma songaudio_format_id_skips_mp3_witness :
  exists o w' evs opts,
    runs (download media_library sample_id VNone VNone (VBool true)
                   (VBool true) VNone (VStr "140") (VStr "song"))
         (fresh []) o w' evs
    /\ In (Called (CDownload opts (normalize base_url sample_id (VBool true)))
                  (failure_of (download_media media_library opts
                                 (normalize base_url sample_id (VBool true)))))
          evs
    /\ Py.lookup "format" opts = Some (VStr "140")
    /\ Py.lookup "postprocessors" opts = None
    /\ Py.lookup "outtmpl" opts = Some (VStr "downloads/song.mp3").
Proof.
  apply (songaudio_format_id_skips_mp3 media_library sample_id VNone VNone
           (VBool true) (VBool true) VNone (VStr "140") (VStr "song")
           (fresh []));
    reflexivity.
Defined.

Lemma string_length_app (a b : string) :
  String.length (a ++ b) = (String.length a + String.length b)%nat.
Proof. induction a as [|c a IH]; cbn; [|rewrite IH]; reflexivity. Qed.

Lemma substring_all (s : string) :
  String.substring 0 (String.length s) s = s.
Proof. induction s as [|c s IH]; cbn; [|rewrite IH]; reflexivity. Qed.

Lemma substring_skip (a s : string) (k : nat) :
  String.substring (String.length a) k (a ++ s) = String.substring 0 k s.
Proof. induction a as [|c a IH]; cbn; [reflexivity | exact IH]. Qed.

Lemma endswith_app (a s : string) : PyString.endswith (a ++ s) s = true.
Proof.
  unfold PyString.endswith. rewrite string_length_app.
  apply andb_true_iff. split.
  - apply Nat.leb_le. lia.
  - replace (String.length a + String.length s - String.length s)%nat
      with (String.length a) by lia.
    rewrite substring_skip, substring_all. apply String.eqb_refl.
Qed.

Section Returns.

Context {A : Type} (Q : A -> Prop).

Lemma returns_ret (a : A) : Q a -> returns Q (ret a).
Proof. intros H w a' w' R. injection R as <- _. exact H. Qed.

Lemma returns_raise (e : exn) : returns Q (raise e).
Proof. intros w a w' R. discriminate R. Qed.

Lemma returns_bind {B} (m : M B) (k : B -> M A) :
  (forall b, returns Q (k b)) -> returns Q (bind m k).
Proof.
  intros H w a w' R. unfold bind in R.
  destruct (m w) as [[b|e] w1]; [|discriminate R].
  exact (H b w1 a w' R).
Qed.

Lemma returns_try (m : M A) (h : exn -> M A) :
  returns Q m -> (forall e, returns Q (h e)) -> returns Q (try_except m h).
Proof.
  intros Hm Hh w a w' R. unfold try_except in R.
  destruct (m w) as [[b|e] w1] eqn:X.
  - injection R as <- <-. exact (Hm w b w1 X).
  - exact (Hh e w1 a w' R).
Qed.

End Returns.

(** X16. What [download] returns depends on the mode alone: the bare
    path [downloads/<title>.mp4] when [songvideo] is set, else the bare
    path [downloads/<title>.mp3] when [songaudio] is set, else a pair of
    a path and [True]; with none of the three flags set the path ends in
    [.mp3]. *)
Theorem download_result_by_mode (E : env) (link : string)
  (mystic video_flag videoid songaudio songvideo format_id title : value)
  (w w' : world) (r : download_result) :
  download E link mystic video_flag videoid songaudio songvideo format_id
           title w = (Ret r, w') ->
  mode_result video_flag songaudio songvideo title r.
Proof.
  revert w r w'.
  change (returns (mode_result video_flag songaudio songvideo title)
            (download E link mystic video_flag videoid songaudio songvideo
                      format_id title)).
  unfold download, download_body, mode_result. cbv zeta.
  apply returns_try;
    [|intros e; apply returns_bind; intros _; apply returns_raise].
  apply returns_bind; intros _. apply returns_bind; intros _.
  destruct (Py.truthy songvideo).
  { repeat (apply returns_bind; intros ?). apply returns_ret. reflexivity. }
  destruct (Py.truthy songaudio).
  { repeat (apply returns_bind; intros ?). apply returns_ret. reflexivity. }
  destruct (Py.truthy video_flag).
  - do 5 (apply returns_bind; intros ?). apply returns_ret.
    eexists. split; [reflexivity | discriminate].
  - do 5 (apply returns_bind; intros ?). apply returns_ret.
    eexists. split; [reflexivity|]. intros _. apply endswith_app.
Qed.

Lemma download_result_by_mode_witness :
  mode_result VNone VNone VNone VNone
              (PathFlag "downloads/dQw4w9WgXcQ.mp3" true).
Proof.
  apply (download_result_by_mode media_library sample_id VNone VNone
           (VBool true) VNone VNone VNone VNone
           (fresh ["downloads/dQw4w9WgXcQ.mp3"])
           (snd (download media_library sample_id VNone VNone (VBool true)
                          VNone VNone VNone VNone
                          (fresh ["downloads/dQw4w9WgXcQ.mp3"])))).
  vm_compute. reflexivity.
Defined.

Lemma bind_bind {A B C} (m : M A) (k : A -> M B) (k' : B -> M C) (w : world) :
  bind (bind m k) k' w = bind m (fun a => bind (k a) k') w.
Proof. unfold bind. destruct (m w) as [[a|e] w1]; reflexivity. Qed.

Lemma ydl_download_ret (E : env) (opts : dict) (link : string)
  (written : list string) (w : world) :
  download_media E opts link = Ret written ->
  ydl_download E opts link w
  = (Ret tt,
     mkWorld (last_request w) (request_delay w) (clock w) (steps w)
             (written ++ files w)%list
             (Called (CDownload opts link) None :: trace w)).
Proof.
  intros H. unfold ydl_download, invoke, bind, record, lift, get_files,
    set_files. rewrite H. reflexivity.
Qed.

Lemma os_rename_ret (E : env) (src dst : string) (w : world) :
  rename_error E src dst = None ->
  os_rename E src dst w
  = (Ret tt,
     mkWorld (last_request w) (request_delay w) (clock w) (steps w)
             (dst :: filter (fun p => negb (String.eqb p src)) (files w))
             (Called (CRename src dst) None :: trace w)).
Proof. intros H. unfold os_rename. rewrite H. reflexivity. Qed.

Lemma existsb_filter_out (s : string) (l : list string) :
  existsb (String.eqb s) (filter (fun p => negb (String.eqb p s)) l) = false.
Proof.
  induction l as [|p l IH]; cbn; [reflexivity|].
  destruct (String.eqb p s) eqn:X; cbn; [exact IH|].
  rewrite String.eqb_sym, X. exact IH.
Qed.

(** X17. In the default mode, when the mp3 is not there yet, the
    extractor's download writes the file it prepared under another
    extension and the rename goes through, [download] returns the mp3
    path with [True]; that path is then on disk and the downloaded file is
    no longer there under its own name. *)
Theorem download_audio_renames (E : env) (link : string)
  (mystic video_flag videoid songaudio songvideo format_id title : value)
  (w : world) (info : value) (raw : string) :
  Py.truthy songvideo = false ->
  Py.truthy songaudio = false ->
  Py.truthy video_flag = false ->
  makedirs E "downloads" = Ret tt ->
  (forall opts, extract_info E opts (normalize base_url link videoid)
                = Ret info) ->
  (forall opts, prepare_filename E opts info = Ret raw) ->
  (forall opts, download_media E opts (normalize base_url link videoid)
                = Ret [raw]) ->
  on_disk (PyString.splitext_root raw ++ ".mp3") w = false ->
  PyString.endswith raw ".mp3" = false ->
  rename_error E raw (PyString.splitext_root raw ++ ".mp3") = None ->
  exists w',
    download E link mystic video_flag videoid songaudio songvideo format_id
             title w
    = (Ret (PathFlag (PyString.splitext_root raw ++ ".mp3") true), w')
    /\ on_disk (PyString.splitext_root raw ++ ".mp3") w' = true
    /\ on_disk raw w' = false.
Proof.
  intros Hsv Hsa Hv Hmk Hx Hp Hd Habsent Hext Hrn.
  destruct (rate_limit_frame E w) as (w1 & evs1 & [R1 T1] & F1 & S1).
  unfold download, download_body, try_except. cbv zeta.
  rewrite (bind_ret _ _ _ _ _ R1), Hmk.
  rewrite (bind_ret _ _ _ _ _ (invoke_ret _ _ _)).
  rewrite Hsv, Hsa, Hv.
  match goal with |- context [bind (_get_ydl_opts E true VNone) _ ?w0] =>
    destruct (ydl_opts_run E true VNone w0) as (opts & w2 & R2 & T2 & F2)
  end.
  rewrite (bind_ret _ _ _ _ _ R2), Hx.
  rewrite (bind_ret _ _ _ _ _ (invoke_ret _ _ _)), Hp.
  rewrite (bind_ret _ _ _ _ _ (invoke_ret _ _ _)).
  rewrite (bind_ret _ _ _ _ _ (path_exists_run _ _)).
  cbn [files] in F2. unfold on_disk in *. cbn [files].
  rewrite F2, F1, Habsent. cbn [negb].
  rewrite bind_bind.
  rewrite (bind_ret _ _ _ _ _ (ydl_download_ret _ _ _ _ _ (Hd _))).
  rewrite bind_bind.
  rewrite (bind_ret _ _ _ _ _ (path_exists_run _ _)).
  unfold on_disk. cbn [files app existsb].
  rewrite String.eqb_refl, Hext. cbn [orb andb negb].
  rewrite (bind_ret _ _ _ _ _ (os_rename_ret _ _ _ _ Hrn)).
  eexists. split; [reflexivity|]. cbn [files existsb].
  rewrite String.eqb_refl. split; [reflexivity|].
  cbn [filter]. rewrite String.eqb_refl. cbn [negb].
  rewrite existsb_filter_out, orb_false_r.
  apply String.eqb_neq. intros Heq. rewrite Heq in Hext.
  rewrite endswith_app in Hext. discriminate Hext.
Qed.

Lemma download_audio_renames_witness :
  exists w',
    download raw_library sample_id VNone VNone (VBool true) VNone VNone VNone
             VNone (fresh [])
    = (Ret (PathFlag "downloads/dQw4w9WgXcQ.mp3" true), w')
    /\ on_disk "downloads/dQw4w9WgXcQ.mp3" w' = true
    /\ on_disk "downloads/dQw4w9WgXcQ.webm" w' = false.
Proof.
  apply (download_audio_renames raw_library sample_id VNone VNone (VBool true)
           VNone VNone VNone VNone (fresh []) sample_info
           "downloads/dQw4w9WgXcQ.webm");
    reflexivity.
Defined.

(** X18. In the full-video mode [download] does not look at the disk
    again after the extractor's download: when that call returns without
    having written the file, [download] still returns its path with
    [True], and the path is not on disk. *)
Theorem download_video_unchecked (E : env) (link : string)
  (mystic video_flag videoid songaudio songvideo format_id title : value)
  (w : world) (info : value) (path : string) :
  Py.truthy songvideo = false ->
  Py.truthy songaudio = false ->
  Py.truthy video_flag = true ->
  makedirs E "downloads" = Ret tt ->
  (forall opts, extract_info E opts (normalize base_url link videoid)
                = Ret info) ->
  (forall opts, prepare_filename E opts info = Ret path) ->
  (forall opts, download_media E opts (normalize base_url link videoid)
                = Ret []) ->
  on_disk path w = false ->
  exists w',
    download E link mystic video_flag videoid songaudio songvideo format_id
             title w
    = (Ret (PathFlag path true), w')
    /\ on_disk path w' = false.
Proof.
  intros Hsv Hsa Hv Hmk Hx Hp Hd Habsent.
  destruct (rate_limit_frame E w) as (w1 & evs1 & [R1 T1] & F1 & S1).
  unfold download, download_body, try_except. cbv zeta.
  rewrite (bind_ret _ _ _ _ _ R1), Hmk.
  rewrite (bind_ret _ _ _ _ _ (invoke_ret _ _ _)).
  rewrite Hsv, Hsa, Hv.
  match goal with |- context [bind (_get_ydl_opts E false VNone) _ ?w0] =>
    destruct (ydl_opts_run E false VNone w0) as (opts & w2 & R2 & T2 & F2)
  end.
  rewrite (bind_ret _ _ _ _ _ R2), Hx.
  rewrite (bind_ret _ _ _ _ _ (invoke_ret _ _ _)), Hp.
  rewrite (bind_ret _ _ _ _ _ (invoke_ret _ _ _)).
  rewrite (bind_ret _ _ _ _ _ (path_exists_run _ _)).
  cbn [files] in F2. unfold on_disk in *. cbn [files].
  rewrite F2, F1, Habsent. cbn [negb].
  rewrite (bind_ret _ _ _ _ _ (ydl_download_ret _ _ _ _ _ (Hd _))).
  eexists. split; [reflexivity|]. cbn [files app].
  rewrite ?F2, ?F1. exact Habsent.
Qed.

Lemma download_video_unchecked_witness :
  exists w',
    download idle_library sample_id VNone (VBool true) (VBool true) VNone
             VNone VNone VNone (fresh [])
    = (Ret (PathFlag "downloads/dQw4w9WgXcQ.webm" true), w')
    /\ on_disk "downloads/dQw4w9WgXcQ.webm" w' = false.
Proof.
  apply (download_video_unchecked idle_library sample_id VNone (VBool true)
           (VBool true) VNone VNone VNone VNone (fresh []) sample_info
           "downloads/dQw4w9WgXcQ.webm");
    reflexivity.
Defined.

(** X19. When the directory cannot be made, [download] raises
    [Exception("Download failed: ...")] with the message of that failure
    in every mode, having called nothing but the throttle and
    [os.makedirs]: the extractor is not contacted. *)
Theorem download_makedirs_failure (E : env) (link : string)
  (mystic video_flag videoid songaudio songvideo format_id title : value)
  (w : world) (e : exn) :
  makedirs E "downloads" = Raise e ->
  exists w' sleeps,
    runs (download E link mystic video_flag videoid songaudio songvideo
                   format_id title) w (Raise (download_failed e)) w'
         (Logged Error ("Download error: " ++ exn_msg e)
          :: Called (CMakedirs "downloads") (Some e) :: sleeps)
    /\ forallb is_sleep sleeps = true.
Proof.
  intros Hmk.
  destruct (rate_limit_frame E w) as (w1 & evs1 & [R1 T1] & F1 & S1).
  unfold download, download_body, runs, try_except. cbv zeta.
  rewrite (bind_ret _ _ _ _ _ R1), Hmk.
  unfold invoke, bind, record, lift, log, raise.
  cbn [failure_of fst snd].
  eexists; exists evs1.
  split; [split; [reflexivity|] | exact S1].
  cbn [trace]. rewrite T1. reflexivity.
Qed.

Lemma download_makedirs_failure_witness :
  exists w' sleeps,
    runs (download read_only_disk sample_id VNone VNone (VBool true) VNone
                   VNone VNone VNone) (fresh [])
         (Raise (mkExn PlainException
                   "Download failed: [Errno 30] Read-only file system: 'downloads'"))
         w'
         (Logged Error
            "Download error: [Errno 30] Read-only file system: 'downloads'"
          :: Called (CMakedirs "downloads")
               (Some (mkExn OtherError
                        "[Errno 30] Read-only file system: 'downloads'"))
          :: sleeps)
    /\ forallb is_sleep sleeps = true.
Proof.
  apply (download_makedirs_failure read_only_disk sample_id VNone VNone
           (VBool true) VNone VNone VNone VNone (fresh [])
           (mkExn OtherError "[Errno 30] Read-only file system: 'downloads'")).
  reflexivity.
Defined.

(* ------------------------------------------------------------------ *)
(** ** More on [exists] *)

(** X20. With the flag set, [exists] accepts every ID of eleven
    characters other than [&], [=], [%] and [?], and whatever follows
    it. *)
Theorem exists_accepts_bare_id (id rest : string) (videoid : value)
  (w : world) :
  Py.truthy videoid = true ->
  String.length id = 11 ->
  forallb id_char (list_ascii_of_string id) = true ->
  exists_ (id ++ rest) videoid w = (Ret true, w).
Proof.
  intros T Hlen Hid. unfold exists_, ret. rewrite T. do 2 f_equal.
  apply url_regex_search.
  exists "https://www.", "youtube.com", "watch?v=", id, rest.
  split; [reflexivity|]. split; [left; reflexivity|].
  split; [right; left; reflexivity|]. split; assumption.
Qed.

Lemma exists_accepts_bare_id_witness :
  exists_ "dQw4w9WgXcQ&t=42" (VBool true) (fresh [])
  = (Ret true, fresh []).
Proof.
  apply (exists_accepts_bare_id "dQw4w9WgXcQ" "&t=42" (VBool true) (fresh []));
    reflexivity.
Defined.
